(** * Reservation / car-availability coordinator

    A shallow embedding of [backend/app/services/reservation_service.py]
    (class [ReservationService]) and of [validate_reservation_dates] from
    [backend/app/utils/helpers.py], together with the properties of the
    reservation lifecycle that the specification states about them.

    Conventions of the embedding:
    - the columns of [models/database.py] keep their names and their types:
      [String] columns are strings, [Integer] keys are [Z], [DateTime] is a
      [Z] time stamp, nullable columns are [option]; [Float] prices are
      exact rationals ([Q]), of which the service only inspects the sign;
    - the tables [cars] and [reservations] are finite maps from the primary
      key to the row;
    - a SQLAlchemy [Session] is a pair of the stored database and the view
      a transaction works on; [commit] either stores the whole view or
      raises, [rollback] resets the view, and closing the session at the end
      of a request ([get_db]) drops whatever was not committed;
    - [datetime.now()] and the outcome of [db.commit()] are read from an
      explicit environment;
    - the rows carry every column of their table but the two time stamps
      [created_at] and [updated_at], which the ORM maintains and no
      function here reads: [updated_at] is rewritten by every UPDATE of a
      row.  Whatever is stated below about a row or a table being kept, or
      being the same as another, is therefore a statement about the
      columns other than these two. *)

From Stdlib Require Import ZArith QArith String List Permutation Sorted Lia.
From stdpp Require Import base option gmap strings list fin_maps.

Open Scope string_scope.
Open Scope Z_scope.

(** ** Rows of [models/database.py] *)

Record Car := mkCar {
  marque : string;
  modele : string;
  couleur : string;
  motorisation : string;
  prix : Q;
  disponibilite : string;          (* 'disponible', 'loue', 'vendu' *)
  description : option string;
  kilometrage : option Z;
  annee : option Z;
  image_url : option string;
  is_active : bool
}.

Record Reservation := mkReservation {
  car_id : Z;
  user_id : Z;
  type_transaction : string;       (* 'vente' ou 'location' *)
  date_debut : Z;
  date_fin : option Z;             (* Null pour les ventes *)
  prix_final : Q;
  statut : string;                 (* 'en_attente', 'confirmee', 'annulee', 'terminee' *)
  notes : option string
}.

(** Attribute assignment on a row object. *)

Definition set_disponibilite (v : string) (c : Car) : Car :=
  mkCar (marque c) (modele c) (couleur c) (motorisation c) (prix c) v
        (description c) (kilometrage c) (annee c) (image_url c) (is_active c).

Definition set_type_transaction (v : string) (r : Reservation) : Reservation :=
  mkReservation (car_id r) (user_id r) v (date_debut r) (date_fin r)
                (prix_final r) (statut r) (notes r).

Definition set_date_debut (v : Z) (r : Reservation) : Reservation :=
  mkReservation (car_id r) (user_id r) (type_transaction r) v (date_fin r)
                (prix_final r) (statut r) (notes r).

Definition set_date_fin (v : option Z) (r : Reservation) : Reservation :=
  mkReservation (car_id r) (user_id r) (type_transaction r) (date_debut r) v
                (prix_final r) (statut r) (notes r).

Definition set_prix_final (v : Q) (r : Reservation) : Reservation :=
  mkReservation (car_id r) (user_id r) (type_transaction r) (date_debut r)
                (date_fin r) v (statut r) (notes r).

Definition set_statut (v : string) (r : Reservation) : Reservation :=
  mkReservation (car_id r) (user_id r) (type_transaction r) (date_debut r)
                (date_fin r) (prix_final r) v (notes r).

Definition set_notes (v : option string) (r : Reservation) : Reservation :=
  mkReservation (car_id r) (user_id r) (type_transaction r) (date_debut r)
                (date_fin r) (prix_final r) (statut r) v.

(** ** Request schemas of [models/schema.py] *)

Record ReservationCreate := mkReservationCreate {
  rc_car_id : Z;
  rc_type_transaction : string;
  rc_date_debut : Z;
  rc_date_fin : option Z;
  rc_prix_final : Q;
  rc_notes : option string
}.

(** [ReservationUpdate]: every field is optional.  [update_data.dict
    (exclude_unset=True)] keeps the fields the request mentions, also those
    it sets to [null]; so a field is [None] when it is unset, [Some None]
    when it is present with value [None], and [Some (Some v)] otherwise. *)

Record ReservationUpdate := mkReservationUpdate {
  ru_type_transaction : option (option string);
  ru_date_debut : option (option Z);
  ru_date_fin : option (option Z);
  ru_prix_final : option (option Q);
  ru_statut : option (option string);
  ru_notes : option (option string)
}.

(** ** The database, the session and the environment *)

Record Database := mkDatabase {
  cars : gmap Z Car;
  reservations : gmap Z Reservation;
  next_reservation_id : Z          (* AUTO_INCREMENT of reservations.id *)
}.

Record Session := mkSession {
  stored : Database;               (* what has been committed *)
  view : Database                  (* the rows as the open transaction sees them *)
}.

Record Env := mkEnv {
  now : Z;                         (* datetime.now() *)
  commit_ok : bool                 (* does db.commit() go through? *)
}.

(** ** Exceptions and the request monad *)

Inductive Exception :=
| HTTPException (status_code : Z) (detail : string)
| AttributeError                   (* attribute access on None *)
| DBAPIError.                      (* raised by a commit that fails *)

Inductive Outcome (A : Type) :=
| Return (a : A)
| Raise (e : Exception).
Arguments Return {A} a.
Arguments Raise {A} e.

Definition Request (A : Type) : Type := Session -> Outcome A * Session.

Definition ret {A} (a : A) : Request A := fun s => (Return a, s).

Definition raise {A} (e : Exception) : Request A := fun s => (Raise e, s).

Definition bind {A B} (m : Request A) (k : A -> Request B) : Request B :=
  fun s => match m s with
           | (Return a, s') => k a s'
           | (Raise e, s') => (Raise e, s')
           end.

Notation "'do' x <- m ; k" := (bind m (fun x => k))
  (at level 10, x name, m at level 100, k at level 200).
Notation "m ;; k" := (bind m (fun _ => k))
  (at level 100, k at level 200, right associativity).

(** [try: body except Exception: handler]. *)
Definition try_except {A} (body : Request A) (handler : Request A) : Request A :=
  fun s => match body s with
           | (Return a, s') => (Return a, s')
           | (Raise _, s') => handler s'
           end.

Definition get_view : Request Database := fun s => (Return (view s), s).

Definition put_view (d : Database) : Request unit :=
  fun s => (Return tt, mkSession (stored s) d).

(** [db.commit()]: all pending writes are stored, or none and it raises. *)
Definition commit (env : Env) : Request unit :=
  fun s => if commit_ok env
           then (Return tt, mkSession (view s) (view s))
           else (Raise DBAPIError, s).

(** [db.rollback()] *)
Definition rollback : Request unit :=
  fun s => (Return tt, mkSession (stored s) (stored s)).

(** A request as [get_db] frames it: a fresh session on the stored
    database, the handler, then [db.close()], which forgets every write
    that was not committed. *)
Definition run_request {A} (f : Request A) (db : Database) : Outcome A * Database :=
  let '(r, s) := f (mkSession db db) in (r, stored s).

(** ** Queries and writes on the session *)

(** [db.query(Car).filter(Car.id == id).first()] *)
Definition query_car (id : Z) : Request (option Car) :=
  do d <- get_view; ret (cars d !! id).

(** [db.query(Car).filter(Car.id == id, Car.is_active == True).first()] *)
Definition query_active_car (id : Z) : Request (option Car) :=
  do d <- get_view;
  ret (match cars d !! id with
       | Some c => if is_active c then Some c else None
       | None => None
       end).

(** [db.query(Reservation).filter(Reservation.id == id).first()] *)
Definition query_reservation (id : Z) : Request (option Reservation) :=
  do d <- get_view; ret (reservations d !! id).

(** [db.query(Reservation).filter(...).count()] *)
Definition count_reservations (p : Reservation -> bool) : Request nat :=
  do d <- get_view;
  ret (length (List.filter p (map snd (map_to_list (reservations d))))).

(** [db.add(row)]: the row receives the next key of the table. *)
Definition add_reservation (r : Reservation) : Request Z :=
  do d <- get_view;
  let id := next_reservation_id d in
  put_view (mkDatabase (cars d) (<[id := r]> (reservations d)) (id + 1));;
  ret id.

(** ** Helpers *)

(** [x in l] on strings. *)
Definition str_in (x : string) (l : list string) : bool :=
  existsb (String.eqb x) l.
Arguments str_in : simpl never.

(** [validate_reservation_dates] of [utils/helpers.py]. *)
Definition validate_reservation_dates
    (env : Env) (date_debut : Z) (date_fin : option Z) (type_transaction : string) : bool :=
  if date_debut <? now env then false
  else if String.eqb type_transaction "location" then
    match date_fin with
    | None => false
    | Some fin => if fin <=? date_debut then false else true
    end
  else true.

(** [setattr] on the car object [id] of the session's identity map. *)
Definition setattr_car (id : Z) (f : Car -> Car) : Request unit :=
  do d <- get_view;
  put_view (mkDatabase (alter f id (cars d)) (reservations d) (next_reservation_id d)).

(** [setattr] on the reservation object [id] of the session. *)
Definition setattr_reservation (id : Z) (f : Reservation -> Reservation) : Request unit :=
  do d <- get_view;
  put_view (mkDatabase (cars d) (alter f id (reservations d)) (next_reservation_id d)).

(** [car.disponibilite = v] where [car] may be [None]: an attribute
    assignment on [None] raises [AttributeError]. *)
Definition assign_disponibilite (id : Z) (car : option Car) (v : string) : Request unit :=
  match car with
  | Some _ => setattr_car id (set_disponibilite v)
  | None => raise AttributeError
  end.

(** [ReservationResponse.from_orm(row)] of the row the session holds under
    [id] after [db.refresh]. *)
Definition from_orm (id : Z) : Request (Z * Reservation) :=
  do row <- query_reservation id;
  match row with
  | Some r => ret (id, r)
  | None => raise AttributeError
  end.

(** ** The exceptions the service raises, named after the error taxonomy
    of the specification *)

Definition car_not_found := HTTPException 404 "Voiture non trouvée".
Definition car_not_available := HTTPException 400 "Cette voiture n'est pas disponible".
Definition invalid_dates := HTTPException 400 "Dates de réservation invalides".
Definition rental_conflict :=
  HTTPException 400 "La voiture est déjà réservée pour cette période".
Definition invalid_price := HTTPException 400 "Le prix final doit être supérieur à 0".
Definition create_failed :=
  HTTPException 500 "Erreur lors de la création de la réservation".
Definition status_forbidden :=
  HTTPException 403 "Seuls les vendeurs peuvent modifier le statut des réservations".
Definition reservation_not_found := HTTPException 404 "Réservation non trouvée".
Definition invalid_transition (old_status new_status : string) :=
  HTTPException 400
    ("Transition de statut invalide de '" +:+ old_status +:+ "' vers '"
       +:+ new_status +:+ "'").
Definition status_failed :=
  HTTPException 500 "Erreur lors de la mise à jour du statut".
Definition update_forbidden :=
  HTTPException 403 "Vous ne pouvez modifier que vos propres réservations".
Definition update_not_pending :=
  HTTPException 400 "Vous ne pouvez modifier que les réservations en attente".
Definition update_failed :=
  HTTPException 500 "Erreur lors de la mise à jour de la réservation".
Definition cancel_forbidden :=
  HTTPException 403 "Vous ne pouvez annuler que vos propres réservations".
Definition cancel_not_allowed :=
  HTTPException 400 "Cette réservation ne peut pas être annulée".
Definition cancel_failed :=
  HTTPException 500 "Erreur lors de l'annulation de la réservation".

(** The taxonomy of section 7 of the specification. *)
Inductive ErrorKind :=
| NotFound | ValidationError | InvalidState | InvalidTransition
| ConflictError | PermissionError | PersistenceError | Unhandled.

(** Which error of the taxonomy an exception of the service is: by its
    status code, and for the code 400 by its message. *)
Definition error_kind (e : Exception) : ErrorKind :=
  match e with
  | HTTPException code detail =>
      if code =? 404 then NotFound
      else if code =? 403 then PermissionError
      else if code =? 500 then PersistenceError
      else if code =? 400 then
        if String.eqb detail "Dates de réservation invalides" then ValidationError
        else if String.eqb detail "Le prix final doit être supérieur à 0" then ValidationError
        else if String.eqb detail "La voiture est déjà réservée pour cette période"
        then ConflictError
        else if String.prefix "Transition de statut invalide" detail then InvalidTransition
        else InvalidState
      else Unhandled
  | AttributeError => Unhandled
  | DBAPIError => PersistenceError
  end.

(** ** [ReservationService.create_reservation] *)

(** The filter of the conflict query: a rental of the same car, pending or
    confirmed, whose interval meets the requested one.  A comparison with a
    NULL [date_fin] is not true in SQL. *)
Definition conflicts_with (reservation_data : ReservationCreate) (fin : Z)
    (r : Reservation) : bool :=
  (car_id r =? rc_car_id reservation_data)
  && String.eqb (type_transaction r) "location"
  && str_in (statut r) ["en_attente"; "confirmee"]
  && (date_debut r <? fin)
  && match date_fin r with
     | Some f => rc_date_debut reservation_data <? f
     | None => false
     end.

Definition create_reservation (env : Env) (reservation_data : ReservationCreate)
    (user_id : Z) : Request (Z * Reservation) :=
  (* Vérifier que la voiture existe et est disponible *)
  do car <- query_active_car (rc_car_id reservation_data);
  match car with
  | None => raise car_not_found
  | Some car =>
    if negb (String.eqb (disponibilite car) "disponible") then raise car_not_available
    (* Valider les dates *)
    else if negb (validate_reservation_dates env
                    (rc_date_debut reservation_data)
                    (rc_date_fin reservation_data)
                    (rc_type_transaction reservation_data))
    then raise invalid_dates
    else
      (* Vérifier les conflits de dates pour les locations *)
      (match rc_date_fin reservation_data with
       | Some fin =>
           if String.eqb (rc_type_transaction reservation_data) "location" then
             do existing_reservations <-
               count_reservations (conflicts_with reservation_data fin);
             if (0 <? Z.of_nat existing_reservations) then raise rental_conflict
             else ret tt
           else ret tt
       | None => ret tt
       end);;
      (* Valider le prix *)
      if Qle_bool (rc_prix_final reservation_data) 0 then raise invalid_price
      else
        (* Créer la réservation *)
        let db_reservation :=
          mkReservation (rc_car_id reservation_data) user_id
                        (rc_type_transaction reservation_data)
                        (rc_date_debut reservation_data)
                        (rc_date_fin reservation_data)
                        (rc_prix_final reservation_data)
                        "en_attente"
                        (rc_notes reservation_data) in
        do id <-
          try_except
            (do id <- add_reservation db_reservation;
             (* Mettre à jour le statut de la voiture si nécessaire *)
             (if String.eqb (rc_type_transaction reservation_data) "vente" then
                setattr_car (rc_car_id reservation_data) (set_disponibilite "vendu")
              else if String.eqb (rc_type_transaction reservation_data) "location" then
                setattr_car (rc_car_id reservation_data) (set_disponibilite "loue")
              else ret tt);;
             commit env;;
             ret id)
            (rollback;; raise create_failed);
        from_orm id
  end.

(** ** [ReservationService.update_reservation_status] *)

Definition valid_transitions : gmap string (list string) :=
  <["en_attente" := ["confirmee"; "annulee"]]>
  (<["confirmee" := ["terminee"; "annulee"]]>
  (<["annulee" := []]>
  (<["terminee" := []]> ∅))).

Definition update_reservation_status (env : Env) (reservation_id : Z)
    (new_status : string) (user_role : string) : Request (Z * Reservation) :=
  if negb (String.eqb user_role "vendeur") then raise status_forbidden
  else
    do reservation <- query_reservation reservation_id;
    match reservation with
    | None => raise reservation_not_found
    | Some reservation =>
      (* Vérifier les transitions de statut valides *)
      if negb (str_in new_status (default [] (valid_transitions !! statut reservation)))
      then raise (invalid_transition (statut reservation) new_status)
      else
        setattr_reservation reservation_id (set_statut new_status);;
        (* Mettre à jour la disponibilité de la voiture selon le nouveau statut *)
        do car <- query_car (car_id reservation);
        (if String.eqb new_status "annulee" then
           assign_disponibilite (car_id reservation) car "disponible"
         else if String.eqb new_status "terminee"
                 && String.eqb (type_transaction reservation) "location" then
           assign_disponibilite (car_id reservation) car "disponible"
         else ret tt);;
        try_except (commit env) (rollback;; raise status_failed);;
        from_orm reservation_id
    end.

(** ** [ReservationService.update_reservation] *)

(** One round of the loop over [update_dict.items()] for a field without a
    validation of its own: the attribute is set when the value is not
    [None]. *)
Definition update_field {V} (reservation_id : Z) (value : option (option V))
    (set : V -> Reservation -> Reservation) : Request unit :=
  match value with
  | Some (Some v) => setattr_reservation reservation_id (set v)
  | _ => ret tt
  end.

(** The round for [prix_final], with its validation. *)
Definition update_prix_final (reservation_id : Z) (value : option (option Q)) : Request unit :=
  match value with
  | Some (Some v) =>
      if Qle_bool v 0 then raise invalid_price
      else setattr_reservation reservation_id (set_prix_final v)
  | _ => ret tt
  end.

(** [any(field in update_dict for field in
         ["date_debut", "date_fin", "type_transaction"])] *)
Definition touches_dates (update_data : ReservationUpdate) : bool :=
  bool_decide (is_Some (ru_date_debut update_data))
  || bool_decide (is_Some (ru_date_fin update_data))
  || bool_decide (is_Some (ru_type_transaction update_data)).

Definition update_reservation (env : Env) (reservation_id : Z)
    (update_data : ReservationUpdate) (user_id' : Z) (user_role : string)
    : Request (Z * Reservation) :=
  do reservation <- query_reservation reservation_id;
  match reservation with
  | None => raise reservation_not_found
  | Some reservation =>
    (* Vérifier les permissions *)
    if String.eqb user_role "client" && negb (user_id reservation =? user_id')
    then raise update_forbidden
    (* Les clients ne peuvent modifier que les réservations en attente *)
    else if String.eqb user_role "client"
            && negb (String.eqb (statut reservation) "en_attente")
    then raise update_not_pending
    else
      (* Mettre à jour les champs fournis, dans l'ordre des champs du schéma *)
      update_field reservation_id (ru_type_transaction update_data) set_type_transaction;;
      update_field reservation_id (ru_date_debut update_data) set_date_debut;;
      update_field reservation_id (ru_date_fin update_data)
                   (fun v => set_date_fin (Some v));;
      update_prix_final reservation_id (ru_prix_final update_data);;
      update_field reservation_id (ru_statut update_data) set_statut;;
      update_field reservation_id (ru_notes update_data)
                   (fun v => set_notes (Some v));;
      (* Valider les nouvelles dates si elles ont été modifiées *)
      (if touches_dates update_data then
         do current <- from_orm reservation_id;
         if negb (validate_reservation_dates env
                    (date_debut (snd current))
                    (date_fin (snd current))
                    (type_transaction (snd current)))
         then raise invalid_dates
         else ret tt
       else ret tt);;
      try_except (commit env) (rollback;; raise update_failed);;
      from_orm reservation_id
  end.

(** ** [ReservationService.cancel_reservation] *)

Definition cancel_reservation (env : Env) (reservation_id : Z) (user_id' : Z)
    (user_role : string) : Request bool :=
  do reservation <- query_reservation reservation_id;
  match reservation with
  | None => raise reservation_not_found
  | Some reservation =>
    (* Vérifier les permissions *)
    if String.eqb user_role "client" && negb (user_id reservation =? user_id')
    then raise cancel_forbidden
    (* Vérifier que la réservation peut être annulée *)
    else if str_in (statut reservation) ["annulee"; "terminee"]
    then raise cancel_not_allowed
    else
      (* Annuler la réservation *)
      setattr_reservation reservation_id (set_statut "annulee");;
      (* Remettre la voiture disponible *)
      do car <- query_car (car_id reservation);
      (match car with
       | Some _ => setattr_car (car_id reservation) (set_disponibilite "disponible")
       | None => ret tt
       end);;
      try_except (commit env) (rollback;; raise cancel_failed);;
      ret true
  end.

(** ** Requests against the stored database *)

Inductive Operation :=
| OpCreate (reservation_data : ReservationCreate) (user_id : Z)
| OpTransitionStatus (reservation_id : Z) (new_status : string) (user_role : string)
| OpUpdate (reservation_id : Z) (update_data : ReservationUpdate)
         (user_id : Z) (user_role : string)
| OpCancel (reservation_id : Z) (user_id : Z) (user_role : string).

(** The stored database after one request; what the request answered is
    dropped. *)
Definition perform (env : Env) (op : Operation) (db : Database) : Database :=
  match op with
  | OpCreate data uid => snd (run_request (create_reservation env data uid) db)
  | OpTransitionStatus rid st role =>
      snd (run_request (update_reservation_status env rid st role) db)
  | OpUpdate rid data uid role =>
      snd (run_request (update_reservation env rid data uid role) db)
  | OpCancel rid uid role => snd (run_request (cancel_reservation env rid uid role) db)
  end.

(** A sequence of requests, each in its own environment. *)
Fixpoint perform_all (ops : list (Env * Operation)) (db : Database) : Database :=
  match ops with
  | [] => db
  | (env, op) :: rest => perform_all rest (perform env op db)
  end.

(** * The read side, the routes and the car service *)

(** ** [paginate_query] of [utils/helpers.py] *)

Record Pagination (A : Type) := mkPagination {
  pg_items : list A;
  pg_total : Z;
  pg_page : Z;
  pg_size : Z;
  pg_pages : Z;
  pg_has_next : bool;
  pg_has_prev : bool
}.
Arguments mkPagination {A} _ _ _ _ _ _ _.
Arguments pg_items {A} _.
Arguments pg_total {A} _.
Arguments pg_page {A} _.
Arguments pg_size {A} _.
Arguments pg_pages {A} _.
Arguments pg_has_next {A} _.
Arguments pg_has_prev {A} _.

(** [ceil(total / size)] for a positive [size]; the quotient of the source
    is a float, which is exact for the row counts of a table. *)
Definition ceil_div (total size : Z) : Z := - ((- total) / size).

(** A query is the list of its rows; [query.offset(o).limit(n).all()] drops
    [o] rows and takes [n].  With [max_size < 1] the clamped [size] is not
    positive: a negative LIMIT is refused by the database and the division
    by a zero [size] raises, so that there is no result ([None]); every
    caller leaves [max_size] at its default 100. *)
Definition paginate_query {A} (query : list A) (page size max_size : Z)
    : option (Pagination A) :=
  (* Validation des paramètres *)
  let page := Z.max 1 page in
  let size := Z.min (Z.max 1 size) max_size in
  (* Calcul de l'offset *)
  let offset := (page - 1) * size in
  (* Exécution de la requête avec pagination *)
  let total := Z.of_nat (length query) in
  if size <? 0 then None
  else
    let items := take (Z.to_nat size) (drop (Z.to_nat offset) query) in
    (* Calcul du nombre de pages *)
    if (0 <? total) && (size =? 0) then None
    else
      let pages := if 0 <? total then ceil_div total size else 0 in
      Some (mkPagination items total page size pages (page <? pages) (1 <? page)).

(** ** [sanitize_string] of [utils/helpers.py] *)

(** A Python [str] here is the list of its code points, so that stripping,
    substitution and slicing count characters as Python does. *)

(** [str.isspace] on one character, the white space [str.strip] removes:
    tab to carriage return, the separators 28 to 31, the space, and the
    Unicode spaces. *)
Definition is_space (c : Z) : bool :=
  ((9 <=? c) && (c <=? 13)) || ((28 <=? c) && (c <=? 32))
  || (c =? 133) || (c =? 160) || (c =? 5760)
  || ((8192 <=? c) && (c <=? 8202))
  || (c =? 8232) || (c =? 8233) || (c =? 8239) || (c =? 8287) || (c =? 12288).

Fixpoint lstrip (l : list Z) : list Z :=
  match l with
  | c :: rest => if is_space c then lstrip rest else l
  | [] => []
  end.

(** [text.strip()] *)
Definition strip (l : list Z) : list Z :=
  rev (lstrip (rev (lstrip l))).

(** The characters the substitution removes: the two angle brackets, the
    double quote and the apostrophe. *)
Definition dangerous (c : Z) : bool :=
  (c =? 60) || (c =? 62) || (c =? 34) || (c =? 39).

(** The slice [l[:n]]; a negative [n] counts from the end. *)
Definition slice_to {A} (l : list A) (n : Z) : list A :=
  if 0 <=? n then take (Z.to_nat n) l
  else take (Z.to_nat (Z.of_nat (length l) + n)) l.

Definition sanitize_string (text : list Z) (max_length : Z) : list Z :=
  match text with
  | [] => []
  | _ =>
    (* Supprime les caractères dangereux *)
    let sanitized := List.filter (fun c => negb (dangerous c)) (strip text) in
    (* Limite la longueur *)
    slice_to sanitized max_length
  end.

(** ** The read side of [ReservationService] *)

(** The rows of a table with their keys. *)
Definition all_reservations (d : Database) : list (Z * Reservation) :=
  map_to_list (reservations d).

Definition all_cars (d : Database) : list (Z * Car) :=
  map_to_list (cars d).

(** [if v: query = query.filter(column == v)]: the filter applies when the
    optional string is there and not empty. *)
Definition filter_if {A} (v : option string) (column : A -> string)
    (query : list (Z * A)) : list (Z * A) :=
  match v with
  | Some s => if negb (String.eqb s "")
              then List.filter (fun row => String.eqb (column (snd row)) s) query
              else query
  | None => query
  end.

(** [if user_role == "client" and user_id: query = query.filter(...)]: the
    restriction to the reservations of a client; any other role, and a
    missing or zero [user_id], sees every row. *)
Definition own_rows (user_role : string) (user_id' : option Z)
    (query : list (Z * Reservation)) : list (Z * Reservation) :=
  match user_id' with
  | Some uid =>
      if String.eqb user_role "client" && negb (uid =? 0)
      then List.filter (fun row => user_id (snd row) =? uid) query
      else query
  | None => query
  end.

(** [get_reservation_by_id] *)
Definition get_reservation_by_id (reservation_id : Z) : Request (option Reservation) :=
  query_reservation reservation_id.

(** [get_reservations_by_car] *)
Definition get_reservations_by_car
    (order_by_created_at : list (Z * Reservation) -> list (Z * Reservation))
    (car_id' : Z) : Request (list (Z * Reservation)) :=
  do d <- get_view;
  ret (order_by_created_at
         (List.filter (fun row => car_id (snd row) =? car_id') (all_reservations d))).

Record DashboardStats := mkDashboardStats {
  total_cars : Z;
  available_cars : Z;
  sold_cars : Z;
  rented_cars : Z;
  total_reservations : Z;
  pending_reservations : Z;
  confirmed_reservations : Z
}.

(** [query.count()] *)
Definition count {A} (query : list A) : Z := Z.of_nat (length query).

Definition cars_with (availability : string) (d : Database) : list (Z * Car) :=
  List.filter (fun row => is_active (snd row)
                          && String.eqb (disponibilite (snd row)) availability)
              (all_cars d).

(** [get_dashboard_stats] *)
Definition get_dashboard_stats (user_role : string) (user_id' : option Z)
    : Request DashboardStats :=
  do d <- get_view;
  let query := own_rows user_role user_id' (all_reservations d) in
  let total_reservations := count query in
  let pending_reservations :=
    count (List.filter (fun row => String.eqb (statut (snd row)) "en_attente") query) in
  let confirmed_reservations :=
    count (List.filter (fun row => String.eqb (statut (snd row)) "confirmee") query) in
  (* Statistiques des voitures *)
  let total_cars := count (List.filter (fun row => is_active (snd row)) (all_cars d)) in
  let available_cars := count (cars_with "disponible" d) in
  let sold_cars := count (cars_with "vendu" d) in
  let rented_cars := count (cars_with "loue" d) in
  ret (mkDashboardStats total_cars available_cars sold_cars rented_cars
         total_reservations pending_reservations confirmed_reservations).

(** [ORDER BY date_debut]: insertion of a row before the first later one. *)
Fixpoint insert_by_date (row : Z * Reservation) (sorted : list (Z * Reservation))
    : list (Z * Reservation) :=
  match sorted with
  | [] => [row]
  | first :: rest =>
      if date_debut (snd row) <=? date_debut (snd first) then row :: sorted
      else first :: insert_by_date row rest
  end.

Definition order_by_date_debut (query : list (Z * Reservation)) : list (Z * Reservation) :=
  foldr insert_by_date [] query.

(** [get_upcoming_reservations]; [day] is the length of a day in the unit
    of the time stamps, and the two calls of [datetime.now()] read the same
    instant. *)
Definition get_upcoming_reservations (env : Env) (day : Z) (days_ahead : Z)
    : Request (list (Z * Reservation)) :=
  let end_date := now env + days_ahead * day in
  do d <- get_view;
  ret (order_by_date_debut
         (List.filter (fun row => (date_debut (snd row) <=? end_date)
                                  && (now env <=? date_debut (snd row))
                                  && String.eqb (statut (snd row)) "confirmee")
                      (all_reservations d))).

(** ** The routes of [routers/reservations_router.py] *)

(** The columns of the [users] table. *)
Record User := mkUser {
  u_id : Z;
  u_email : string;
  u_password : string;
  u_nom : string;
  u_prenom : string;
  u_telephone : string;
  u_role : string;                 (* 'client' ou 'vendeur' *)
  u_is_active : bool
}.

Definition inactive_user := HTTPException 400 "Inactive user".
Definition vendeur_required := HTTPException 403 "Operation requires vendeur role".

(** [get_current_active_user] of [utils/auth.py], from the user the token
    stands for. *)
Definition get_current_active_user (current_user : User) : Request User :=
  if negb (u_is_active current_user)
  then raise inactive_user
  else ret current_user.

(** [require_role(required_role)] *)
Definition require_role (required_role : string) (current_user : User) : Request User :=
  do current_user <- get_current_active_user current_user;
  if negb (String.eqb (u_role current_user) required_role)
  then raise (HTTPException 403 ("Operation requires " +:+ required_role +:+ " role"))
  else ret current_user.

Definition require_vendeur : User -> Request User := require_role "vendeur".

Definition view_forbidden :=
  HTTPException 403 "Vous ne pouvez voir que vos propres réservations".
Definition delete_not_cancelled :=
  HTTPException 400 "Seules les réservations annulées peuvent être supprimées".
Definition delete_failed :=
  HTTPException 500 "Erreur lors de la suppression de la réservation".

(** [db.delete(row)] *)
Definition delete_reservation_row (id : Z) : Request unit :=
  do d <- get_view;
  put_view (mkDatabase (cars d) (delete id (reservations d)) (next_reservation_id d)).

(** GET /api/reservations/{reservation_id} *)
Definition route_get_reservation (reservation_id : Z) (current_user : User)
    : Request (Z * Reservation) :=
  do current_user <- get_current_active_user current_user;
  do reservation <- get_reservation_by_id reservation_id;
  match reservation with
  | None => raise reservation_not_found
  | Some reservation =>
    (* Vérifier les permissions pour les clients *)
    if String.eqb (u_role current_user) "client"
       && negb (user_id reservation =? u_id current_user)
    then raise view_forbidden
    else ret (reservation_id, reservation)
  end.

(** POST /api/reservations/ *)
Definition route_create_reservation (env : Env) (reservation_data : ReservationCreate)
    (current_user : User) : Request (Z * Reservation) :=
  do current_user <- get_current_active_user current_user;
  create_reservation env reservation_data (u_id current_user).

(** PATCH /api/reservations/{reservation_id}/status *)
Definition route_update_reservation_status (env : Env) (reservation_id : Z)
    (statut' : string) (current_user : User) : Request (Z * Reservation) :=
  do current_user <- require_vendeur current_user;
  update_reservation_status env reservation_id statut' (u_role current_user).

(** POST /api/reservations/{reservation_id}/cancel *)
Definition route_cancel_reservation (env : Env) (reservation_id : Z)
    (current_user : User) : Request string :=
  do current_user <- get_current_active_user current_user;
  cancel_reservation env reservation_id (u_id current_user) (u_role current_user);;
  ret "Réservation annulée avec succès".

(** DELETE /api/reservations/{reservation_id} *)
Definition route_delete_reservation (env : Env) (reservation_id : Z)
    (current_user : User) : Request string :=
  do current_user <- require_vendeur current_user;
  do reservation <- get_reservation_by_id reservation_id;
  match reservation with
  | None => raise reservation_not_found
  | Some reservation =>
    (* Seules les réservations annulées peuvent être supprimées *)
    if negb (String.eqb (statut reservation) "annulee") then raise delete_not_cancelled
    else
      try_except (delete_reservation_row reservation_id;; commit env)
                 (rollback;; raise delete_failed);;
      ret "Réservation supprimée avec succès"
  end.

(** ** [CarService], as far as it writes what the reservations depend on *)

Definition set_is_active (v : bool) (c : Car) : Car :=
  mkCar (marque c) (modele c) (couleur c) (motorisation c) (prix c)
        (disponibilite c) (description c) (kilometrage c) (annee c)
        (image_url c) v.

Definition car_has_reservations :=
  HTTPException 400 "Impossible de supprimer une voiture avec des réservations actives".
Definition car_delete_failed :=
  HTTPException 500 "Erreur lors de la suppression de la voiture".
Definition invalid_availability :=
  HTTPException 400 "Statut de disponibilité invalide".
Definition availability_failed :=
  HTTPException 500 "Erreur lors de la mise à jour de la disponibilité".

(** The filter of the count in [delete_car] and [update_car]. *)
Definition active_on (car_id' : Z) (r : Reservation) : bool :=
  (car_id r =? car_id') && str_in (statut r) ["en_attente"; "confirmee"].

(** [CarService.get_car_by_id] *)
Definition get_car_by_id (car_id' : Z) : Request (option Car) :=
  query_active_car car_id'.

(** [CarService.delete_car] *)
Definition delete_car (env : Env) (car_id' : Z) : Request bool :=
  do car <- query_car car_id';
  match car with
  | None => raise car_not_found
  | Some _ =>
    (* Vérifier s'il y a des réservations actives *)
    do active_reservations <- count_reservations (active_on car_id');
    if 0 <? Z.of_nat active_reservations then raise car_has_reservations
    else
      (* Soft delete *)
      setattr_car car_id' (set_is_active false);;
      try_except (commit env) (rollback;; raise car_delete_failed);;
      ret true
  end.

(** [CarService.update_car_availability] *)
Definition update_car_availability (env : Env) (car_id' : Z) (availability : string)
    : Request (Z * Car) :=
  do car <- query_active_car car_id';
  match car with
  | None => raise car_not_found
  | Some _ =>
    if negb (str_in availability ["disponible"; "loue"; "vendu"])
    then raise invalid_availability
    else
      setattr_car car_id' (set_disponibilite availability);;
      try_except (commit env) (rollback;; raise availability_failed);;
      do car <- query_car car_id';
      match car with
      | Some c => ret (car_id', c)
      | None => raise AttributeError
      end
  end.

(** ** The steps that follow a commit *)

(** After [db.commit()] the service reads the row back ([db.refresh], and
    in [create_reservation] a reload with its relations) and builds the
    response with [from_orm].  Each of these steps can raise although the
    writes are stored.  Whether they go through is part of the environment;
    the service functions above are the case in which they do. *)
Record Reads := mkReads {
  refresh_ok : bool;                  (* db.refresh and the reload go through *)
  response_error : option Exception   (* what from_orm raises, when it raises *)
}.

(** [db.refresh(row)], and the reload of [create_reservation]. *)
Definition refresh (reads : Reads) : Request unit :=
  if refresh_ok reads then ret tt else raise DBAPIError.

(** [ReservationResponse.from_orm(row)], which validates the row. *)
Definition from_orm_checked (reads : Reads) (id : Z) : Request (Z * Reservation) :=
  match response_error reads with
  | Some e => raise e
  | None => from_orm id
  end.

(** [create_reservation] with these steps: the refresh and the reload are
    inside the [try], the response is built after it. *)
Definition create_reservation_io (env : Env) (reads : Reads)
    (reservation_data : ReservationCreate) (user_id : Z) : Request (Z * Reservation) :=
  do car <- query_active_car (rc_car_id reservation_data);
  match car with
  | None => raise car_not_found
  | Some car =>
    if negb (String.eqb (disponibilite car) "disponible") then raise car_not_available
    else if negb (validate_reservation_dates env
                    (rc_date_debut reservation_data)
                    (rc_date_fin reservation_data)
                    (rc_type_transaction reservation_data))
    then raise invalid_dates
    else
      (match rc_date_fin reservation_data with
       | Some fin =>
           if String.eqb (rc_type_transaction reservation_data) "location" then
             do existing_reservations <-
               count_reservations (conflicts_with reservation_data fin);
             if (0 <? Z.of_nat existing_reservations) then raise rental_conflict
             else ret tt
           else ret tt
       | None => ret tt
       end);;
      if Qle_bool (rc_prix_final reservation_data) 0 then raise invalid_price
      else
        let db_reservation :=
          mkReservation (rc_car_id reservation_data) user_id
                        (rc_type_transaction reservation_data)
                        (rc_date_debut reservation_data)
                        (rc_date_fin reservation_data)
                        (rc_prix_final reservation_data)
                        "en_attente"
                        (rc_notes reservation_data) in
        do id <-
          try_except
            (do id <- add_reservation db_reservation;
             (if String.eqb (rc_type_transaction reservation_data) "vente" then
                setattr_car (rc_car_id reservation_data) (set_disponibilite "vendu")
              else if String.eqb (rc_type_transaction reservation_data) "location" then
                setattr_car (rc_car_id reservation_data) (set_disponibilite "loue")
              else ret tt);;
             commit env;;
             refresh reads;;
             ret id)
            (rollback;; raise create_failed);
        from_orm_checked reads id
  end.

(** [update_reservation_status] with these steps. *)
Definition update_reservation_status_io (env : Env) (reads : Reads) (reservation_id : Z)
    (new_status : string) (user_role : string) : Request (Z * Reservation) :=
  if negb (String.eqb user_role "vendeur") then raise status_forbidden
  else
    do reservation <- query_reservation reservation_id;
    match reservation with
    | None => raise reservation_not_found
    | Some reservation =>
      if negb (str_in new_status (default [] (valid_transitions !! statut reservation)))
      then raise (invalid_transition (statut reservation) new_status)
      else
        setattr_reservation reservation_id (set_statut new_status);;
        do car <- query_car (car_id reservation);
        (if String.eqb new_status "annulee" then
           assign_disponibilite (car_id reservation) car "disponible"
         else if String.eqb new_status "terminee"
                 && String.eqb (type_transaction reservation) "location" then
           assign_disponibilite (car_id reservation) car "disponible"
         else ret tt);;
        try_except (commit env;; refresh reads) (rollback;; raise status_failed);;
        from_orm_checked reads reservation_id
    end.

(** [update_reservation] with these steps. *)
Definition update_reservation_io (env : Env) (reads : Reads) (reservation_id : Z)
    (update_data : ReservationUpdate) (user_id' : Z) (user_role : string)
    : Request (Z * Reservation) :=
  do reservation <- query_reservation reservation_id;
  match reservation with
  | None => raise reservation_not_found
  | Some reservation =>
    if String.eqb user_role "client" && negb (user_id reservation =? user_id')
    then raise update_forbidden
    else if String.eqb user_role "client"
            && negb (String.eqb (statut reservation) "en_attente")
    then raise update_not_pending
    else
      update_field reservation_id (ru_type_transaction update_data) set_type_transaction;;
      update_field reservation_id (ru_date_debut update_data) set_date_debut;;
      update_field reservation_id (ru_date_fin update_data)
                   (fun v => set_date_fin (Some v));;
      update_prix_final reservation_id (ru_prix_final update_data);;
      update_field reservation_id (ru_statut update_data) set_statut;;
      update_field reservation_id (ru_notes update_data)
                   (fun v => set_notes (Some v));;
      (if touches_dates update_data then
         do current <- from_orm reservation_id;
         if negb (validate_reservation_dates env
                    (date_debut (snd current))
                    (date_fin (snd current))
                    (type_transaction (snd current)))
         then raise invalid_dates
         else ret tt
       else ret tt);;
      try_except (commit env;; refresh reads) (rollback;; raise update_failed);;
      from_orm_checked reads reservation_id
  end.

(** ** The body of POST /api/reservations/ *)

(** What a request gets: the outcome of the handler, or 422 when the body
    does not validate as [ReservationCreate]. *)
Inductive Response (A : Type) :=
| Answer (o : Outcome A)
| Unprocessable.
Arguments Answer {A} o.
Arguments Unprocessable {A}.

(** The body validates when each of its fields does.  For [prix_final]
    that is [Field(..., gt=0)]; what the library checks on the other
    fields is the parameter [other_fields_valid]. *)
Definition body_accepted (other_fields_valid : ReservationCreate -> bool)
    (reservation_data : ReservationCreate) : bool :=
  other_fields_valid reservation_data
  && negb (Qle_bool (rc_prix_final reservation_data) 0).

(** A creation request of the user the token stands for: the dependency on
    the user is solved first, then the body is validated, then the handler
    runs. *)
Definition post_reservation (other_fields_valid : ReservationCreate -> bool)
    (env : Env) (reservation_data : ReservationCreate) (current_user : User)
    (db : Database) : Response (Z * Reservation) * Database :=
  match run_request (get_current_active_user current_user) db with
  | (Raise e, db') => (Answer (Raise e), db')
  | (Return _, _) =>
      if body_accepted other_fields_valid reservation_data
      then let '(o, db') :=
             run_request (route_create_reservation env reservation_data current_user) db in
           (Answer o, db')
      else (Unprocessable, db)
  end.

(** The error of the taxonomy a response stands for. *)
Definition response_kind {A} (r : Response A) : option ErrorKind :=
  match r with
  | Unprocessable => Some ValidationError
  | Answer (Raise e) => Some (error_kind e)
  | Answer (Return _) => None
  end.

(** ** The user of a request *)

Definition credentials_exception :=
  HTTPException 401 "Could not validate credentials".

(** [get_current_user] of [utils/auth.py]: [email] is what [verify_token]
    made of the token, [users] the table of users. *)
Definition get_current_user (users : list User) (email : option string) : Request User :=
  match email with
  | None => raise credentials_exception
  | Some email =>
      match List.find (fun u => String.eqb (u_email u) email && u_is_active u) users with
      | None => raise credentials_exception
      | Some user => ret user
      end
  end.

(** A route behind its dependency on the current user. *)
Definition authenticated {A} (users : list User) (email : option string)
    (route : User -> Request A) : Request A :=
  do current_user <- get_current_user users email;
  route current_user.

(** ** Pagination against the database *)

(** The database takes an OFFSET up to [max_offset] only; beyond it the
    paginated query raises. *)
Definition paginate_query_db {A} (max_offset : Z) (query : list A)
    (page size max_size : Z) : option (Pagination A) :=
  if max_offset <? (Z.max 1 page - 1) * Z.min (Z.max 1 size) max_size then None
  else paginate_query query page size max_size.

(** [get_reservations].  The rows carry no [created_at] here: the ordering
    by that column is the parameter [order_by_created_at].  When the
    paginated query raises, so does the service. *)
Definition get_reservations
    (order_by_created_at : list (Z * Reservation) -> list (Z * Reservation))
    (max_offset : Z)
    (user_id' : option Z) (user_role : string) (page size : Z)
    (status_filter type_filter : option string)
    : Request (Pagination (Z * Reservation)) :=
  do d <- get_view;
  let query := all_reservations d in
  (* Filtrer par utilisateur si c'est un client *)
  let query := own_rows user_role user_id' query in
  (* Filtres additionnels *)
  let query := filter_if status_filter statut query in
  let query := filter_if type_filter type_transaction query in
  (* Trier par date de création *)
  let query := order_by_created_at query in
  match paginate_query_db max_offset query page size 100 with
  | Some p => ret p
  | None => raise DBAPIError
  end.

(** * Vocabulary of the specification *)

(** The edges of the lifecycle, in the words of the specification. *)
Definition permitted (current new_status : string) : Prop :=
  (current = "en_attente" /\ (new_status = "confirmee" \/ new_status = "annulee"))
  \/ (current = "confirmee" /\ (new_status = "terminee" \/ new_status = "annulee")).

(** The roles of [UserRole] in [models/schema.py]; the seller is the
    privileged one. *)
Definition known_role (user_role : string) : Prop :=
  user_role = "client" \/ user_role = "vendeur".

Definition privileged (user_role : string) : Prop := user_role = "vendeur".

(** Who passes the permission check of [cancel_reservation] and of
    [update_reservation]. *)
Definition may_access (user_role : string) (actor : Z) (r : Reservation) : Prop :=
  privileged user_role \/ user_id r = actor.

(** The two checks on the actor that [update_reservation] starts with. *)
Definition guard_passes (user_role : string) (actor : Z) (r : Reservation) : Prop :=
  may_access user_role actor r /\ (privileged user_role \/ statut r = "en_attente").

(** The update mentions one of the fields 'date_debut', 'date_fin' and
    'type_transaction'. *)
Definition touched (update_data : ReservationUpdate) : Prop :=
  is_Some (ru_date_debut update_data)
  \/ is_Some (ru_date_fin update_data)
  \/ is_Some (ru_type_transaction update_data).

(** Pending or confirmed. *)
Definition active (r : Reservation) : Prop :=
  statut r = "en_attente" \/ statut r = "confirmee".

(** The half-open overlap test of the specification:
    existing.start < new.end and existing.end > new.start. *)
Definition overlaps (r : Reservation) (reservation_data : ReservationCreate) : Prop :=
  exists existing_end new_end,
    date_fin r = Some existing_end
    /\ rc_date_fin reservation_data = Some new_end
    /\ date_debut r < new_end
    /\ existing_end > rc_date_debut reservation_data.

(** Some pending or confirmed rental of the same car overlaps the request. *)
Definition overlapping_rental (db : Database) (reservation_data : ReservationCreate) : Prop :=
  exists id r,
    reservations db !! id = Some r
    /\ car_id r = rc_car_id reservation_data
    /\ type_transaction r = "location"
    /\ active r
    /\ overlaps r reservation_data.

(** The invariant of the specification: the availability of every car is
    one of the three states; it is 'loue' exactly when the car has a
    pending or confirmed rental and 'vendu' exactly when it has a pending
    or confirmed sale. *)
Definition availability_consistent (db : Database) : Prop :=
  forall cid car, cars db !! cid = Some car ->
    (disponibilite car = "disponible" \/ disponibilite car = "loue"
     \/ disponibilite car = "vendu")
    /\ (disponibilite car = "loue" <->
        exists id r, reservations db !! id = Some r /\ car_id r = cid
                     /\ active r /\ type_transaction r = "location")
    /\ (disponibilite car = "vendu" <->
        exists id r, reservations db !! id = Some r /\ car_id r = cid
                     /\ active r /\ type_transaction r = "vente").

(** A reservation that holds its car in the code: a completed sale goes on
    holding it. *)
Definition occupying (r : Reservation) : Prop :=
  active r \/ (statut r = "terminee" /\ type_transaction r = "vente").

(** The invariant with the completed sales counted in. *)
Definition availability_settled (db : Database) : Prop :=
  forall cid car, cars db !! cid = Some car ->
    (disponibilite car = "disponible" \/ disponibilite car = "loue"
     \/ disponibilite car = "vendu")
    /\ (disponibilite car = "loue" <->
        exists id r, reservations db !! id = Some r /\ car_id r = cid
                     /\ active r /\ type_transaction r = "location")
    /\ (disponibilite car = "vendu" <->
        exists id r, reservations db !! id = Some r /\ car_id r = cid
                     /\ occupying r /\ type_transaction r = "vente").

(** The availability a reservation that holds its car asks for. *)
Definition marks (r : Reservation) (availability : string) : Prop :=
  (availability = "loue" /\ type_transaction r = "location" /\ active r)
  \/ (availability = "vendu" /\ type_transaction r = "vente" /\ occupying r).

Definition known_status (r : Reservation) : Prop :=
  statut r = "en_attente" \/ statut r = "confirmee"
  \/ statut r = "annulee" \/ statut r = "terminee".

Definition known_type (r : Reservation) : Prop :=
  type_transaction r = "vente" \/ type_transaction r = "location".

(** The state the coordinator works on: keys below the counter, statuses
    and types of the enumerations, and for every car at most one
    reservation that holds it, which is there exactly when the car is not
    'disponible' and agrees with its availability. *)
Record coordinated (db : Database) : Prop := mkCoordinated {
  ids_below_next : forall id r,
    reservations db !! id = Some r -> id < next_reservation_id db;
  rows_known : forall id r,
    reservations db !! id = Some r -> known_status r /\ known_type r;
  availability_known : forall cid car, cars db !! cid = Some car ->
    disponibilite car = "disponible" \/ disponibilite car = "loue"
    \/ disponibilite car = "vendu";
  holder_marks : forall cid car id r,
    cars db !! cid = Some car -> reservations db !! id = Some r ->
    car_id r = cid -> occupying r -> marks r (disponibilite car);
  holder_exists : forall cid car,
    cars db !! cid = Some car -> disponibilite car <> "disponible" ->
    exists id r, reservations db !! id = Some r /\ car_id r = cid /\ occupying r;
  holder_unique : forall cid id1 r1 id2 r2,
    is_Some (cars db !! cid) ->
    reservations db !! id1 = Some r1 -> reservations db !! id2 = Some r2 ->
    car_id r1 = cid -> car_id r2 = cid -> occupying r1 -> occupying r2 -> id1 = id2
}.

(** The requests the schemas let through, with the updates that leave
    'type_transaction' and 'statut' alone. *)
Definition plain_update (update_data : ReservationUpdate) : Prop :=
  (ru_type_transaction update_data = None \/ ru_type_transaction update_data = Some None)
  /\ (ru_statut update_data = None \/ ru_statut update_data = Some None).

Definition admissible (op : Operation) : Prop :=
  match op with
  | OpCreate reservation_data _ =>
      rc_type_transaction reservation_data = "vente"
      \/ rc_type_transaction reservation_data = "location"
  | OpUpdate _ update_data _ _ => plain_update update_data
  | OpTransitionStatus _ _ _ => True
  | OpCancel _ _ _ => True
  end.

(** * Closed forms of the service functions *)

(** The row [create_reservation] inserts. *)
Definition new_reservation (reservation_data : ReservationCreate) (uid : Z) : Reservation :=
  mkReservation (rc_car_id reservation_data) uid
                (rc_type_transaction reservation_data)
                (rc_date_debut reservation_data)
                (rc_date_fin reservation_data)
                (rc_prix_final reservation_data)
                "en_attente"
                (rc_notes reservation_data).

(** The cars after a successful creation. *)
Definition cars_after_create (reservation_data : ReservationCreate) (db : Database)
    : gmap Z Car :=
  if String.eqb (rc_type_transaction reservation_data) "vente" then
    alter (set_disponibilite "vendu") (rc_car_id reservation_data) (cars db)
  else if String.eqb (rc_type_transaction reservation_data) "location" then
    alter (set_disponibilite "loue") (rc_car_id reservation_data) (cars db)
  else cars db.

(** Does the conflict query of [create_reservation] run and count a row? *)
Definition conflict_found (reservation_data : ReservationCreate) (db : Database) : bool :=
  match rc_date_fin reservation_data with
  | Some fin =>
      String.eqb (rc_type_transaction reservation_data) "location"
      && (0 <? Z.of_nat (length (List.filter (conflicts_with reservation_data fin)
                                   (map snd (map_to_list (reservations db))))))
  | None => false
  end.

(** The loop of [update_reservation] on one field, as a function on the
    row. *)
Definition apply_field {V} (value : option (option V))
    (set : V -> Reservation -> Reservation) (r : Reservation) : Reservation :=
  match value with
  | Some (Some v) => set v r
  | _ => r
  end.

(** The row after the whole loop. *)
Definition apply_update (update_data : ReservationUpdate) (r : Reservation) : Reservation :=
  apply_field (ru_notes update_data) (fun v => set_notes (Some v))
    (apply_field (ru_statut update_data) set_statut
       (apply_field (ru_prix_final update_data) set_prix_final
          (apply_field (ru_date_fin update_data) (fun v => set_date_fin (Some v))
             (apply_field (ru_date_debut update_data) set_date_debut
                (apply_field (ru_type_transaction update_data) set_type_transaction r))))).

(** Is the price of the update present and not positive? *)
Definition price_rejected (update_data : ReservationUpdate) : bool :=
  match ru_prix_final update_data with
  | Some (Some v) => Qle_bool v 0
  | _ => false
  end.

(** The session in which the reservation object [rid] has become [r]. *)
Definition with_reservation (rid : Z) (r : Reservation) (s : Session) : Session :=
  mkSession (stored s)
            (mkDatabase (cars (view s)) (<[rid := r]> (reservations (view s)))
                        (next_reservation_id (view s))).

(** The refresh of the row and the building of the response both go
    through. *)
Definition reads_go_through (reads : Reads) : Prop :=
  refresh_ok reads = true /\ response_error reads = None.

(** What the steps after the commit make of a request that is otherwise
    through: the refresh is inside the [try], so its failure is answered
    with [failed]; the response is built after it, so its failure is raised
    as it is.  Neither changes what is stored. *)
Definition after_commit {A} (reads : Reads) (failed : Exception)
    (r : Outcome A * Database) : Outcome A * Database :=
  match r with
  | (Return resp, db') =>
      if refresh_ok reads
      then match response_error reads with
           | None => (Return resp, db')
           | Some e => (Raise e, db')
           end
      else (Raise failed, db')
  | (Raise e, db') => (Raise e, db')
  end.

(** * Sample data for the closed instances *)

Definition sample_car (availability : string) : Car :=
  mkCar "Renault" "Clio" "rouge" "essence" (15000 # 1) availability
        None (Some 42000) (Some 2019) None true.

Definition sample_reservation (kind : string) (fin : option Z) (status : string)
    : Reservation :=
  mkReservation 1 7 kind 200 fin (500 # 1) status None.

Definition sample_env : Env := mkEnv 100 true.

(** One rented car with its confirmed rental. *)
Definition rented_db : Database :=
  mkDatabase {[ 1 := sample_car "loue" ]}
             {[ 1 := sample_reservation "location" (Some 300) "confirmee" ]}
             2.

(** One sold car with the pending sale of user 7 that holds it. *)
Definition pending_sale_db : Database :=
  mkDatabase {[ 1 := sample_car "vendu" ]}
             {[ 1 := sample_reservation "vente" None "en_attente" ]}
             2.

(** The same reservation when no car row has its [car_id]. *)
Definition dangling_db : Database :=
  mkDatabase ∅ {[ 1 := sample_reservation "vente" None "en_attente" ]} 2.

(** The example of the specification, with days numbered from the first of
    June: the car (still 'disponible') has a confirmed rental [1, 10). *)
Definition june_db : Database :=
  mkDatabase {[ 1 := sample_car "disponible" ]}
             {[ 1 := mkReservation 1 7 "location" 1 (Some 10) (500 # 1) "confirmee" None ]}
             2.

Definition june_env : Env := mkEnv 0 true.

Definition june_request (start fin : Z) (price : Q) : ReservationCreate :=
  mkReservationCreate 1 "location" start (Some fin) price None.

(** Car 1 with a confirmed rental [1, 10) of user 7 and a pending rental
    [20, 30) of user 8. *)
Definition two_rentals_db : Database :=
  mkDatabase {[ 1 := sample_car "loue" ]}
             (<[1 := mkReservation 1 7 "location" 1 (Some 10) (500 # 1) "confirmee" None]>
                {[ 2 := mkReservation 1 8 "location" 20 (Some 30) (500 # 1) "en_attente" None ]})
             3.

(** Move the rental to [5, 12). *)
Definition move_dates : ReservationUpdate :=
  mkReservationUpdate None (Some (Some 5)) (Some (Some 12)) None None None.

(** A pending sale turned into a rental, with dates. *)
Definition sale_to_rental : ReservationUpdate :=
  mkReservationUpdate (Some (Some "location")) None (Some (Some 300)) None None None.

(** One available car and no reservation. *)
Definition fresh_db : Database :=
  mkDatabase {[ 1 := sample_car "disponible" ]} ∅ 1.

Definition sale_request : ReservationCreate :=
  mkReservationCreate 1 "vente" 200 None (14000 # 1) None.

(** A sale that is created, confirmed and completed. *)
Definition completed_sale : list (Env * Operation) :=
  [ (sample_env, OpCreate sale_request 7);
    (sample_env, OpTransitionStatus 1 "confirmee" "vendeur");
    (sample_env, OpTransitionStatus 1 "terminee" "vendeur") ].

(** A pending sale that its owner turns into a rental. *)
Definition retyped_sale : list (Env * Operation) :=
  [ (sample_env, OpCreate sale_request 7);
    (sample_env, OpUpdate 1 sale_to_rental 7 "client") ].

(** * Vocabulary of the further properties *)

(** The AUTO_INCREMENT counter lies above every key in use. *)
Definition counter_fresh (db : Database) : Prop :=
  forall id r, reservations db !! id = Some r -> id < next_reservation_id db.

(** Every reservation of [db] is still there in [db'], for the same car and
    the same user, and the counter has not gone back. *)
Definition rows_kept (db db' : Database) : Prop :=
  (forall id r, reservations db !! id = Some r ->
     exists r', reservations db' !! id = Some r'
                /\ car_id r' = car_id r /\ user_id r' = user_id r)
  /\ next_reservation_id db <= next_reservation_id db'.

(** [db'] has the cars of [db], up to their availability. *)
Definition cars_kept (db db' : Database) : Prop :=
  forall cid,
    match cars db !! cid, cars db' !! cid with
    | Some c, Some c' => c' = set_disponibilite (disponibilite c') c
    | None, None => True
    | _, _ => False
    end.

(** * Sample data of the further properties *)

(** A cancelled sale and its car, available again. *)
Definition cancelled_sale_db : Database :=
  mkDatabase {[ 1 := sample_car "disponible" ]}
             {[ 1 := sample_reservation "vente" None "annulee" ]}
             2.

Definition seller : User :=
  mkUser 99 "vendeur@garage.fr" "hash" "Martin" "Paul" "0612345678" "vendeur" true.

Definition client7 : User :=
  mkUser 7 "client@mail.fr" "hash" "Durand" "Anne" "0698765432" "client" true.

Definition client8 : User :=
  mkUser 8 "autre@mail.fr" "hash" "Petit" "Luc" "0611223344" "client" true.

(** A day on the two rentals: the pending one is cancelled by its client,
    the confirmed one is completed by a seller, who then tries to take it
    back; the car being free again, a third client rents it and moves the
    dates. *)
Definition busy_day : list (Env * Operation) :=
  [ (june_env, OpCancel 2 8 "client");
    (june_env, OpTransitionStatus 1 "terminee" "vendeur");
    (june_env, OpTransitionStatus 1 "confirmee" "vendeur");
    (june_env, OpCreate (june_request 40 50 (700 # 1)) 9);
    (june_env, OpUpdate 3 move_dates 9 "client") ].

(** The first client, once the account is deactivated. *)
Definition inactive_client7 : User :=
  mkUser 7 "client@mail.fr" "hash" "Durand" "Anne" "0698765432" "client" false.

(** The rows [paginate_query] gives for a page; nothing when it raises. *)
Definition page_items {A} (query : list A) (size max_size : Z) (page : Z) : list A :=
  match paginate_query query page size max_size with
  | Some p => pg_items p
  | None => []
  end.

(** The numbers of the first [n] pages. *)
Definition page_numbers (n : Z) : list Z :=
  map Z.of_nat (seq 1 (Z.to_nat n)).

(** The rows a call of [get_reservations] is about. *)
Definition visible (user_role : string) (user_id' : option Z)
    (status_filter type_filter : option string) (r : Reservation) : bool :=
  match user_id' with
  | Some uid => if String.eqb user_role "client" && negb (uid =? 0)
                then user_id r =? uid else true
  | None => true
  end
  && match status_filter with
     | Some s => if negb (String.eqb s "") then String.eqb (statut r) s else true
     | None => true
     end
  && match type_filter with
     | Some t => if negb (String.eqb t "") then String.eqb (type_transaction r) t else true
     | None => true
     end.

(** Ascending start dates. *)
Definition by_date_debut (a b : Z * Reservation) : Prop :=
  date_debut (snd a) <= date_debut (snd b).

(** * Properties *)

(** ** Strings and unfolding *)

Lemma str_in_spec (x : string) (l : list string) :
  str_in x l = true <-> In x l.
Proof.
  unfold str_in. rewrite existsb_exists. split.
  - intros (y & Hy & Heq). apply String.eqb_eq in Heq. now subst.
  - intros Hin. exists x. split; [assumption | apply String.eqb_refl].
Qed.

Ltac unfold_monad :=
  unfold from_orm, assign_disponibilite, setattr_reservation, setattr_car,
    add_reservation, count_reservations,
    query_reservation, query_active_car, query_car, try_except, commit,
    rollback, get_view, put_view, bind, ret, raise in *.

(** ** The status transition table *)

Lemma valid_transitions_lookup (current : string) :
  default [] (valid_transitions !! current) =
    if String.eqb current "en_attente" then ["confirmee"; "annulee"]
    else if String.eqb current "confirmee" then ["terminee"; "annulee"]
    else [].
Proof.
  unfold valid_transitions.
  destruct (String.eqb_spec current "en_attente") as [-> | H1]; [reflexivity |].
  rewrite lookup_insert_ne by congruence.
  destruct (String.eqb_spec current "confirmee") as [-> | H2]; [reflexivity |].
  rewrite lookup_insert_ne by congruence.
  destruct (String.eqb_spec current "annulee") as [-> | H3]; [reflexivity |].
  rewrite lookup_insert_ne by congruence.
  destruct (String.eqb_spec current "terminee") as [-> | H4]; [reflexivity |].
  rewrite lookup_insert_ne by congruence.
  reflexivity.
Qed.

Lemma valid_transitions_spec (current new_status : string) :
  str_in new_status (default [] (valid_transitions !! current)) = true
  <-> permitted current new_status.
Proof.
  rewrite valid_transitions_lookup, str_in_spec. unfold permitted.
  destruct (String.eqb_spec current "en_attente") as [-> | H1].
  - simpl. split.
    + intros [<- | [<- | []]]; left; split; auto.
    + intros [[_ [-> | ->]] | [Hc _]]; auto; discriminate.
  - destruct (String.eqb_spec current "confirmee") as [-> | H2].
    + simpl. split.
      * intros [<- | [<- | []]]; right; split; auto.
      * intros [[Hc _] | [_ [-> | ->]]]; auto; discriminate.
    + simpl. split; [intros [] |]. intros [[Hc _] | [Hc _]]; contradiction.
Qed.

Lemma permitted_dec (current new_status : string) :
  {permitted current new_status} + {~ permitted current new_status}.
Proof.
  destruct (str_in new_status (default [] (valid_transitions !! current))) eqn:E.
  - left. now apply valid_transitions_spec.
  - right. intros H. apply valid_transitions_spec in H. congruence.
Qed.

(** What a status update by a seller does, case by case. *)
Lemma update_reservation_status_run env db rid r new_status :
  reservations db !! rid = Some r ->
  run_request (update_reservation_status env rid new_status "vendeur") db =
    if negb (str_in new_status (default [] (valid_transitions !! statut r)))
    then (Raise (invalid_transition (statut r) new_status), db)
    else if String.eqb new_status "annulee"
            || (String.eqb new_status "terminee"
                && String.eqb (type_transaction r) "location")
    then match cars db !! car_id r with
         | None => (Raise AttributeError, db)
         | Some c =>
             if commit_ok env
             then (Return (rid, set_statut new_status r),
                   mkDatabase (alter (set_disponibilite "disponible") (car_id r) (cars db))
                              (alter (set_statut new_status) rid (reservations db))
                              (next_reservation_id db))
             else (Raise status_failed, db)
         end
    else if commit_ok env
         then (Return (rid, set_statut new_status r),
               mkDatabase (cars db)
                          (alter (set_statut new_status) rid (reservations db))
                          (next_reservation_id db))
         else (Raise status_failed, db).
Proof.
  intros Hr. unfold run_request, update_reservation_status. simpl.
  unfold_monad. simpl. rewrite Hr.
  destruct (str_in new_status _); simpl; [| reflexivity].
  destruct (String.eqb new_status "annulee"); simpl.
  - destruct (cars db !! car_id r); simpl; [| reflexivity].
    destruct (commit_ok env); simpl; [| reflexivity].
    rewrite lookup_alter_eq, Hr. reflexivity.
  - destruct (String.eqb new_status "terminee" && _); simpl.
    + destruct (cars db !! car_id r); simpl; [| reflexivity].
      destruct (commit_ok env); simpl; [| reflexivity].
      rewrite lookup_alter_eq, Hr. reflexivity.
    + destruct (commit_ok env); simpl; [| reflexivity].
      rewrite lookup_alter_eq, Hr. reflexivity.
Qed.

Lemma update_reservation_status_forbidden env db rid new_status user_role :
  user_role <> "vendeur" ->
  run_request (update_reservation_status env rid new_status user_role) db =
    (Raise status_forbidden, db).
Proof.
  intros Hrole. apply String.eqb_neq in Hrole.
  unfold run_request, update_reservation_status. rewrite Hrole. reflexivity.
Qed.

Lemma update_reservation_status_missing env db rid new_status :
  reservations db !! rid = None ->
  run_request (update_reservation_status env rid new_status "vendeur") db =
    (Raise reservation_not_found, db).
Proof.
  intros Hr. unfold run_request, update_reservation_status. simpl.
  unfold_monad. simpl. rewrite Hr. reflexivity.
Qed.

Lemma alter_as_insert {A} (f : A -> A) (k : Z) (m : gmap Z A) (a : A) :
  m !! k = Some a -> alter f k m = <[k := f a]> m.
Proof.
  intros Hk. apply map_eq. intros j. destruct (decide (k = j)) as [<- | Hne].
  - rewrite lookup_alter_eq, lookup_insert_eq, Hk. reflexivity.
  - rewrite lookup_alter_ne, lookup_insert_ne by assumption. reflexivity.
Qed.

(** C3: a seller's status update of an existing reservation goes through
    exactly along the edges en_attente -> confirmee, en_attente -> annulee,
    confirmee -> terminee and confirmee -> annulee (given that the commit
    goes through and the reservation's car row exists); for every other
    pair of current and requested status, in particular for every request
    on a cancelled or completed reservation, it raises the invalid
    transition error and stores nothing. *)
Theorem transition_status_edges env db rid r new_status :
  reservations db !! rid = Some r ->
  let result := run_request (update_reservation_status env rid new_status "vendeur") db in
  (forall resp db', result = (Return resp, db') -> permitted (statut r) new_status)
  /\ (permitted (statut r) new_status ->
      commit_ok env = true -> is_Some (cars db !! car_id r) ->
      exists db', result = (Return (rid, set_statut new_status r), db')
                  /\ reservations db' !! rid = Some (set_statut new_status r))
  /\ (~ permitted (statut r) new_status ->
      result = (Raise (invalid_transition (statut r) new_status), db)
      /\ error_kind (invalid_transition (statut r) new_status) = InvalidTransition)
  /\ (statut r = "annulee" \/ statut r = "terminee" ->
      ~ permitted (statut r) new_status).
Proof.
  intros Hr result. subst result.
  rewrite (update_reservation_status_run env db rid r new_status Hr).
  destruct (str_in new_status (default [] (valid_transitions !! statut r))) eqn:Hin; simpl.
  - assert (Hp : permitted (statut r) new_status) by now apply valid_transitions_spec.
    split; [intros; exact Hp |]. split.
    + intros _ Hc [c Hcar]. rewrite Hc, Hcar.
      destruct (String.eqb new_status "annulee" || _); eexists; (split; [reflexivity |]);
        simpl; rewrite lookup_alter_eq, Hr; reflexivity.
    + split; [intros Hn; contradiction |].
      intros [Hs | Hs]; rewrite Hs in Hp; destruct Hp as [[Hp _] | [Hp _]]; discriminate.
  - assert (Hp : ~ permitted (statut r) new_status).
    { intros Hp. apply valid_transitions_spec in Hp. congruence. }
    split; [intros resp db' Heq; discriminate |].
    split; [intros; contradiction |].
    split; [intros _; split; reflexivity | intros _; exact Hp].
Qed.

Lemma transition_status_edges_witness :
  let result :=
    run_request (update_reservation_status sample_env 1 "terminee" "vendeur") rented_db in
  exists db', result =
    (Return (1, sample_reservation "location" (Some 300) "terminee"), db').
Proof.
  destruct (transition_status_edges sample_env rented_db 1
              (sample_reservation "location" (Some 300) "confirmee") "terminee")
    as (_ & Hok & _).
  - reflexivity.
  - destruct Hok as (db' & Hres & _).
    + right. split; [reflexivity | left; reflexivity].
    + reflexivity.
    + exists (sample_car "loue"). reflexivity.
    + exists db'. exact Hres.
Defined.

(** C4: when a status update succeeds, the reservation's car is set to
    'disponible' if the new status is 'annulee', or is 'terminee' on a
    rental; in every other case the cars are left as they were. *)
Theorem transition_status_car_effect env db rid r new_status user_role resp db' :
  reservations db !! rid = Some r ->
  run_request (update_reservation_status env rid new_status user_role) db
    = (Return resp, db') ->
  (new_status = "annulee"
   \/ (new_status = "terminee" /\ type_transaction r = "location") ->
   exists c, cars db !! car_id r = Some c
             /\ cars db' = <[car_id r := set_disponibilite "disponible" c]> (cars db))
  /\ (~ (new_status = "annulee"
         \/ (new_status = "terminee" /\ type_transaction r = "location")) ->
      cars db' = cars db).
Proof.
  intros Hr Hrun.
  destruct (String.eqb_spec user_role "vendeur") as [-> | Hrole];
    [| rewrite update_reservation_status_forbidden in Hrun by assumption; discriminate].
  rewrite (update_reservation_status_run env db rid r new_status Hr) in Hrun.
  destruct (negb _); [discriminate |].
  destruct (String.eqb_spec new_status "annulee") as [-> | Hc]; simpl in Hrun.
  - destruct (cars db !! car_id r) as [c |] eqn:Hcar; [| discriminate].
    destruct (commit_ok env); [| discriminate].
    injection Hrun as _ <-. simpl. split.
    + intros _. exists c. split; [reflexivity | now apply alter_as_insert].
    + intros Hn. exfalso. apply Hn. now left.
  - destruct (String.eqb_spec new_status "terminee") as [-> | Ht]; simpl in Hrun.
    + destruct (String.eqb_spec (type_transaction r) "location") as [Hl | Hl].
      * destruct (cars db !! car_id r) as [c |] eqn:Hcar; [| discriminate].
        destruct (commit_ok env); [| discriminate].
        injection Hrun as _ <-. simpl. split.
        -- intros _. exists c. split; [reflexivity | now apply alter_as_insert].
        -- intros Hn. exfalso. apply Hn. right. now split.
      * destruct (commit_ok env); [| discriminate].
        injection Hrun as _ <-. simpl. split; [| reflexivity].
        intros [Hx | [_ Hx]]; [discriminate | contradiction].
    + destruct (commit_ok env); [| discriminate].
      injection Hrun as _ <-. simpl. split; [| reflexivity].
      intros [Hx | [Hx _]]; contradiction.
Qed.

Lemma transition_status_car_effect_witness :
  exists db',
    run_request (update_reservation_status sample_env 1 "terminee" "vendeur") rented_db
      = (Return (1, sample_reservation "location" (Some 300) "terminee"), db')
    /\ cars db' = <[1 := sample_car "disponible"]> (cars rented_db).
Proof.
  eexists. split; [reflexivity |].
  destruct (transition_status_car_effect sample_env rented_db 1
              (sample_reservation "location" (Some 300) "confirmee")
              "terminee" "vendeur" _ _ eq_refl eq_refl) as [Hset _].
  destruct Hset as (c & Hc & Hcars).
  - right. split; reflexivity.
  - injection Hc as <-. exact Hcars.
Defined.

(** ** Cancellation *)

Lemma permission_check_fails user_role actor r :
  known_role user_role -> ~ privileged user_role -> user_id r <> actor ->
  String.eqb user_role "client" && negb (user_id r =? actor) = true.
Proof.
  intros [-> | ->] Hp Hne; [| now elim Hp].
  simpl. apply Z.eqb_neq in Hne. now rewrite Hne.
Qed.

Lemma permission_check_passes user_role actor r :
  may_access user_role actor r ->
  String.eqb user_role "client" && negb (user_id r =? actor) = false.
Proof.
  intros [-> | <-]; [reflexivity |].
  rewrite Z.eqb_refl. apply andb_false_r.
Qed.

Lemma cancel_reservation_run env db rid r actor user_role :
  reservations db !! rid = Some r ->
  run_request (cancel_reservation env rid actor user_role) db =
    if String.eqb user_role "client" && negb (user_id r =? actor)
    then (Raise cancel_forbidden, db)
    else if str_in (statut r) ["annulee"; "terminee"]
    then (Raise cancel_not_allowed, db)
    else if commit_ok env
    then (Return true,
          mkDatabase (match cars db !! car_id r with
                      | Some _ => alter (set_disponibilite "disponible") (car_id r) (cars db)
                      | None => cars db
                      end)
                     (alter (set_statut "annulee") rid (reservations db))
                     (next_reservation_id db))
    else (Raise cancel_failed, db).
Proof.
  intros Hr. unfold run_request, cancel_reservation. unfold_monad. simpl. rewrite Hr.
  destruct (String.eqb user_role "client" && _); [reflexivity |].
  destruct (str_in (statut r) ["annulee"; "terminee"]); [reflexivity |]. simpl.
  destruct (cars db !! car_id r); simpl; destruct (commit_ok env); reflexivity.
Qed.

Lemma not_terminal_check (status : string) :
  status <> "annulee" -> status <> "terminee" ->
  str_in status ["annulee"; "terminee"] = false.
Proof.
  intros H1 H2. unfold str_in. simpl.
  apply String.eqb_neq in H1, H2. now rewrite H1, H2.
Qed.

(** C6: cancelling an existing reservation is refused with the permission
    error (403) when the actor is not the seller and does not own the
    reservation; for an actor who may access it, it is refused with the
    invalid state error when the reservation is already 'annulee' or
    'terminee'; and otherwise (the commit going through) it succeeds, the
    reservation becomes 'annulee' and its car 'disponible'. *)
Theorem cancel_semantics env db rid r actor user_role :
  reservations db !! rid = Some r ->
  let result := run_request (cancel_reservation env rid actor user_role) db in
  (known_role user_role -> ~ privileged user_role -> user_id r <> actor ->
   result = (Raise cancel_forbidden, db)
   /\ error_kind cancel_forbidden = PermissionError)
  /\ (may_access user_role actor r ->
      statut r = "annulee" \/ statut r = "terminee" ->
      result = (Raise cancel_not_allowed, db)
      /\ error_kind cancel_not_allowed = InvalidState)
  /\ (may_access user_role actor r ->
      statut r <> "annulee" -> statut r <> "terminee" ->
      commit_ok env = true ->
      exists db', result = (Return true, db')
        /\ reservations db' !! rid = Some (set_statut "annulee" r)
        /\ forall c, cars db !! car_id r = Some c ->
             cars db' !! car_id r = Some (set_disponibilite "disponible" c)).
Proof.
  intros Hr result. subst result.
  rewrite (cancel_reservation_run env db rid r actor user_role Hr).
  split; [| split].
  - intros Hk Hp Hne. rewrite permission_check_fails by assumption. now split.
  - intros Ha Hs. rewrite permission_check_passes by assumption.
    assert (Hin : str_in (statut r) ["annulee"; "terminee"] = true).
    { apply str_in_spec. simpl. destruct Hs as [-> | ->]; auto. }
    rewrite Hin. now split.
  - intros Ha H1 H2 Hc. rewrite permission_check_passes by assumption.
    rewrite not_terminal_check by assumption. rewrite Hc.
    eexists. split; [reflexivity |]. simpl. split.
    + rewrite lookup_alter_eq, Hr. reflexivity.
    + intros c Hcar. rewrite Hcar, lookup_alter_eq, Hcar. reflexivity.
Qed.

Lemma cancel_semantics_witness :
  exists db',
    run_request (cancel_reservation sample_env 1 7 "client") pending_sale_db
      = (Return true, db')
    /\ reservations db' !! 1 = Some (sample_reservation "vente" None "annulee")
    /\ cars db' !! 1 = Some (sample_car "disponible").
Proof.
  destruct (cancel_semantics sample_env pending_sale_db 1
              (sample_reservation "vente" None "en_attente") 7 "client" eq_refl)
    as (_ & _ & Hok).
  destruct Hok as (db' & Hres & Hst & Hcar).
  - right. reflexivity.
  - discriminate.
  - discriminate.
  - reflexivity.
  - exists db'. split; [exact Hres |]. split; [exact Hst |].
    apply (Hcar (sample_car "vendu")). reflexivity.
Defined.

(** C10: cancelling a reservation whose [car_id] matches no car row still
    succeeds for an actor who may access it, when the reservation is
    neither 'annulee' nor 'terminee': the reservation becomes 'annulee', no
    car is modified and nothing is raised for the missing car. *)
Theorem cancel_dangling_car env db rid r actor user_role :
  reservations db !! rid = Some r ->
  cars db !! car_id r = None ->
  may_access user_role actor r ->
  statut r <> "annulee" -> statut r <> "terminee" ->
  commit_ok env = true ->
  exists db',
    run_request (cancel_reservation env rid actor user_role) db = (Return true, db')
    /\ reservations db' !! rid = Some (set_statut "annulee" r)
    /\ cars db' = cars db.
Proof.
  intros Hr Hcar Ha H1 H2 Hc.
  rewrite (cancel_reservation_run env db rid r actor user_role Hr).
  rewrite permission_check_passes by assumption.
  rewrite not_terminal_check by assumption. rewrite Hc, Hcar.
  eexists. split; [reflexivity |]. simpl. split; [| reflexivity].
  rewrite lookup_alter_eq, Hr. reflexivity.
Qed.

Lemma cancel_dangling_car_witness :
  exists db',
    run_request (cancel_reservation sample_env 1 7 "client") dangling_db
      = (Return true, db')
    /\ reservations db' !! 1 = Some (sample_reservation "vente" None "annulee")
    /\ cars db' = cars dangling_db.
Proof.
  apply (cancel_dangling_car sample_env dangling_db 1
           (sample_reservation "vente" None "en_attente") 7 "client").
  - reflexivity.
  - reflexivity.
  - right. reflexivity.
  - discriminate.
  - discriminate.
  - reflexivity.
Defined.

(** ** Creation *)

Lemma create_reservation_run env db reservation_data uid :
  run_request (create_reservation env reservation_data uid) db =
    match cars db !! rc_car_id reservation_data with
    | None => (Raise car_not_found, db)
    | Some car =>
      if negb (is_active car) then (Raise car_not_found, db)
      else if negb (String.eqb (disponibilite car) "disponible")
      then (Raise car_not_available, db)
      else if negb (validate_reservation_dates env
                      (rc_date_debut reservation_data)
                      (rc_date_fin reservation_data)
                      (rc_type_transaction reservation_data))
      then (Raise invalid_dates, db)
      else if conflict_found reservation_data db then (Raise rental_conflict, db)
      else if Qle_bool (rc_prix_final reservation_data) 0 then (Raise invalid_price, db)
      else if commit_ok env
      then (Return (next_reservation_id db, new_reservation reservation_data uid),
            mkDatabase (cars_after_create reservation_data db)
                       (<[next_reservation_id db := new_reservation reservation_data uid]>
                          (reservations db))
                       (next_reservation_id db + 1))
      else (Raise create_failed, db)
    end.
Proof.
  destruct reservation_data as [cid ty deb fin px nt].
  unfold run_request, create_reservation, conflict_found, cars_after_create,
    new_reservation.
  unfold_monad. simpl.
  destruct (cars db !! cid) as [car |]; [| reflexivity].
  destruct (is_active car); simpl; [| reflexivity].
  destruct (String.eqb (disponibilite car) "disponible"); simpl; [| reflexivity].
  destruct (validate_reservation_dates env deb fin ty); simpl; [| reflexivity].
  destruct fin as [fin |]; simpl;
    destruct (String.eqb ty "location"); simpl;
    try (destruct (0 <? _); simpl; [reflexivity |]);
    destruct (Qle_bool px 0); simpl; try reflexivity;
    destruct (String.eqb ty "vente"); simpl;
    destruct (commit_ok env); simpl;
    rewrite ?lookup_insert_eq; reflexivity.
Qed.

Lemma conflicts_with_spec reservation_data fin r :
  conflicts_with reservation_data fin r = true <->
  car_id r = rc_car_id reservation_data
  /\ type_transaction r = "location"
  /\ active r
  /\ date_debut r < fin
  /\ exists f, date_fin r = Some f /\ f > rc_date_debut reservation_data.
Proof.
  unfold conflicts_with, active.
  rewrite !andb_true_iff, Z.eqb_eq, String.eqb_eq, str_in_spec, Z.ltb_lt. simpl.
  split.
  - intros ((((Hc & Ht) & Hs) & Hd) & Hf). repeat split; try assumption.
    + destruct Hs as [<- | [<- | []]]; auto.
    + destruct (date_fin r) as [f |]; [| discriminate].
      exists f. split; [reflexivity |]. apply Z.ltb_lt in Hf. lia.
  - intros (Hc & Ht & Hs & Hd & f & Hf & Hlt). repeat split; try assumption.
    + destruct Hs as [-> | ->]; auto.
    + rewrite Hf. apply Z.ltb_lt. lia.
Qed.

Lemma count_positive (p : Reservation -> bool) (m : gmap Z Reservation) :
  (0 <? Z.of_nat (length (List.filter p (map snd (map_to_list m))))) = true
  <-> exists id r, m !! id = Some r /\ p r = true.
Proof.
  rewrite Z.ltb_lt. split.
  - intros Hpos.
    destruct (List.filter p (map snd (map_to_list m))) as [| r rest] eqn:Hf;
      [simpl in Hpos; lia |].
    assert (Hin : In r (List.filter p (map snd (map_to_list m)))) by (rewrite Hf; now left).
    apply filter_In in Hin. destruct Hin as [Hin Hp].
    apply in_map_iff in Hin. destruct Hin as ([id r'] & Heq & Hin). simpl in Heq. subst r'.
    apply list_elem_of_In, elem_of_map_to_list in Hin. eauto.
  - intros (id & r & Hr & Hp).
    assert (Hin : In r (List.filter p (map snd (map_to_list m)))).
    { apply filter_In. split; [| assumption].
      apply in_map_iff. exists (id, r). split; [reflexivity |].
      now apply list_elem_of_In, elem_of_map_to_list. }
    destruct (List.filter p (map snd (map_to_list m))); [destruct Hin | simpl; lia].
Qed.

Lemma conflict_found_spec reservation_data db :
  rc_type_transaction reservation_data = "location" ->
  conflict_found reservation_data db = true <-> overlapping_rental db reservation_data.
Proof.
  intros Hty. unfold conflict_found, overlapping_rental, overlaps. rewrite Hty. simpl.
  destruct (rc_date_fin reservation_data) as [fin |].
  - rewrite count_positive. split.
    + intros (id & r & Hr & Hp). apply conflicts_with_spec in Hp.
      destruct Hp as (Hc & Ht & Ha & Hd & f & Hf & Hlt).
      exists id, r. repeat split; try assumption. exists f, fin. auto.
    + intros (id & r & Hr & Hc & Ht & Ha & f & fin' & Hf & Hfin & Hd & Hlt).
      injection Hfin as <-. exists id, r. split; [assumption |].
      apply conflicts_with_spec. repeat split; try assumption. eauto.
  - split; [discriminate |].
    intros (id & r & _ & _ & _ & _ & f & fin' & _ & Hfin & _). discriminate.
Qed.

Lemma price_check_passes (p : Q) : (0 < p)%Q -> Qle_bool p 0 = false.
Proof.
  intros Hp. destruct (Qle_bool p 0) eqn:E; [| reflexivity].
  apply Qle_bool_iff in E. exfalso. apply (Qlt_not_le 0 p); assumption.
Qed.

(** C2: a rental request for an existing, active, available car with valid
    dates fails with the conflict error exactly when a pending or confirmed
    rental of the same car satisfies existing.start < new.end and
    existing.end > new.start; an existing interval that ends where the new
    one starts does not overlap, and without an overlapping rental the
    request is accepted (the price being positive and the commit going
    through). *)
Theorem rental_overlap_conflict env db reservation_data uid car :
  rc_type_transaction reservation_data = "location" ->
  cars db !! rc_car_id reservation_data = Some car ->
  is_active car = true ->
  disponibilite car = "disponible" ->
  validate_reservation_dates env (rc_date_debut reservation_data)
    (rc_date_fin reservation_data) (rc_type_transaction reservation_data) = true ->
  let result := run_request (create_reservation env reservation_data uid) db in
  ((exists e db', result = (Raise e, db') /\ error_kind e = ConflictError)
   <-> overlapping_rental db reservation_data)
  /\ (overlapping_rental db reservation_data -> result = (Raise rental_conflict, db))
  /\ (forall r, date_fin r = Some (rc_date_debut reservation_data) ->
                ~ overlaps r reservation_data)
  /\ (~ overlapping_rental db reservation_data ->
      (0 < rc_prix_final reservation_data)%Q -> commit_ok env = true ->
      exists resp db', result = (Return resp, db')).
Proof.
  intros Hty Hcar Hact Hav Hval result. subst result.
  rewrite create_reservation_run, Hcar, Hact, Hav, Hval. simpl.
  pose proof (conflict_found_spec reservation_data db Hty) as Hspec.
  destruct (conflict_found reservation_data db) eqn:Hcf.
  - assert (Hov : overlapping_rental db reservation_data) by now apply Hspec.
    split; [| split; [| split]].
    + split; [intros _; exact Hov |].
      intros _. exists rental_conflict, db. split; reflexivity.
    + reflexivity.
    + intros r Hend (e & n & He & _ & _ & Hgt). rewrite Hend in He.
      injection He as <-. lia.
    + intros Hn. contradiction.
  - assert (Hov : ~ overlapping_rental db reservation_data).
    { intros Hov. apply Hspec in Hov. discriminate. }
    split; [| split; [| split]].
    + split; [| intros; contradiction].
      intros (e & db' & Heq & Hk). exfalso.
      destruct (Qle_bool _ 0); [| destruct (commit_ok env)];
        inversion Heq; subst; discriminate.
    + intros; contradiction.
    + intros r Hend (e & n & He & _ & _ & Hgt). rewrite Hend in He.
      injection He as <-. lia.
    + intros _ Hp Hc. rewrite price_check_passes, Hc by assumption. eauto.
Qed.

Lemma rental_overlap_conflict_witness :
  (* [5, 12) overlaps [1, 10) and is refused *)
  run_request (create_reservation june_env (june_request 5 12 (400 # 1)) 8) june_db
    = (Raise rental_conflict, june_db)
  (* [10, 15) only touches [1, 10) and is accepted *)
  /\ exists resp db',
       run_request (create_reservation june_env (june_request 10 15 (400 # 1)) 8) june_db
         = (Return resp, db').
Proof.
  split.
  - apply (rental_overlap_conflict june_env june_db (june_request 5 12 (400 # 1)) 8
             (sample_car "disponible")); try reflexivity.
    exists 1, (mkReservation 1 7 "location" 1 (Some 10) (500 # 1) "confirmee" None).
    repeat split; try reflexivity.
    + right. reflexivity.
    + exists 10, 12. repeat split; reflexivity.
  - apply (rental_overlap_conflict june_env june_db (june_request 10 15 (400 # 1)) 8
             (sample_car "disponible")); try reflexivity.
    intros (id & r & Hr & _ & _ & _ & Hov).
    destruct (decide (id = 1)) as [-> | Hne].
    + injection Hr as <-.
      revert Hov. apply (rental_overlap_conflict june_env june_db
                 (june_request 10 15 (400 # 1)) 8 (sample_car "disponible"));
        reflexivity.
    + unfold june_db in Hr. simpl in Hr.
      rewrite lookup_singleton_ne in Hr by congruence. discriminate.
Defined.



(** ** Update *)

Lemma with_reservation_id rid r s :
  reservations (view s) !! rid = Some r -> with_reservation rid r s = s.
Proof.
  intros Hr. destruct s as [st [cs rs n]]. unfold with_reservation. simpl in *.
  now rewrite insert_id.
Qed.

Lemma with_reservation_twice rid r1 r2 s :
  with_reservation rid r2 (with_reservation rid r1 s) = with_reservation rid r2 s.
Proof. unfold with_reservation. simpl. now rewrite insert_insert_eq. Qed.

Lemma with_reservation_lookup rid r s :
  reservations (view (with_reservation rid r s)) !! rid = Some r.
Proof. unfold with_reservation. simpl. apply lookup_insert_eq. Qed.

Lemma setattr_reservation_run rid f r s :
  reservations (view s) !! rid = Some r ->
  setattr_reservation rid f s = (Return tt, with_reservation rid (f r) s).
Proof.
  intros Hr. unfold setattr_reservation, with_reservation. unfold_monad. simpl.
  now rewrite (alter_as_insert f rid _ r Hr).
Qed.

Lemma update_field_run {V} rid (value : option (option V)) set r s :
  update_field rid value set (with_reservation rid r s) =
    (Return tt, with_reservation rid (apply_field value set r) s).
Proof.
  unfold update_field, apply_field. destruct value as [[v |] |]; try reflexivity.
  rewrite (setattr_reservation_run rid (set v) r) by apply with_reservation_lookup.
  now rewrite with_reservation_twice.
Qed.

Lemma update_prix_final_run rid value r s :
  update_prix_final rid value (with_reservation rid r s) =
    match value with
    | Some (Some v) =>
        if Qle_bool v 0 then (Raise invalid_price, with_reservation rid r s)
        else (Return tt, with_reservation rid (set_prix_final v r) s)
    | _ => (Return tt, with_reservation rid r s)
    end.
Proof.
  unfold update_prix_final. destruct value as [[v |] |]; try reflexivity.
  destruct (Qle_bool v 0); [reflexivity |].
  rewrite (setattr_reservation_run rid (set_prix_final v) r) by apply with_reservation_lookup.
  now rewrite with_reservation_twice.
Qed.

Lemma from_orm_run rid r s :
  from_orm rid (with_reservation rid r s) = (Return (rid, r), with_reservation rid r s).
Proof.
  unfold from_orm. unfold_monad. simpl. now rewrite lookup_insert_eq.
Qed.

Lemma update_reservation_run env db rid r update_data actor user_role :
  reservations db !! rid = Some r ->
  run_request (update_reservation env rid update_data actor user_role) db =
    if String.eqb user_role "client" && negb (user_id r =? actor)
    then (Raise update_forbidden, db)
    else if String.eqb user_role "client" && negb (String.eqb (statut r) "en_attente")
    then (Raise update_not_pending, db)
    else if price_rejected update_data then (Raise invalid_price, db)
    else if touches_dates update_data
            && negb (validate_reservation_dates env
                       (date_debut (apply_update update_data r))
                       (date_fin (apply_update update_data r))
                       (type_transaction (apply_update update_data r)))
    then (Raise invalid_dates, db)
    else if commit_ok env
    then (Return (rid, apply_update update_data r),
          mkDatabase (cars db)
                     (<[rid := apply_update update_data r]> (reservations db))
                     (next_reservation_id db))
    else (Raise update_failed, db).
Proof.
  intros Hr. unfold run_request, update_reservation.
  unfold bind at 1. unfold query_reservation at 1. unfold_monad. simpl. rewrite Hr.
  destruct (String.eqb user_role "client" && negb (user_id r =? actor)); [reflexivity |].
  destruct (String.eqb user_role "client" && negb (String.eqb (statut r) "en_attente"));
    [reflexivity |].
  rewrite <- (with_reservation_id rid r (mkSession db db) Hr).
  rewrite !update_field_run, update_prix_final_run.
  unfold price_rejected, apply_update.
  destruct (ru_prix_final update_data) as [[v |] |];
    [destruct (Qle_bool v 0); [reflexivity |] | |];
    rewrite !update_field_run; unfold apply_field at 1 2 3;
    (destruct (touches_dates update_data); simpl;
     [rewrite lookup_insert_eq; simpl;
      destruct (validate_reservation_dates _ _ _ _); simpl; [| reflexivity] |];
     destruct (commit_ok env); simpl; rewrite ?lookup_insert_eq; reflexivity).
Qed.

Lemma update_reservation_missing env db rid update_data actor user_role :
  reservations db !! rid = None ->
  run_request (update_reservation env rid update_data actor user_role) db =
    (Raise reservation_not_found, db).
Proof.
  intros Hr. unfold run_request, update_reservation. unfold_monad. simpl.
  rewrite Hr. reflexivity.
Qed.

Lemma touches_dates_spec update_data :
  touches_dates update_data = true <-> touched update_data.
Proof.
  unfold touches_dates, touched.
  rewrite !orb_true_iff, !bool_decide_eq_true. tauto.
Qed.

Lemma pending_check_passes user_role r :
  privileged user_role \/ statut r = "en_attente" ->
  String.eqb user_role "client" && negb (String.eqb (statut r) "en_attente") = false.
Proof.
  intros [-> | ->]; [reflexivity |]. simpl. apply andb_false_r.
Qed.

(** C8: for a client, an update is refused with the permission error on a
    reservation of somebody else and refused as well on an own reservation
    that is not 'en_attente', so that it succeeds only on an own pending
    reservation; an update that mentions 'date_debut', 'date_fin' or
    'type_transaction' is refused with the invalid dates error unless
    [validate_reservation_dates] accepts the updated row; and these checks,
    the price check and the commit are all there is: the other
    reservations are never looked at. *)
Theorem update_guard_and_validation env db rid r update_data actor user_role :
  reservations db !! rid = Some r ->
  let result := run_request (update_reservation env rid update_data actor user_role) db in
  let updated := apply_update update_data r in
  let valid := validate_reservation_dates env (date_debut updated) (date_fin updated)
                 (type_transaction updated) in
  (known_role user_role -> ~ privileged user_role ->
   (user_id r <> actor ->
    result = (Raise update_forbidden, db)
    /\ error_kind update_forbidden = PermissionError)
   /\ (user_id r = actor -> statut r <> "en_attente" ->
       result = (Raise update_not_pending, db)
       /\ error_kind update_not_pending = InvalidState)
   /\ (forall resp db', result = (Return resp, db') ->
       user_id r = actor /\ statut r = "en_attente"))
  /\ (touched update_data ->
      (forall resp db', result = (Return resp, db') -> valid = true)
      /\ (guard_passes user_role actor r -> price_rejected update_data = false ->
          valid = false ->
          result = (Raise invalid_dates, db)
          /\ error_kind invalid_dates = ValidationError))
  /\ (guard_passes user_role actor r -> price_rejected update_data = false ->
      (touched update_data -> valid = true) -> commit_ok env = true ->
      result = (Return (rid, updated),
                mkDatabase (cars db) (<[rid := updated]> (reservations db))
                           (next_reservation_id db))).
Proof.
  intros Hr result updated valid. subst result updated valid.
  rewrite (update_reservation_run env db rid r update_data actor user_role Hr).
  split; [| split].
  - intros Hk Hp. assert (Hrole : user_role = "client") by (destruct Hk; [assumption | contradiction]).
    subst user_role. simpl. split; [| split].
    + intros Hne. apply Z.eqb_neq in Hne. rewrite Hne. now split.
    + intros -> Hst. rewrite Z.eqb_refl. simpl.
      apply String.eqb_neq in Hst. rewrite Hst. now split.
    + intros resp db'. destruct (Z.eqb_spec (user_id r) actor) as [Heq | Hne];
        simpl; [| discriminate].
      destruct (String.eqb_spec (statut r) "en_attente") as [Hst | Hst];
        simpl; [| discriminate].
      intros _. now split.
  - intros Ht. apply touches_dates_spec in Ht. rewrite Ht. split.
    + intros resp db'.
      destruct (_ && negb (user_id r =? actor)); [discriminate |].
      destruct (_ && negb (String.eqb (statut r) "en_attente")); [discriminate |].
      destruct (price_rejected update_data); [discriminate |].
      destruct (validate_reservation_dates _ _ _ _); [reflexivity | discriminate].
    + intros [Ha Hs] Hprice Hval.
      rewrite permission_check_passes, pending_check_passes, Hprice, Hval by assumption.
      now split.
  - intros [Ha Hs] Hprice Hval Hc.
    rewrite permission_check_passes, pending_check_passes, Hprice, Hc by assumption.
    destruct (touches_dates update_data) eqn:Ht; [| reflexivity].
    rewrite Hval by now apply touches_dates_spec. reflexivity.
Qed.

Lemma update_guard_and_validation_witness :
  (* the client's pending rental [20, 30) is moved onto [5, 12), across the
     confirmed rental [1, 10) of the same car *)
  run_request (update_reservation june_env 2 move_dates 8 "client") two_rentals_db
    = (Return (2, mkReservation 1 8 "location" 5 (Some 12) (500 # 1) "en_attente" None),
       mkDatabase (cars two_rentals_db)
         (<[2 := mkReservation 1 8 "location" 5 (Some 12) (500 # 1) "en_attente" None]>
            (reservations two_rentals_db))
         3).
Proof.
  apply (update_guard_and_validation june_env two_rentals_db 2
           (mkReservation 1 8 "location" 20 (Some 30) (500 # 1) "en_attente" None)
           move_dates 8 "client").
  - reflexivity.
  - split; right; reflexivity.
  - reflexivity.
  - intros _. reflexivity.
  - reflexivity.
Defined.

(** C9: a successful update leaves every car row as it was, whatever it
    changes on the reservation. *)
Theorem update_leaves_cars env db rid update_data actor user_role resp db' :
  run_request (update_reservation env rid update_data actor user_role) db
    = (Return resp, db') ->
  cars db' = cars db.
Proof.
  destruct (reservations db !! rid) as [r |] eqn:Hr.
  - rewrite (update_reservation_run env db rid r update_data actor user_role Hr).
    destruct (_ && negb (user_id r =? actor)); [discriminate |].
    destruct (_ && negb (String.eqb (statut r) "en_attente")); [discriminate |].
    destruct (price_rejected update_data); [discriminate |].
    destruct (touches_dates update_data && _); [discriminate |].
    destruct (commit_ok env); [| discriminate].
    intros Heq. injection Heq as _ <-. reflexivity.
  - rewrite update_reservation_missing by assumption. discriminate.
Qed.

Lemma update_leaves_cars_witness :
  exists resp db',
    run_request (update_reservation sample_env 1 sale_to_rental 7 "client") pending_sale_db
      = (Return resp, db')
    /\ type_transaction (snd resp) = "location"
    /\ cars db' = cars pending_sale_db.
Proof.
  eexists. eexists. split; [reflexivity |]. split; [reflexivity |].
  apply (update_leaves_cars sample_env pending_sale_db 1 sale_to_rental 7 "client" _ _ eq_refl).
Defined.

(** ** Atomicity *)

Lemma cancel_reservation_missing env db rid actor user_role :
  reservations db !! rid = None ->
  run_request (cancel_reservation env rid actor user_role) db =
    (Raise reservation_not_found, db).
Proof.
  intros Hr. unfold run_request, cancel_reservation. unfold_monad. simpl.
  rewrite Hr. reflexivity.
Qed.

Lemma create_failure_stores_nothing env db reservation_data uid e db' :
  run_request (create_reservation env reservation_data uid) db = (Raise e, db') ->
  db' = db.
Proof.
  rewrite create_reservation_run.
  destruct (cars db !! rc_car_id reservation_data) as [car |];
    [| now intros [= _ <-]].
  destruct (negb (is_active car)); [now intros [= _ <-] |].
  destruct (negb (String.eqb (disponibilite car) "disponible")); [now intros [= _ <-] |].
  destruct (negb (validate_reservation_dates _ _ _ _)); [now intros [= _ <-] |].
  destruct (conflict_found reservation_data db); [now intros [= _ <-] |].
  destruct (Qle_bool _ 0); [now intros [= _ <-] |].
  destruct (commit_ok env); [discriminate | now intros [= _ <-]].
Qed.

Lemma status_failure_stores_nothing env db rid new_status user_role e db' :
  run_request (update_reservation_status env rid new_status user_role) db = (Raise e, db') ->
  db' = db.
Proof.
  destruct (String.eqb_spec user_role "vendeur") as [-> | Hrole];
    [| rewrite update_reservation_status_forbidden by assumption; now intros [= _ <-]].
  destruct (reservations db !! rid) as [r |] eqn:Hr;
    [| rewrite update_reservation_status_missing by assumption; now intros [= _ <-]].
  rewrite (update_reservation_status_run env db rid r new_status Hr).
  destruct (negb _); [now intros [= _ <-] |].
  destruct (String.eqb new_status "annulee" || _).
  - destruct (cars db !! car_id r); [| now intros [= _ <-]].
    destruct (commit_ok env); [discriminate | now intros [= _ <-]].
  - destruct (commit_ok env); [discriminate | now intros [= _ <-]].
Qed.

Lemma update_failure_stores_nothing env db rid update_data actor user_role e db' :
  run_request (update_reservation env rid update_data actor user_role) db = (Raise e, db') ->
  db' = db.
Proof.
  destruct (reservations db !! rid) as [r |] eqn:Hr;
    [| rewrite update_reservation_missing by assumption; now intros [= _ <-]].
  rewrite (update_reservation_run env db rid r update_data actor user_role Hr).
  destruct (_ && negb (user_id r =? actor)); [now intros [= _ <-] |].
  destruct (_ && negb (String.eqb (statut r) "en_attente")); [now intros [= _ <-] |].
  destruct (price_rejected update_data); [now intros [= _ <-] |].
  destruct (touches_dates update_data && _); [now intros [= _ <-] |].
  destruct (commit_ok env); [discriminate | now intros [= _ <-]].
Qed.

Lemma cancel_failure_stores_nothing env db rid actor user_role e db' :
  run_request (cancel_reservation env rid actor user_role) db = (Raise e, db') ->
  db' = db.
Proof.
  destruct (reservations db !! rid) as [r |] eqn:Hr;
    [| rewrite cancel_reservation_missing by assumption; now intros [= _ <-]].
  rewrite (cancel_reservation_run env db rid r actor user_role Hr).
  destruct (_ && negb (user_id r =? actor)); [now intros [= _ <-] |].
  destruct (str_in (statut r) ["annulee"; "terminee"]); [now intros [= _ <-] |].
  destruct (commit_ok env); [discriminate | now intros [= _ <-]].
Qed.

Lemma create_success_writes env db reservation_data uid resp db' :
  run_request (create_reservation env reservation_data uid) db = (Return resp, db') ->
  fst resp = next_reservation_id db
  /\ reservations db' !! next_reservation_id db
       = Some (new_reservation reservation_data uid)
  /\ cars db' = cars_after_create reservation_data db.
Proof.
  rewrite create_reservation_run.
  destruct (cars db !! rc_car_id reservation_data) as [car |]; [| discriminate].
  destruct (negb (is_active car)); [discriminate |].
  destruct (negb (String.eqb (disponibilite car) "disponible")); [discriminate |].
  destruct (negb _); [discriminate |].
  destruct (conflict_found reservation_data db); [discriminate |].
  destruct (Qle_bool _ 0); [discriminate |].
  destruct (commit_ok env); [| discriminate].
  intros [= <- <-]. simpl. split; [reflexivity |].
  split; [apply lookup_insert_eq | reflexivity].
Qed.

Lemma create_success_committed env db reservation_data uid resp db' :
  run_request (create_reservation env reservation_data uid) db = (Return resp, db') ->
  commit_ok env = true.
Proof.
  rewrite create_reservation_run.
  destruct (cars db !! rc_car_id reservation_data) as [car |]; [| discriminate].
  destruct (negb (is_active car)); [discriminate |].
  destruct (negb (String.eqb (disponibilite car) "disponible")); [discriminate |].
  destruct (negb _); [discriminate |].
  destruct (conflict_found reservation_data db); [discriminate |].
  destruct (Qle_bool _ 0); [discriminate |].
  now destruct (commit_ok env).
Qed.

Lemma status_success_committed env db rid new_status user_role resp db' :
  run_request (update_reservation_status env rid new_status user_role) db
    = (Return resp, db') ->
  commit_ok env = true.
Proof.
  destruct (String.eqb_spec user_role "vendeur") as [-> | Hrole];
    [| rewrite update_reservation_status_forbidden by assumption; discriminate].
  destruct (reservations db !! rid) as [r |] eqn:Hr;
    [| rewrite update_reservation_status_missing by assumption; discriminate].
  rewrite (update_reservation_status_run env db rid r new_status Hr).
  destruct (negb _); [discriminate |].
  destruct (String.eqb new_status "annulee" || _).
  - destruct (cars db !! car_id r); [| discriminate]. now destruct (commit_ok env).
  - now destruct (commit_ok env).
Qed.

Lemma status_success_writes env db rid new_status user_role resp db' :
  run_request (update_reservation_status env rid new_status user_role) db
    = (Return resp, db') ->
  exists r,
    reservations db !! rid = Some r
    /\ reservations db' !! rid = Some (set_statut new_status r)
    /\ cars db'
       = if String.eqb new_status "annulee"
            || (String.eqb new_status "terminee"
                && String.eqb (type_transaction r) "location")
         then alter (set_disponibilite "disponible") (car_id r) (cars db)
         else cars db.
Proof.
  destruct (String.eqb_spec user_role "vendeur") as [-> | Hrole];
    [| rewrite update_reservation_status_forbidden by assumption; discriminate].
  destruct (reservations db !! rid) as [r |] eqn:Hr;
    [| rewrite update_reservation_status_missing by assumption; discriminate].
  rewrite (update_reservation_status_run env db rid r new_status Hr).
  intros Hrun. exists r. split; [reflexivity |]. revert Hrun.
  destruct (negb _); [discriminate |].
  destruct (String.eqb new_status "annulee" || _).
  - destruct (cars db !! car_id r); [| discriminate].
    destruct (commit_ok env); [| discriminate].
    intros [= _ <-]. simpl. now rewrite lookup_alter_eq, Hr.
  - destruct (commit_ok env); [| discriminate].
    intros [= _ <-]. simpl. now rewrite lookup_alter_eq, Hr.
Qed.

Lemma update_success_committed env db rid update_data actor user_role resp db' :
  run_request (update_reservation env rid update_data actor user_role) db
    = (Return resp, db') ->
  commit_ok env = true.
Proof.
  destruct (reservations db !! rid) as [r |] eqn:Hr;
    [| rewrite update_reservation_missing by assumption; discriminate].
  rewrite (update_reservation_run env db rid r update_data actor user_role Hr).
  destruct (_ && negb (user_id r =? actor)); [discriminate |].
  destruct (_ && negb (String.eqb (statut r) "en_attente")); [discriminate |].
  destruct (price_rejected update_data); [discriminate |].
  destruct (touches_dates update_data && _); [discriminate |].
  now destruct (commit_ok env).
Qed.

(** The service functions with the steps that follow the commit, in terms
    of the functions without them. *)
Lemma create_reservation_io_run env reads db reservation_data uid :
  run_request (create_reservation_io env reads reservation_data uid) db =
    after_commit reads create_failed
      (run_request (create_reservation env reservation_data uid) db).
Proof.
  destruct reservation_data as [cid ty deb fin px nt].
  unfold run_request, create_reservation_io, create_reservation, after_commit,
    refresh, from_orm_checked.
  unfold_monad. simpl.
  destruct (cars db !! cid) as [car |]; [| reflexivity].
  destruct (is_active car); simpl; [| reflexivity].
  destruct (String.eqb (disponibilite car) "disponible"); simpl; [| reflexivity].
  destruct (validate_reservation_dates env deb fin ty); simpl; [| reflexivity].
  destruct fin as [fin |]; simpl;
    destruct (String.eqb ty "location"); simpl;
    try (destruct (0 <? _); simpl; [reflexivity |]);
    destruct (Qle_bool px 0); simpl; try reflexivity;
    destruct (String.eqb ty "vente"); simpl;
    destruct (commit_ok env); simpl; try reflexivity;
    destruct (refresh_ok reads); simpl; try reflexivity;
    destruct (response_error reads); simpl;
    rewrite ?lookup_insert_eq; reflexivity.
Qed.

Lemma update_reservation_status_io_run env reads db rid new_status user_role :
  run_request (update_reservation_status_io env reads rid new_status user_role) db =
    after_commit reads status_failed
      (run_request (update_reservation_status env rid new_status user_role) db).
Proof.
  unfold run_request, update_reservation_status_io, update_reservation_status,
    after_commit, refresh, from_orm_checked.
  destruct (negb (String.eqb user_role "vendeur")); [reflexivity |].
  unfold_monad. simpl.
  destruct (reservations db !! rid) as [r |] eqn:Hr; [| reflexivity].
  destruct (str_in new_status _); simpl; [| reflexivity].
  destruct (String.eqb new_status "annulee"); simpl;
    [| destruct (String.eqb new_status "terminee" && _); simpl];
    try (destruct (cars db !! car_id r); simpl; [| reflexivity]);
    destruct (commit_ok env); simpl; try reflexivity;
    destruct (refresh_ok reads); simpl; try reflexivity;
    destruct (response_error reads); simpl;
    rewrite ?lookup_alter_eq, ?Hr; reflexivity.
Qed.

Lemma update_reservation_io_run env reads db rid update_data actor user_role :
  run_request (update_reservation_io env reads rid update_data actor user_role) db =
    after_commit reads update_failed
      (run_request (update_reservation env rid update_data actor user_role) db).
Proof.
  destruct (reservations db !! rid) as [r |] eqn:Hr.
  2: { rewrite update_reservation_missing by assumption.
       unfold run_request, update_reservation_io. unfold_monad. simpl.
       rewrite Hr. reflexivity. }
  rewrite (update_reservation_run env db rid r update_data actor user_role Hr).
  unfold run_request, update_reservation_io, after_commit, refresh, from_orm_checked.
  unfold bind at 1. unfold query_reservation at 1. unfold_monad. simpl. rewrite Hr.
  destruct (String.eqb user_role "client" && negb (user_id r =? actor)); [reflexivity |].
  destruct (String.eqb user_role "client" && negb (String.eqb (statut r) "en_attente"));
    [reflexivity |].
  rewrite <- (with_reservation_id rid r (mkSession db db) Hr).
  rewrite !update_field_run, update_prix_final_run.
  unfold price_rejected, apply_update.
  destruct (ru_prix_final update_data) as [[v |] |];
    [destruct (Qle_bool v 0); [reflexivity |] | |];
    rewrite !update_field_run; unfold apply_field at 1 2 3;
    (destruct (touches_dates update_data); simpl;
     [rewrite lookup_insert_eq; simpl;
      destruct (validate_reservation_dates _ _ _ _); simpl; [| reflexivity] |];
     destruct (commit_ok env); simpl; try reflexivity;
     destruct (refresh_ok reads); simpl; try reflexivity;
     destruct (response_error reads); simpl;
     rewrite ?lookup_insert_eq; reflexivity).
Qed.

(** What [after_commit] leaves of a request: its answer and its stored
    database when it fails before the commit, its stored database in any
    case. *)
Lemma after_commit_stored {A} reads failed (o : Outcome A) db :
  snd (after_commit reads failed (o, db)) = db.
Proof.
  unfold after_commit. destruct o; [| reflexivity].
  destruct (refresh_ok reads); [| reflexivity].
  now destruct (response_error reads).
Qed.

Lemma after_commit_return {A} reads failed (r : Outcome A * Database) resp db' :
  after_commit reads failed r = (Return resp, db') ->
  r = (Return resp, db') /\ reads_go_through reads.
Proof.
  unfold after_commit, reads_go_through. destruct r as [[a | e] d]; [| discriminate].
  destruct (refresh_ok reads); [| discriminate].
  destruct (response_error reads); [discriminate |].
  intros [= <- <-]. auto.
Qed.

Lemma after_commit_raise {A} reads failed (r : Outcome A * Database) e db' :
  after_commit reads failed r = (Raise e, db') ->
  r = (Raise e, db')
  \/ (~ reads_go_through reads /\ exists resp, r = (Return resp, db')).
Proof.
  unfold after_commit, reads_go_through. destruct r as [[a | e0] d].
  - destruct (refresh_ok reads).
    + destruct (response_error reads); [| discriminate].
      intros [= _ <-]. right. split; [intros [_ H]; discriminate | now exists a].
    + intros [= _ <-]. right. split; [intros [H _]; discriminate | now exists a].
  - intros [= <- <-]. now left.
Qed.

(** A creation whose commit went through and whose refresh then fails:
    the client is answered with the persistence error, and the new row
    and the new availability of the car are stored. *)
Lemma failure_after_commit_keeps_writes :
  exists db',
    run_request (create_reservation_io sample_env (mkReads false None) sale_request 7)
                fresh_db
      = (Raise create_failed, db')
    /\ error_kind create_failed = PersistenceError
    /\ db' <> fresh_db
    /\ reservations db' !! 1 = Some (new_reservation sale_request 7)
    /\ cars db' !! 1 = Some (sample_car "vendu").
Proof.
  eexists. split; [vm_compute; reflexivity |].
  split; [reflexivity |]. split; [| split; vm_compute; reflexivity].
  intros H. apply (f_equal next_reservation_id) in H. vm_compute in H. discriminate.
Qed.

(** C5: a creation or a status update that would go through fails with the
    persistence error (500) when its commit fails, and the stored database
    is then the one from before the request.  A failure of any of the four
    operations leaves the stored database as it was, unless it comes from
    the steps that follow a commit that went through (the refresh of the
    row, the building of the response): then the stored database is the
    one of the successful operation.  Whatever the answer is, a creation
    stores the new row together with the new availability of the car, or
    nothing, and a status update stores the new status together with what
    it does to the car, or nothing. *)
Theorem commit_failure_rolls_back time db :
  (forall reads reservation_data uid resp db',
      run_request (create_reservation (mkEnv time true) reservation_data uid) db
        = (Return resp, db') ->
      run_request (create_reservation_io (mkEnv time false) reads reservation_data uid) db
        = (Raise create_failed, db)
      /\ error_kind create_failed = PersistenceError)
  /\ (forall reads rid new_status user_role resp db',
      run_request (update_reservation_status (mkEnv time true) rid new_status user_role) db
        = (Return resp, db') ->
      run_request
        (update_reservation_status_io (mkEnv time false) reads rid new_status user_role) db
        = (Raise status_failed, db)
      /\ error_kind status_failed = PersistenceError)
  /\ (forall env reads e db',
      (forall reservation_data uid,
          run_request (create_reservation_io env reads reservation_data uid) db
            = (Raise e, db') ->
          db' = db
          \/ (commit_ok env = true /\ ~ reads_go_through reads
              /\ exists resp,
                   run_request (create_reservation env reservation_data uid) db
                     = (Return resp, db')))
      /\ (forall rid new_status user_role,
          run_request (update_reservation_status_io env reads rid new_status user_role) db
            = (Raise e, db') ->
          db' = db
          \/ (commit_ok env = true /\ ~ reads_go_through reads
              /\ exists resp,
                   run_request (update_reservation_status env rid new_status user_role) db
                     = (Return resp, db')))
      /\ (forall rid update_data actor user_role,
          run_request (update_reservation_io env reads rid update_data actor user_role) db
            = (Raise e, db') ->
          db' = db
          \/ (commit_ok env = true /\ ~ reads_go_through reads
              /\ exists resp,
                   run_request (update_reservation env rid update_data actor user_role) db
                     = (Return resp, db')))
      /\ (forall rid actor user_role,
          run_request (cancel_reservation env rid actor user_role) db = (Raise e, db') ->
          db' = db))
  /\ (forall env reads reservation_data uid o db',
      run_request (create_reservation_io env reads reservation_data uid) db = (o, db') ->
      db' = db
      \/ (reservations db' !! next_reservation_id db
            = Some (new_reservation reservation_data uid)
          /\ cars db' = cars_after_create reservation_data db))
  /\ (forall env reads rid new_status user_role o db',
      run_request (update_reservation_status_io env reads rid new_status user_role) db
        = (o, db') ->
      db' = db
      \/ exists r,
           reservations db !! rid = Some r
           /\ reservations db' !! rid = Some (set_statut new_status r)
           /\ cars db'
              = if String.eqb new_status "annulee"
                   || (String.eqb new_status "terminee"
                       && String.eqb (type_transaction r) "location")
                then alter (set_disponibilite "disponible") (car_id r) (cars db)
                else cars db)
  /\ (forall env reads reservation_data uid resp db',
      run_request (create_reservation_io env reads reservation_data uid) db
        = (Return resp, db') ->
      reservations db' !! fst resp = Some (new_reservation reservation_data uid)
      /\ cars db' = cars_after_create reservation_data db).
Proof.
  split; [| split; [| split; [| split; [| split]]]].
  - intros reads data uid resp db'.
    rewrite create_reservation_io_run, !create_reservation_run.
    unfold validate_reservation_dates. simpl.
    destruct (cars db !! rc_car_id data) as [car |]; [| discriminate].
    destruct (negb (is_active car)); [discriminate |].
    destruct (negb (String.eqb (disponibilite car) "disponible")); [discriminate |].
    destruct (negb _); [discriminate |].
    destruct (conflict_found data db); [discriminate |].
    destruct (Qle_bool _ 0); [discriminate |]. intros _. now split.
  - intros reads rid new_status user_role resp db'.
    rewrite update_reservation_status_io_run.
    destruct (String.eqb_spec user_role "vendeur") as [-> | Hrole];
      [| rewrite update_reservation_status_forbidden by assumption; discriminate].
    destruct (reservations db !! rid) as [r |] eqn:Hr;
      [| rewrite update_reservation_status_missing by assumption; discriminate].
    rewrite !(update_reservation_status_run _ db rid r new_status Hr). simpl.
    destruct (negb _); [discriminate |].
    destruct (String.eqb new_status "annulee" || _).
    + destruct (cars db !! car_id r); [| discriminate]. intros _. now split.
    + intros _. now split.
  - intros env reads e db'. split; [| split; [| split]].
    + intros data uid. rewrite create_reservation_io_run. intros H.
      apply after_commit_raise in H as [H | (Hreads & resp & H)].
      * left. eapply create_failure_stores_nothing; eassumption.
      * right. split; [| split; [assumption | now exists resp]].
        eapply create_success_committed; eassumption.
    + intros rid new_status user_role. rewrite update_reservation_status_io_run.
      intros H. apply after_commit_raise in H as [H | (Hreads & resp & H)].
      * left. eapply status_failure_stores_nothing; eassumption.
      * right. split; [| split; [assumption | now exists resp]].
        eapply status_success_committed; eassumption.
    + intros rid update_data actor user_role. rewrite update_reservation_io_run.
      intros H. apply after_commit_raise in H as [H | (Hreads & resp & H)].
      * left. eapply update_failure_stores_nothing; eassumption.
      * right. split; [| split; [assumption | now exists resp]].
        eapply update_success_committed; eassumption.
    + intros. eapply cancel_failure_stores_nothing; eassumption.
  - intros env reads data uid o db'. rewrite create_reservation_io_run.
    destruct (run_request (create_reservation env data uid) db) as [[resp | e] d] eqn:Hrun.
    + intros H. apply (f_equal snd) in H. rewrite after_commit_stored in H.
      simpl in H. subst d. right.
      apply create_success_writes in Hrun as (_ & Hrow & Hcars). now split.
    + intros [= _ <-]. left. eapply create_failure_stores_nothing; eassumption.
  - intros env reads rid new_status user_role o db'.
    rewrite update_reservation_status_io_run.
    destruct (run_request (update_reservation_status env rid new_status user_role) db)
      as [[resp | e] d] eqn:Hrun.
    + intros H. apply (f_equal snd) in H. rewrite after_commit_stored in H.
      simpl in H. subst d. right. eapply status_success_writes; eassumption.
    + intros [= _ <-]. left. eapply status_failure_stores_nothing; eassumption.
  - intros env reads data uid resp db'. rewrite create_reservation_io_run.
    intros H. apply after_commit_return in H as [H _].
    apply create_success_writes in H as (-> & Hrow & Hcars). now split.
Qed.

Lemma commit_failure_rolls_back_witness :
  run_request (create_reservation_io (mkEnv 100 false) (mkReads true None) sale_request 7)
              fresh_db
    = (Raise create_failed, fresh_db)
  /\ error_kind create_failed = PersistenceError.
Proof.
  destruct (commit_failure_rolls_back 100 fresh_db) as (Hcreate & _).
  eapply (Hcreate (mkReads true None) sale_request 7). reflexivity.
Defined.

(** ** Availability and the reservations of a car *)

Lemma marks_occupying r d : marks r d -> occupying r.
Proof. intros [(_ & _ & Ha) | (_ & _ & Ho)]; [now left | assumption]. Qed.

Lemma coordinated_settled db : coordinated db -> availability_settled db.
Proof.
  intros Hco cid car Hcar. split; [eapply availability_known; eassumption |]. split.
  - split.
    + intros Hd.
      destruct (holder_exists db Hco cid car Hcar) as (id & r & Hr & Hc & Ho);
        [rewrite Hd; discriminate |].
      pose proof (holder_marks db Hco cid car id r Hcar Hr Hc Ho) as Hm.
      rewrite Hd in Hm. destruct Hm as [(_ & Ht & Ha) | (Hx & _)]; [| discriminate].
      exists id, r. auto.
    + intros (id & r & Hr & Hc & Ha & Ht).
      pose proof (holder_marks db Hco cid car id r Hcar Hr Hc (or_introl Ha)) as Hm.
      destruct Hm as [(Hd & _) | (_ & Ht' & _)]; [assumption |].
      rewrite Ht in Ht'. discriminate.
  - split.
    + intros Hd.
      destruct (holder_exists db Hco cid car Hcar) as (id & r & Hr & Hc & Ho);
        [rewrite Hd; discriminate |].
      pose proof (holder_marks db Hco cid car id r Hcar Hr Hc Ho) as Hm.
      rewrite Hd in Hm. destruct Hm as [(Hx & _) | (_ & Ht & _)]; [discriminate |].
      exists id, r. auto.
    + intros (id & r & Hr & Hc & Ho & Ht).
      pose proof (holder_marks db Hco cid car id r Hcar Hr Hc Ho) as Hm.
      destruct Hm as [(_ & Ht' & _) | (Hd & _)]; [| assumption].
      rewrite Ht in Ht'. discriminate.
Qed.

(** *** The three ways the operations change the stored rows *)

(** A reservation is replaced by one that holds the car in the same way. *)
Lemma coordinated_replace db rid r r' :
  coordinated db ->
  reservations db !! rid = Some r ->
  car_id r' = car_id r ->
  (occupying r' <-> occupying r) ->
  (forall d, marks r d -> marks r' d) ->
  known_status r' -> known_type r' ->
  coordinated (mkDatabase (cars db) (<[rid := r']> (reservations db))
                          (next_reservation_id db)).
Proof.
  intros Hco Hr Hcid Hocc Hmarks Hks Hkt.
  assert (Hold : forall id r1, <[rid := r']> (reservations db) !! id = Some r1 ->
            exists r0, reservations db !! id = Some r0 /\ car_id r0 = car_id r1
                       /\ (occupying r1 -> occupying r0)
                       /\ (forall d, marks r0 d -> marks r1 d)).
  { intros id r1 Hl. destruct (decide (rid = id)) as [<- | Hne].
    - rewrite lookup_insert_eq in Hl. injection Hl as <-.
      exists r. repeat split; auto. now apply Hocc.
    - rewrite lookup_insert_ne in Hl by assumption. exists r1. auto. }
  constructor; simpl.
  - intros id r1 Hl. destruct (Hold id r1 Hl) as (r0 & Hr0 & _).
    eapply ids_below_next; eassumption.
  - intros id r1 Hl. destruct (decide (rid = id)) as [<- | Hne].
    + rewrite lookup_insert_eq in Hl. injection Hl as <-. now split.
    + rewrite lookup_insert_ne in Hl by assumption. eapply rows_known; eassumption.
  - apply (availability_known db Hco).
  - intros cid car id r1 Hcar Hl Hc Ho.
    destruct (Hold id r1 Hl) as (r0 & Hr0 & Hc0 & Ho0 & Hm0).
    apply Hm0. eapply holder_marks; eauto. congruence.
  - intros cid car Hcar Hd.
    destruct (holder_exists db Hco cid car Hcar Hd) as (id & r0 & Hr0 & Hc0 & Ho0).
    destruct (decide (rid = id)) as [<- | Hne].
    + exists rid, r'. rewrite lookup_insert_eq.
      assert (r0 = r) by congruence. subst r0.
      repeat split; [congruence | now apply Hocc].
    + exists id, r0. rewrite lookup_insert_ne by assumption. auto.
  - intros cid id1 r1 id2 r2 Hcar Hl1 Hl2 Hc1 Hc2 Ho1 Ho2.
    destruct (Hold id1 r1 Hl1) as (a1 & Ha1 & Hca1 & Hoa1 & _).
    destruct (Hold id2 r2 Hl2) as (a2 & Ha2 & Hca2 & Hoa2 & _).
    eapply (holder_unique db Hco cid id1 a1 id2 a2); eauto; congruence.
Qed.

(** The reservation that holds a car lets go of it and the car becomes
    'disponible'. *)
Lemma coordinated_release db rid r r' :
  coordinated db ->
  reservations db !! rid = Some r ->
  occupying r ->
  car_id r' = car_id r ->
  ~ occupying r' ->
  known_status r' -> known_type r' ->
  coordinated (mkDatabase (alter (set_disponibilite "disponible") (car_id r) (cars db))
                          (<[rid := r']> (reservations db))
                          (next_reservation_id db)).
Proof.
  intros Hco Hr Ho Hcid Hno Hks Hkt. constructor; simpl.
  - intros id r1 Hl. destruct (decide (rid = id)) as [<- | Hne].
    + eapply ids_below_next; eassumption.
    + rewrite lookup_insert_ne in Hl by assumption. eapply ids_below_next; eassumption.
  - intros id r1 Hl. destruct (decide (rid = id)) as [<- | Hne].
    + rewrite lookup_insert_eq in Hl. injection Hl as <-. now split.
    + rewrite lookup_insert_ne in Hl by assumption. eapply rows_known; eassumption.
  - intros cid car Hcar. destruct (decide (car_id r = cid)) as [<- | Hne].
    + rewrite lookup_alter_eq in Hcar.
      destruct (cars db !! car_id r); [| discriminate].
      injection Hcar as <-. now left.
    + rewrite lookup_alter_ne in Hcar by assumption.
      eapply availability_known; eassumption.
  - intros cid car id r1 Hcar Hl Hc Ho1.
    destruct (decide (rid = id)) as [<- | Hne].
    { rewrite lookup_insert_eq in Hl. injection Hl as <-. contradiction. }
    rewrite lookup_insert_ne in Hl by assumption.
    destruct (decide (car_id r = cid)) as [Heq | Hnc].
    + exfalso. apply Hne.
      apply (holder_unique db Hco cid rid r id r1); auto.
      rewrite <- Heq. rewrite <- Heq, lookup_alter_eq in Hcar.
      destruct (cars db !! car_id r); [eauto | discriminate].
    + rewrite lookup_alter_ne in Hcar by assumption. eapply holder_marks; eauto.
  - intros cid car Hcar Hd. destruct (decide (car_id r = cid)) as [<- | Hnc].
    + rewrite lookup_alter_eq in Hcar.
      destruct (cars db !! car_id r); [| discriminate].
      injection Hcar as <-. now elim Hd.
    + rewrite lookup_alter_ne in Hcar by assumption.
      destruct (holder_exists db Hco cid car Hcar Hd) as (id & r0 & Hr0 & Hc0 & Ho0).
      exists id, r0. rewrite lookup_insert_ne; [auto |].
      intros <-. apply Hnc. congruence.
  - intros cid id1 r1 id2 r2 Hcar Hl1 Hl2 Hc1 Hc2 Ho1 Ho2.
    destruct (decide (rid = id1)) as [<- | Hn1].
    { rewrite lookup_insert_eq in Hl1. injection Hl1 as <-. contradiction. }
    destruct (decide (rid = id2)) as [<- | Hn2].
    { rewrite lookup_insert_eq in Hl2. injection Hl2 as <-. contradiction. }
    rewrite lookup_insert_ne in Hl1, Hl2 by assumption.
    apply (holder_unique db Hco cid id1 r1 id2 r2); auto.
    destruct (decide (car_id r = cid)) as [<- | Hnc].
    + rewrite lookup_alter_eq in Hcar. destruct (cars db !! car_id r); [eauto |].
      destruct Hcar as [x Hx]. discriminate.
    + now rewrite lookup_alter_ne in Hcar.
Qed.

(** A new pending reservation takes an available car. *)
Lemma coordinated_take db cid car r d :
  coordinated db ->
  cars db !! cid = Some car ->
  disponibilite car = "disponible" ->
  car_id r = cid ->
  statut r = "en_attente" ->
  (type_transaction r = "vente" /\ d = "vendu")
  \/ (type_transaction r = "location" /\ d = "loue") ->
  coordinated (mkDatabase (alter (set_disponibilite d) cid (cars db))
                          (<[next_reservation_id db := r]> (reservations db))
                          (next_reservation_id db + 1)).
Proof.
  intros Hco Hcar Hav Hcid Hst Hty.
  assert (Hfresh : forall id r0, reservations db !! id = Some r0 ->
                                 next_reservation_id db <> id).
  { intros id r0 Hr0 Heq. pose proof (ids_below_next db Hco id r0 Hr0). lia. }
  assert (Hfree : forall id r0, reservations db !! id = Some r0 ->
                                car_id r0 = cid -> ~ occupying r0).
  { intros id r0 Hr0 Hc0 Ho0.
    pose proof (holder_marks db Hco cid car id r0 Hcar Hr0 Hc0 Ho0) as Hm.
    rewrite Hav in Hm. destruct Hm as [(Hx & _) | (Hx & _)]; discriminate. }
  assert (Hnew : occupying r) by (left; left; exact Hst).
  constructor; simpl.
  - intros id r1 Hl. destruct (decide (next_reservation_id db = id)) as [<- | Hne].
    + lia.
    + rewrite lookup_insert_ne in Hl by assumption.
      pose proof (ids_below_next db Hco id r1 Hl). lia.
  - intros id r1 Hl. destruct (decide (next_reservation_id db = id)) as [<- | Hne].
    + rewrite lookup_insert_eq in Hl. injection Hl as <-. split.
      * left. exact Hst.
      * destruct Hty as [(Ht & _) | (Ht & _)]; [now left | now right].
    + rewrite lookup_insert_ne in Hl by assumption. eapply rows_known; eassumption.
  - intros c car' Hcar'. destruct (decide (cid = c)) as [<- | Hne].
    + rewrite lookup_alter_eq, Hcar in Hcar'. injection Hcar' as <-. simpl.
      destruct Hty as [(_ & ->) | (_ & ->)]; auto.
    + rewrite lookup_alter_ne in Hcar' by assumption.
      eapply availability_known; eassumption.
  - intros c car' id r1 Hcar' Hl Hc Ho.
    destruct (decide (next_reservation_id db = id)) as [<- | Hne].
    + rewrite lookup_insert_eq in Hl. injection Hl as <-.
      rewrite Hcid in Hc. subst c.
      rewrite lookup_alter_eq, Hcar in Hcar'. injection Hcar' as <-. simpl.
      destruct Hty as [(Ht & ->) | (Ht & ->)].
      * right. repeat split; assumption.
      * left. repeat split; [assumption | left; exact Hst].
    + rewrite lookup_insert_ne in Hl by assumption.
      destruct (decide (cid = c)) as [<- | Hnc].
      * exfalso. eapply Hfree; eassumption.
      * rewrite lookup_alter_ne in Hcar' by assumption. eapply holder_marks; eauto.
  - intros c car' Hcar' Hd. destruct (decide (cid = c)) as [<- | Hnc].
    + exists (next_reservation_id db), r. rewrite lookup_insert_eq. auto.
    + rewrite lookup_alter_ne in Hcar' by assumption.
      destruct (holder_exists db Hco c car' Hcar' Hd) as (id & r0 & Hr0 & Hc0 & Ho0).
      exists id, r0. rewrite lookup_insert_ne by (eapply Hfresh; eassumption). auto.
  - intros c id1 r1 id2 r2 Hcar' Hl1 Hl2 Hc1 Hc2 Ho1 Ho2.
    destruct (decide (next_reservation_id db = id1)) as [<- | Hn1];
      destruct (decide (next_reservation_id db = id2)) as [<- | Hn2];
      [reflexivity | | |].
    + rewrite lookup_insert_eq in Hl1. injection Hl1 as <-.
      rewrite lookup_insert_ne in Hl2 by assumption.
      exfalso. apply (Hfree id2 r2 Hl2); [congruence | assumption].
    + rewrite lookup_insert_eq in Hl2. injection Hl2 as <-.
      rewrite lookup_insert_ne in Hl1 by assumption.
      exfalso. apply (Hfree id1 r1 Hl1); [congruence | assumption].
    + rewrite lookup_insert_ne in Hl1, Hl2 by assumption.
      apply (holder_unique db Hco c id1 r1 id2 r2); auto.
      destruct (decide (cid = c)) as [<- | Hnc]; [eauto |].
      now rewrite lookup_alter_ne in Hcar'.
Qed.

(** *** Every operation keeps the state coordinated *)

Lemma alter_absent {A} (f : A -> A) (k : Z) (m : gmap Z A) :
  m !! k = None -> alter f k m = m.
Proof.
  intros Hk. apply map_eq. intros j. destruct (decide (k = j)) as [<- | Hne].
  - rewrite lookup_alter_eq, Hk. reflexivity.
  - now rewrite lookup_alter_ne.
Qed.

Lemma permitted_active r new_status :
  permitted (statut r) new_status -> active r.
Proof. intros [(Hs & _) | (Hs & _)]; [now left | now right]. Qed.

Lemma cancelled_not_occupying r :
  ~ occupying (set_statut "annulee" r).
Proof.
  intros [[Hs | Hs] | (Hs & _)]; simpl in Hs; discriminate.
Qed.

Lemma create_keeps_coordinated env db reservation_data uid :
  coordinated db ->
  rc_type_transaction reservation_data = "vente"
  \/ rc_type_transaction reservation_data = "location" ->
  coordinated (snd (run_request (create_reservation env reservation_data uid) db)).
Proof.
  intros Hco Hty. rewrite create_reservation_run.
  destruct (cars db !! rc_car_id reservation_data) as [car |] eqn:Hcar; [| assumption].
  destruct (negb (is_active car)); [assumption |].
  destruct (String.eqb_spec (disponibilite car) "disponible") as [Hav | Hav];
    simpl; [| assumption].
  destruct (negb (validate_reservation_dates _ _ _ _)); [assumption |].
  destruct (conflict_found reservation_data db); [assumption |].
  destruct (Qle_bool _ 0); [assumption |].
  destruct (commit_ok env); [| assumption]. simpl.
  unfold cars_after_create.
  destruct Hty as [Ht | Ht]; rewrite Ht; simpl;
    apply (coordinated_take db (rc_car_id reservation_data) car); auto.
Qed.

Lemma status_keeps_coordinated env db rid new_status user_role :
  coordinated db ->
  coordinated (snd (run_request (update_reservation_status env rid new_status user_role) db)).
Proof.
  intros Hco.
  destruct (String.eqb_spec user_role "vendeur") as [-> | Hrole];
    [| now rewrite update_reservation_status_forbidden].
  destruct (reservations db !! rid) as [r |] eqn:Hr;
    [| now rewrite update_reservation_status_missing].
  rewrite (update_reservation_status_run env db rid r new_status Hr).
  destruct (str_in new_status (default [] (valid_transitions !! statut r))) eqn:Hin;
    simpl; [| assumption].
  apply valid_transitions_spec in Hin.
  pose proof (permitted_active r new_status Hin) as Hact.
  destruct (rows_known db Hco rid r Hr) as [_ Hkt].
  assert (Hks : known_status (set_statut new_status r)).
  { unfold known_status. simpl.
    destruct Hin as [(_ & [-> | ->]) | (_ & [-> | ->])]; auto. }
  destruct (String.eqb_spec new_status "annulee") as [-> | Hna]; simpl.
  - destruct (cars db !! car_id r) as [c |]; [| assumption].
    destruct (commit_ok env); [| assumption]. simpl.
    rewrite (alter_as_insert _ rid _ r Hr).
    apply coordinated_release; auto; [now left | apply cancelled_not_occupying].
  - destruct (String.eqb_spec new_status "terminee") as [-> | Hnt]; simpl.
    + destruct (String.eqb_spec (type_transaction r) "location") as [Hloc | Hloc].
      * destruct (cars db !! car_id r) as [c |]; [| assumption].
        destruct (commit_ok env); [| assumption]. simpl.
        rewrite (alter_as_insert _ rid _ r Hr).
        apply coordinated_release; auto; [now left |].
        intros [[Hs | Hs] | (_ & Ht)]; simpl in *; try discriminate.
        rewrite Hloc in Ht. discriminate.
      * destruct (commit_ok env); [| assumption]. simpl.
        rewrite (alter_as_insert _ rid _ r Hr).
        assert (Hv : type_transaction r = "vente") by (destruct Hkt; [assumption | contradiction]).
        apply (coordinated_replace db rid r); auto.
        -- split; intros _; [now left | right; now split].
        -- intros d [(_ & Hl & _) | (Hd & _ & _)]; [contradiction |].
           right. repeat split; auto. right. now split.
    + destruct (commit_ok env); [| assumption]. simpl.
      rewrite (alter_as_insert _ rid _ r Hr).
      assert (Hc : new_status = "confirmee").
      { destruct Hin as [(_ & [-> | ->]) | (_ & [-> | ->])]; auto; contradiction. }
      subst new_status.
      assert (Hact' : active (set_statut "confirmee" r)) by now right.
      apply (coordinated_replace db rid r); auto.
      * split; intros _; now left.
      * intros d [(Hd & Hl & _) | (Hd & Hv & _)]; [left | right];
          repeat split; auto. now left.
Qed.

Lemma plain_update_keeps update_data r :
  plain_update update_data ->
  car_id (apply_update update_data r) = car_id r
  /\ type_transaction (apply_update update_data r) = type_transaction r
  /\ statut (apply_update update_data r) = statut r.
Proof.
  intros [Ht Hs]. unfold apply_update.
  destruct (ru_notes update_data) as [[? |] |],
           (ru_prix_final update_data) as [[? |] |],
           (ru_date_fin update_data) as [[? |] |],
           (ru_date_debut update_data) as [[? |] |];
    destruct Ht as [-> | ->], Hs as [-> | ->]; simpl; auto.
Qed.

Lemma update_keeps_coordinated env db rid update_data actor user_role :
  coordinated db ->
  plain_update update_data ->
  coordinated (snd (run_request (update_reservation env rid update_data actor user_role) db)).
Proof.
  intros Hco Hplain.
  destruct (reservations db !! rid) as [r |] eqn:Hr;
    [| now rewrite update_reservation_missing].
  rewrite (update_reservation_run env db rid r update_data actor user_role Hr).
  destruct (_ && negb (user_id r =? actor)); [assumption |].
  destruct (_ && negb (String.eqb (statut r) "en_attente")); [assumption |].
  destruct (price_rejected update_data); [assumption |].
  destruct (touches_dates update_data && _); [assumption |].
  destruct (commit_ok env); [| assumption]. simpl.
  destruct (plain_update_keeps update_data r Hplain) as (Hc & Ht & Hs).
  destruct (rows_known db Hco rid r Hr) as [Hks Hkt].
  assert (Hact : active (apply_update update_data r) <-> active r)
    by (unfold active; now rewrite Hs).
  assert (Hocc : occupying (apply_update update_data r) <-> occupying r)
    by (unfold occupying, active; now rewrite Hs, Ht).
  apply (coordinated_replace db rid r); auto.
  - unfold marks. intros d. rewrite Ht, Hact, Hocc. auto.
  - unfold known_status. now rewrite Hs.
  - unfold known_type. now rewrite Ht.
Qed.

Lemma cancel_keeps_coordinated env db rid actor user_role :
  coordinated db ->
  coordinated (snd (run_request (cancel_reservation env rid actor user_role) db)).
Proof.
  intros Hco.
  destruct (reservations db !! rid) as [r |] eqn:Hr;
    [| now rewrite cancel_reservation_missing].
  rewrite (cancel_reservation_run env db rid r actor user_role Hr).
  destruct (_ && negb (user_id r =? actor)); [assumption |].
  destruct (str_in (statut r) ["annulee"; "terminee"]) eqn:Hin; [assumption |].
  destruct (commit_ok env); [| assumption]. simpl.
  destruct (rows_known db Hco rid r Hr) as [Hks Hkt].
  assert (Hact : active r).
  { destruct Hks as [Hs | [Hs | [Hs | Hs]]]; [now left | now right | |];
      exfalso; rewrite Hs in Hin; discriminate. }
  assert (Hcars : match cars db !! car_id r with
                  | Some _ => alter (set_disponibilite "disponible") (car_id r) (cars db)
                  | None => cars db
                  end = alter (set_disponibilite "disponible") (car_id r) (cars db)).
  { destruct (cars db !! car_id r) eqn:Hcar; [reflexivity |].
    symmetry. now apply alter_absent. }
  rewrite Hcars, (alter_as_insert _ rid _ r Hr).
  apply coordinated_release; auto; [now left | | now right; right; left].
  apply cancelled_not_occupying.
Qed.

Lemma perform_keeps_coordinated env op db :
  coordinated db -> admissible op -> coordinated (perform env op db).
Proof.
  intros Hco Hop. destruct op; simpl in *.
  - now apply create_keeps_coordinated.
  - now apply status_keeps_coordinated.
  - now apply update_keeps_coordinated.
  - now apply cancel_keeps_coordinated.
Qed.

Lemma perform_all_keeps_coordinated ops : forall db,
  coordinated db ->
  Forall (fun step => admissible (snd step)) ops ->
  coordinated (perform_all ops db).
Proof.
  induction ops as [| [env op] rest IH]; intros db Hco Hops; simpl.
  - assumption.
  - inversion Hops as [| ? ? Hop Hrest]; subst. simpl in Hop.
    apply IH; [now apply perform_keeps_coordinated | assumption].
Qed.

(** A database without reservations whose cars are all 'disponible'. *)
Lemma fresh_coordinated (cs : gmap Z Car) (n : Z) :
  (forall cid car, cs !! cid = Some car -> disponibilite car = "disponible") ->
  coordinated (mkDatabase cs ∅ n).
Proof.
  intros Hall. constructor; simpl.
  - intros id r Hr. rewrite lookup_empty in Hr. discriminate.
  - intros id r Hr. rewrite lookup_empty in Hr. discriminate.
  - intros cid car Hcar. left. eapply Hall; eassumption.
  - intros cid car id r _ Hr. rewrite lookup_empty in Hr. discriminate.
  - intros cid car Hcar Hd. elim Hd. eapply Hall; eassumption.
  - intros cid id1 r1 id2 r2 _ Hr. rewrite lookup_empty in Hr. discriminate.
Qed.

(** *** Where the stated invariant breaks *)

Lemma completed_sale_result :
  perform_all completed_sale fresh_db =
    mkDatabase {[ 1 := sample_car "vendu" ]}
               {[ 1 := mkReservation 1 7 "vente" 200 None (14000 # 1) "terminee" None ]}
               2.
Proof. vm_compute. reflexivity. Qed.

Lemma retyped_sale_result :
  perform_all retyped_sale fresh_db =
    mkDatabase {[ 1 := sample_car "vendu" ]}
               {[ 1 := mkReservation 1 7 "location" 200 (Some 300) (14000 # 1)
                                     "en_attente" None ]}
               2.
Proof. vm_compute. reflexivity. Qed.

(** From one available car and no reservation: after a sale has been
    completed the car is 'vendu' without any pending or confirmed sale, and
    after a pending sale has been updated into a rental the car is 'vendu'
    although its only pending reservation is a rental. *)
Lemma availability_consistent_broken :
  availability_consistent fresh_db
  /\ ~ availability_consistent (perform_all completed_sale fresh_db)
  /\ ~ availability_consistent (perform_all retyped_sale fresh_db).
Proof.
  split; [| split].
  - intros cid car Hcar. unfold fresh_db in *. simpl in *.
    apply lookup_singleton_Some in Hcar. destruct Hcar as [<- <-].
    split; [now left |].
    split; (split; [discriminate |]);
      intros (id & r & Hr & _); rewrite lookup_empty in Hr; discriminate.
  - rewrite completed_sale_result. intros Hinv.
    destruct (Hinv 1 (sample_car "vendu")) as (_ & _ & Hsold).
    { simpl. apply lookup_singleton_eq. }
    destruct Hsold as [Hsold _].
    destruct (Hsold eq_refl) as (id & r & Hr & _ & Hact & _).
    simpl in Hr. apply lookup_singleton_Some in Hr. destruct Hr as [_ <-].
    destruct Hact as [Hs | Hs]; discriminate.
  - rewrite retyped_sale_result. intros Hinv.
    destruct (Hinv 1 (sample_car "vendu")) as (_ & Hrented & _).
    { simpl. apply lookup_singleton_eq. }
    destruct Hrented as [_ Hrented].
    assert (Hx : disponibilite (sample_car "vendu") = "loue"); [| discriminate].
    apply Hrented.
    exists 1, (mkReservation 1 7 "location" 200 (Some 300) (14000 # 1) "en_attente" None).
    simpl. split; [apply lookup_singleton_eq |].
    split; [reflexivity |]. split; [now left | reflexivity].
Qed.

(** C1, as the code has it: starting from a coordinated database (for
    instance one without reservations whose cars are all 'disponible'),
    after any sequence of creations with a type of the enumeration, status
    updates, cancellations and updates that leave 'type_transaction' and
    'statut' alone, every car is 'disponible', 'loue' or 'vendu'; it is
    'loue' exactly when it has a pending or confirmed rental, and 'vendu'
    exactly when it has a sale that is pending, confirmed or completed. *)
Theorem availability_kept ops db :
  coordinated db ->
  Forall (fun step => admissible (snd step)) ops ->
  availability_settled (perform_all ops db).
Proof.
  intros Hco Hops. apply coordinated_settled.
  now apply perform_all_keeps_coordinated.
Qed.

Lemma availability_kept_witness :
  availability_settled (perform_all completed_sale fresh_db).
Proof.
  apply availability_kept.
  - apply fresh_coordinated. intros cid car Hcar.
    apply lookup_singleton_Some in Hcar. destruct Hcar as [_ <-]. reflexivity.
  - unfold completed_sale. constructor; [left; reflexivity |].
    constructor; [exact I |]. constructor; [exact I | constructor].
Defined.

(** * Further properties of the service *)

(** ** Creation: refusals, double booking, and undoing by cancellation *)

(** X1: a creation request for a car that does not exist or is soft-deleted
    is refused with 404, and one for an active car that is not 'disponible'
    with 400 'Cette voiture n'est pas disponible', whatever the transaction
    type, the dates and the price; nothing is stored. *)
Theorem create_refused_by_car env db reservation_data uid :
  let result := run_request (create_reservation env reservation_data uid) db in
  (cars db !! rc_car_id reservation_data = None -> result = (Raise car_not_found, db))
  /\ (forall car, cars db !! rc_car_id reservation_data = Some car ->
      is_active car = false -> result = (Raise car_not_found, db))
  /\ (forall car, cars db !! rc_car_id reservation_data = Some car ->
      is_active car = true -> disponibilite car <> "disponible" ->
      result = (Raise car_not_available, db)).
Proof.
  simpl. rewrite create_reservation_run. split; [| split].
  - intros ->. reflexivity.
  - intros car -> ->. reflexivity.
  - intros car -> -> Hd. apply String.eqb_neq in Hd. rewrite Hd. reflexivity.
Qed.

Lemma create_refused_by_car_witness :
  run_request (create_reservation sample_env sale_request 7) pending_sale_db
    = (Raise car_not_available, pending_sale_db).
Proof.
  destruct (create_refused_by_car sample_env pending_sale_db sale_request 7)
    as (_ & _ & Hbusy).
  apply (Hbusy (sample_car "vendu")); [reflexivity | reflexivity | discriminate].
Defined.

Lemma create_success_inv env db reservation_data uid resp db' :
  run_request (create_reservation env reservation_data uid) db = (Return resp, db') ->
  exists car,
    cars db !! rc_car_id reservation_data = Some car
    /\ is_active car = true
    /\ disponibilite car = "disponible"
    /\ resp = (next_reservation_id db, new_reservation reservation_data uid)
    /\ db' = mkDatabase (cars_after_create reservation_data db)
               (<[next_reservation_id db := new_reservation reservation_data uid]>
                  (reservations db))
               (next_reservation_id db + 1).
Proof.
  rewrite create_reservation_run.
  destruct (cars db !! rc_car_id reservation_data) as [car |]; [| discriminate].
  destruct (is_active car) eqn:Hact; simpl; [| discriminate].
  destruct (String.eqb_spec (disponibilite car) "disponible") as [Hav | Hav];
    simpl; [| discriminate].
  destruct (negb _); [discriminate |].
  destruct (conflict_found reservation_data db); [discriminate |].
  destruct (Qle_bool _ 0); [discriminate |].
  destruct (commit_ok env); [| discriminate].
  intros [= <- <-]. exists car. repeat split; auto.
Qed.

(** X2: on the database as the creation of a sale or of a rental has just
    stored it, a creation request for the same car is refused with 400
    'Cette voiture n'est pas disponible', whatever its type, dates, price
    and requester, and stores nothing.  (Once the first reservation is
    cancelled, or the rental completed, the car is available again and
    this no longer holds.) *)
Theorem create_twice_refused env db reservation_data uid resp db'
    env' reservation_data' uid' :
  run_request (create_reservation env reservation_data uid) db = (Return resp, db') ->
  rc_type_transaction reservation_data = "vente"
  \/ rc_type_transaction reservation_data = "location" ->
  rc_car_id reservation_data' = rc_car_id reservation_data ->
  run_request (create_reservation env' reservation_data' uid') db'
    = (Raise car_not_available, db').
Proof.
  intros Hrun Hty Hsame.
  destruct (create_success_inv _ _ _ _ _ _ Hrun) as (car & Hcar & Hact & Hav & _ & ->).
  rewrite create_reservation_run. simpl. rewrite Hsame. unfold cars_after_create.
  destruct Hty as [Ht | Ht]; rewrite Ht; simpl;
    rewrite lookup_alter_eq, Hcar; simpl; rewrite Hact; reflexivity.
Qed.

Lemma create_twice_refused_witness :
  exists db',
    run_request (create_reservation sample_env sale_request 7) fresh_db
      = (Return (1, new_reservation sale_request 7), db')
    /\ run_request (create_reservation sample_env
                      (mkReservationCreate 1 "location" 400 (Some 500) (90 # 1) None) 8) db'
       = (Raise car_not_available, db').
Proof.
  eexists. split; [reflexivity |].
  eapply (create_twice_refused sample_env fresh_db sale_request 7);
    [reflexivity | left; reflexivity | reflexivity].
Defined.

Lemma set_disponibilite_back d car :
  disponibilite car = "disponible" ->
  set_disponibilite "disponible" (set_disponibilite d car) = car.
Proof. destruct car. simpl. intros ->. reflexivity. Qed.

Lemma cars_restored reservation_data db car :
  cars db !! rc_car_id reservation_data = Some car ->
  disponibilite car = "disponible" ->
  alter (set_disponibilite "disponible") (rc_car_id reservation_data)
        (cars_after_create reservation_data db) = cars db.
Proof.
  intros Hcar Hav. apply map_eq. intros k. unfold cars_after_create.
  destruct (decide (rc_car_id reservation_data = k)) as [<- | Hne].
  - rewrite lookup_alter_eq.
    destruct (String.eqb (rc_type_transaction reservation_data) "vente");
      [| destruct (String.eqb (rc_type_transaction reservation_data) "location")];
      rewrite ?lookup_alter_eq, Hcar; simpl; f_equal;
      try apply set_disponibilite_back; auto.
    destruct car. simpl in *. now subst.
  - rewrite lookup_alter_ne by assumption.
    destruct (String.eqb (rc_type_transaction reservation_data) "vente");
      [| destruct (String.eqb (rc_type_transaction reservation_data) "location")];
      rewrite ?lookup_alter_ne by assumption; reflexivity.
Qed.

Lemma create_then_cancel_run env db reservation_data uid id r db1
    env' actor user_role :
  run_request (create_reservation env reservation_data uid) db = (Return (id, r), db1) ->
  user_role = "vendeur" \/ actor = uid ->
  commit_ok env' = true ->
  exists db2,
    run_request (cancel_reservation env' id actor user_role) db1 = (Return true, db2)
    /\ cars db2 = cars db
    /\ reservations db2 !! id = Some (set_statut "annulee" r).
Proof.
  intros Hrun Hwho Hc.
  destruct (create_success_inv _ _ _ _ _ _ Hrun) as (car & Hcar & Hact & Hav & Hresp & ->).
  injection Hresp as -> ->.
  assert (Hr : reservations
                 (mkDatabase (cars_after_create reservation_data db)
                    (<[next_reservation_id db := new_reservation reservation_data uid]>
                       (reservations db)) (next_reservation_id db + 1))
               !! next_reservation_id db = Some (new_reservation reservation_data uid))
    by (simpl; apply lookup_insert_eq).
  rewrite (cancel_reservation_run _ _ _ _ actor user_role Hr).
  rewrite permission_check_passes
    by (destruct Hwho as [-> | ->]; [now left | now right]).
  rewrite Hc. simpl.
  assert (Hsome : is_Some (cars_after_create reservation_data db
                             !! rc_car_id reservation_data)).
  { unfold cars_after_create.
    destruct (String.eqb _ "vente"); [| destruct (String.eqb _ "location")];
      rewrite ?lookup_alter_eq, Hcar; simpl; eauto. }
  destruct Hsome as [c' Hc']. rewrite Hc'.
  eexists. split; [reflexivity |]. simpl. split.
  - now apply (cars_restored reservation_data db car).
  - rewrite lookup_alter_eq, lookup_insert_eq. reflexivity.
Qed.

(** X3: cancelling a reservation right after its creation, by its owner or
    by a seller, gives back the table of cars as it was before the
    creation in every column other than the time stamp [updated_at] of the
    car (which the two writes of its availability rewrite, and which the
    rows here do not carry), and leaves the reservation stored as
    'annulee'. *)
Theorem create_then_cancel_restores_cars env db reservation_data uid id r db1
    env' actor user_role :
  run_request (create_reservation env reservation_data uid) db = (Return (id, r), db1) ->
  user_role = "vendeur" \/ actor = uid ->
  commit_ok env' = true ->
  exists db2,
    run_request (cancel_reservation env' id actor user_role) db1 = (Return true, db2)
    /\ cars db2 = cars db
    /\ reservations db2 !! id = Some (set_statut "annulee" r).
Proof. apply create_then_cancel_run. Qed.

Lemma create_then_cancel_restores_cars_witness :
  exists db1 db2,
    run_request (create_reservation sample_env sale_request 7) fresh_db
      = (Return (1, new_reservation sale_request 7), db1)
    /\ run_request (cancel_reservation sample_env 1 7 "client") db1 = (Return true, db2)
    /\ cars db2 = cars fresh_db.
Proof.
  eexists. 
  destruct (create_then_cancel_restores_cars sample_env fresh_db sale_request 7 1
              (new_reservation sale_request 7) _ sample_env 7 "client" eq_refl)
    as (db2 & Hcancel & Hcars & _).
  - right. reflexivity.
  - reflexivity.
  - exists db2. split; [reflexivity |]. split; assumption.
Defined.

(** ** What no operation does to the rows *)

Lemma rows_kept_refl db : rows_kept db db.
Proof. split; [eauto | lia]. Qed.

Lemma rows_kept_trans db1 db2 db3 :
  rows_kept db1 db2 -> rows_kept db2 db3 -> rows_kept db1 db3.
Proof.
  intros [H12 Hn12] [H23 Hn23]. split; [| lia].
  intros id r Hr. destruct (H12 id r Hr) as (r2 & Hr2 & Hc2 & Hu2).
  destruct (H23 id r2 Hr2) as (r3 & Hr3 & Hc3 & Hu3).
  exists r3. repeat split; congruence.
Qed.

Lemma cars_kept_refl db : cars_kept db db.
Proof. intros cid. destruct (cars db !! cid) as [[] |]; reflexivity. Qed.

Lemma cars_kept_trans db1 db2 db3 :
  cars_kept db1 db2 -> cars_kept db2 db3 -> cars_kept db1 db3.
Proof.
  intros H12 H23 cid. specialize (H12 cid). specialize (H23 cid).
  destruct (cars db1 !! cid) as [c1 |], (cars db2 !! cid) as [c2 |],
           (cars db3 !! cid) as [c3 |]; try contradiction; auto.
  rewrite H23, H12. reflexivity.
Qed.

Lemma cars_kept_alter db v cid rs n :
  cars_kept db (mkDatabase (alter (set_disponibilite v) cid (cars db)) rs n).
Proof.
  intros k. simpl. destruct (decide (cid = k)) as [<- | Hne].
  - rewrite lookup_alter_eq. destruct (cars db !! cid) as [[] |]; reflexivity.
  - rewrite lookup_alter_ne by assumption.
    destruct (cars db !! k) as [[] |]; reflexivity.
Qed.

Lemma cars_kept_same db rs n : cars_kept db (mkDatabase (cars db) rs n).
Proof. intros k. simpl. destruct (cars db !! k) as [[] |]; reflexivity. Qed.

Lemma rows_kept_replace db cs rid r r' :
  reservations db !! rid = Some r ->
  car_id r' = car_id r -> user_id r' = user_id r ->
  rows_kept db (mkDatabase cs (<[rid := r']> (reservations db)) (next_reservation_id db)).
Proof.
  intros Hr Hc Hu. split; simpl; [| lia].
  intros id r0 Hr0. destruct (decide (rid = id)) as [<- | Hne].
  - exists r'. rewrite lookup_insert_eq. assert (r0 = r) by congruence. subst. auto.
  - exists r0. rewrite lookup_insert_ne by assumption. auto.
Qed.

Lemma counter_fresh_replace db cs rid r r' :
  counter_fresh db -> reservations db !! rid = Some r ->
  counter_fresh (mkDatabase cs (<[rid := r']> (reservations db)) (next_reservation_id db)).
Proof.
  intros Hf Hr id r0. simpl. destruct (decide (rid = id)) as [<- | Hne].
  - intros _. eapply Hf; eassumption.
  - rewrite lookup_insert_ne by assumption. apply Hf.
Qed.

Lemma apply_update_identity update_data r :
  car_id (apply_update update_data r) = car_id r
  /\ user_id (apply_update update_data r) = user_id r.
Proof.
  unfold apply_update.
  destruct (ru_notes update_data) as [[? |] |],
           (ru_statut update_data) as [[? |] |],
           (ru_prix_final update_data) as [[? |] |],
           (ru_date_fin update_data) as [[? |] |],
           (ru_date_debut update_data) as [[? |] |],
           (ru_type_transaction update_data) as [[? |] |]; simpl; auto.
Qed.

Lemma perform_rows_kept env op db :
  counter_fresh db ->
  counter_fresh (perform env op db) /\ rows_kept db (perform env op db).
Proof.
  intros Hf.
  assert (Hsame : counter_fresh db /\ rows_kept db db)
    by (split; [assumption | apply rows_kept_refl]).
  destruct op as [data uid | rid st role | rid data uid role | rid uid role]; simpl.
  - rewrite create_reservation_run.
    destruct (cars db !! rc_car_id data) as [car |]; [| assumption].
    destruct (negb (is_active car)); [assumption |].
    destruct (negb (String.eqb (disponibilite car) "disponible")); [assumption |].
    destruct (negb (validate_reservation_dates _ _ _ _)); [assumption |].
    destruct (conflict_found data db); [assumption |].
    destruct (Qle_bool _ 0); [assumption |].
    destruct (commit_ok env); [| assumption]. simpl. split.
    + intros id r. simpl. destruct (decide (next_reservation_id db = id)) as [<- | Hne].
      * intros _. lia.
      * rewrite lookup_insert_ne by assumption. intros Hr. specialize (Hf id r Hr). lia.
    + split; simpl; [| lia]. intros id r Hr. exists r.
      rewrite lookup_insert_ne; [auto |]. intros <-. specialize (Hf _ _ Hr). lia.
  - destruct (String.eqb_spec role "vendeur") as [-> | Hrole];
      [| now rewrite update_reservation_status_forbidden].
    destruct (reservations db !! rid) as [r |] eqn:Hr;
      [| now rewrite update_reservation_status_missing].
    rewrite (update_reservation_status_run env db rid r st Hr).
    destruct (negb _); [assumption |].
    destruct (String.eqb st "annulee" || _).
    + destruct (cars db !! car_id r); [| assumption].
      destruct (commit_ok env); [| assumption]. simpl.
      rewrite (alter_as_insert _ rid _ r Hr). split.
      * now apply (counter_fresh_replace db _ rid r).
      * apply (rows_kept_replace db _ rid r); auto.
    + destruct (commit_ok env); [| assumption]. simpl.
      rewrite (alter_as_insert _ rid _ r Hr). split.
      * now apply (counter_fresh_replace db _ rid r).
      * apply (rows_kept_replace db _ rid r); auto.
  - destruct (reservations db !! rid) as [r |] eqn:Hr;
      [| now rewrite update_reservation_missing].
    rewrite (update_reservation_run env db rid r data uid role Hr).
    destruct (_ && negb (user_id r =? uid)); [assumption |].
    destruct (_ && negb (String.eqb (statut r) "en_attente")); [assumption |].
    destruct (price_rejected data); [assumption |].
    destruct (touches_dates data && _); [assumption |].
    destruct (commit_ok env); [| assumption]. simpl.
    destruct (apply_update_identity data r) as [Hc Hu]. split.
    + now apply (counter_fresh_replace db _ rid r).
    + apply (rows_kept_replace db _ rid r); auto.
  - destruct (reservations db !! rid) as [r |] eqn:Hr;
      [| now rewrite cancel_reservation_missing].
    rewrite (cancel_reservation_run env db rid r uid role Hr).
    destruct (_ && negb (user_id r =? uid)); [assumption |].
    destruct (str_in (statut r) ["annulee"; "terminee"]); [assumption |].
    destruct (commit_ok env); [| assumption]. simpl.
    rewrite (alter_as_insert _ rid _ r Hr). split.
    + now apply (counter_fresh_replace db _ rid r).
    + apply (rows_kept_replace db _ rid r); auto.
Qed.

Lemma perform_cars_kept env op db : cars_kept db (perform env op db).
Proof.
  pose proof (cars_kept_refl db) as Hsame.
  destruct op as [data uid | rid st role | rid data uid role | rid uid role]; simpl.
  - rewrite create_reservation_run.
    destruct (cars db !! rc_car_id data) as [car |]; [| assumption].
    destruct (negb (is_active car)); [assumption |].
    destruct (negb (String.eqb (disponibilite car) "disponible")); [assumption |].
    destruct (negb (validate_reservation_dates _ _ _ _)); [assumption |].
    destruct (conflict_found data db); [assumption |].
    destruct (Qle_bool _ 0); [assumption |].
    destruct (commit_ok env); [| assumption]. simpl.
    unfold cars_after_create.
    destruct (String.eqb _ "vente"); [apply cars_kept_alter |].
    destruct (String.eqb _ "location"); [apply cars_kept_alter | apply cars_kept_same].
  - destruct (String.eqb_spec role "vendeur") as [-> | Hrole];
      [| now rewrite update_reservation_status_forbidden].
    destruct (reservations db !! rid) as [r |] eqn:Hr;
      [| now rewrite update_reservation_status_missing].
    rewrite (update_reservation_status_run env db rid r st Hr).
    destruct (negb _); [assumption |].
    destruct (String.eqb st "annulee" || _).
    + destruct (cars db !! car_id r); [| assumption].
      destruct (commit_ok env); [apply cars_kept_alter | assumption].
    + destruct (commit_ok env); [apply cars_kept_same | assumption].
  - destruct (reservations db !! rid) as [r |] eqn:Hr;
      [| now rewrite update_reservation_missing].
    rewrite (update_reservation_run env db rid r data uid role Hr).
    destruct (_ && negb (user_id r =? uid)); [assumption |].
    destruct (_ && negb (String.eqb (statut r) "en_attente")); [assumption |].
    destruct (price_rejected data); [assumption |].
    destruct (touches_dates data && _); [assumption |].
    destruct (commit_ok env); [apply cars_kept_same | assumption].
  - destruct (reservations db !! rid) as [r |] eqn:Hr;
      [| now rewrite cancel_reservation_missing].
    rewrite (cancel_reservation_run env db rid r uid role Hr).
    destruct (_ && negb (user_id r =? uid)); [assumption |].
    destruct (str_in (statut r) ["annulee"; "terminee"]); [assumption |].
    destruct (commit_ok env); [| assumption]. simpl.
    destruct (cars db !! car_id r); [apply cars_kept_alter | apply cars_kept_same].
Qed.

Lemma perform_all_rows_kept ops : forall db,
  counter_fresh db ->
  counter_fresh (perform_all ops db) /\ rows_kept db (perform_all ops db).
Proof.
  induction ops as [| [env op] rest IH]; intros db Hf; simpl.
  - split; [assumption | apply rows_kept_refl].
  - destruct (perform_rows_kept env op db Hf) as (Hf1 & Hr1).
    destruct (IH _ Hf1) as (Hf2 & Hr2).
    split; [assumption | eapply rows_kept_trans; eassumption].
Qed.

(** X4: when the key counter lies above the keys in use, no sequence of
    creations, status updates, updates and cancellations ever removes a
    reservation or changes the car or the user it belongs to, and the
    counter stays above the keys and never goes back. *)
Theorem reservations_never_lost ops db :
  counter_fresh db ->
  rows_kept db (perform_all ops db) /\ counter_fresh (perform_all ops db).
Proof.
  intros Hf. destruct (perform_all_rows_kept ops db Hf) as (H1 & H2). now split.
Qed.

Lemma two_rentals_db_counter : counter_fresh two_rentals_db.
Proof.
  intros id r Hr. simpl in Hr.
  apply lookup_insert_Some in Hr as [[<- _] | [_ Hr]]; [reflexivity |].
  apply lookup_singleton_Some in Hr as [<- _]. reflexivity.
Qed.

Lemma reservations_never_lost_witness :
  (exists r',
     reservations (perform_all busy_day two_rentals_db) !! 2 = Some r'
     /\ car_id r' = 1 /\ user_id r' = 8)
  /\ next_reservation_id two_rentals_db
       < next_reservation_id (perform_all busy_day two_rentals_db)
  /\ counter_fresh (perform_all busy_day two_rentals_db).
Proof.
  destruct (reservations_never_lost busy_day two_rentals_db two_rentals_db_counter)
    as [[Hrows _] Hfresh].
  split; [| split; [reflexivity | exact Hfresh]].
  apply (Hrows 2 (mkReservation 1 8 "location" 20 (Some 30) (500 # 1) "en_attente" None)).
  reflexivity.
Defined.

(** X5: no sequence of these operations adds or removes a car, and of the
    columns of a car other than the time stamp [updated_at] (rewritten
    with each of these writes, and not carried by the rows here) the only
    one they ever change is its availability. *)
Theorem cars_only_change_availability ops : forall db,
  cars_kept db (perform_all ops db).
Proof.
  induction ops as [| [env op] rest IH]; intros db; simpl.
  - apply cars_kept_refl.
  - eapply cars_kept_trans; [apply perform_cars_kept | apply IH].
Qed.

Lemma cars_only_change_availability_witness :
  cars_kept fresh_db (perform_all completed_sale fresh_db).
Proof. apply cars_only_change_availability. Defined.

(** ** Cancelling, updating the status, and the update of fields *)

Lemma active_not_terminal r :
  active r -> str_in (statut r) ["annulee"; "terminee"] = false.
Proof. intros [Hs | Hs]; rewrite Hs; reflexivity. Qed.

Lemma active_may_be_cancelled r :
  active r -> str_in "annulee" (default [] (valid_transitions !! statut r)) = true.
Proof. intros [Hs | Hs]; rewrite Hs; reflexivity. Qed.

(** X6: on a pending or confirmed reservation whose car row exists, a
    cancellation by a seller and a seller's status update to 'annulee'
    store exactly the same database; when the car row is missing they part:
    the cancellation goes through and the status update raises
    [AttributeError] and stores nothing. *)
Theorem seller_cancel_is_status_update env db rid r actor :
  reservations db !! rid = Some r ->
  active r ->
  (is_Some (cars db !! car_id r) ->
   snd (run_request (cancel_reservation env rid actor "vendeur") db)
   = snd (run_request (update_reservation_status env rid "annulee" "vendeur") db))
  /\ (cars db !! car_id r = None -> commit_ok env = true ->
      fst (run_request (cancel_reservation env rid actor "vendeur") db) = Return true
      /\ run_request (update_reservation_status env rid "annulee" "vendeur") db
         = (Raise AttributeError, db)).
Proof.
  intros Hr Hact.
  rewrite (cancel_reservation_run env db rid r actor "vendeur" Hr).
  rewrite (update_reservation_status_run env db rid r "annulee" Hr).
  rewrite (active_not_terminal r Hact), (active_may_be_cancelled r Hact). simpl.
  split.
  - intros [c Hc]. rewrite Hc. destruct (commit_ok env); reflexivity.
  - intros Hnone Hc. rewrite Hnone, Hc. split; reflexivity.
Qed.

Lemma seller_cancel_is_status_update_witness :
  snd (run_request (cancel_reservation sample_env 1 99 "vendeur") rented_db)
  = snd (run_request (update_reservation_status sample_env 1 "annulee" "vendeur") rented_db).
Proof.
  destruct (seller_cancel_is_status_update sample_env rented_db 1
              (sample_reservation "location" (Some 300) "confirmee") 99 eq_refl)
    as [Hsame _].
  - right. reflexivity.
  - apply Hsame. exists (sample_car "loue"). reflexivity.
Defined.

(** X7: [update_reservation] does not consult the transition table: for an
    actor who passes its two checks, an update that only gives 'statut'
    stores the given status whatever the current one is, and changes no
    other column of any row apart from the time stamp [updated_at] of that
    reservation; a seller can so bring a cancelled or completed
    reservation back to 'en_attente', which [update_reservation_status]
    refuses. *)
Theorem update_sets_any_status env db rid r new_status actor user_role :
  reservations db !! rid = Some r ->
  guard_passes user_role actor r ->
  commit_ok env = true ->
  run_request
    (update_reservation env rid
       (mkReservationUpdate None None None None (Some (Some new_status)) None)
       actor user_role) db
  = (Return (rid, set_statut new_status r),
     mkDatabase (cars db) (<[rid := set_statut new_status r]> (reservations db))
                (next_reservation_id db))
  /\ (~ permitted (statut r) new_status ->
      run_request (update_reservation_status env rid new_status "vendeur") db
      = (Raise (invalid_transition (statut r) new_status), db)).
Proof.
  intros Hr [Ha Hs] Hc. split.
  - rewrite (update_reservation_run env db rid r _ actor user_role Hr).
    rewrite permission_check_passes, pending_check_passes by assumption.
    simpl. rewrite Hc. reflexivity.
  - intros Hnot. rewrite (update_reservation_status_run env db rid r new_status Hr).
    destruct (str_in new_status (default [] (valid_transitions !! statut r))) eqn:Hin;
      [| reflexivity].
    apply valid_transitions_spec in Hin. contradiction.
Qed.

Lemma update_sets_any_status_witness :
  run_request
    (update_reservation sample_env 1
       (mkReservationUpdate None None None None (Some (Some "en_attente")) None)
       99 "vendeur") cancelled_sale_db
  = (Return (1, sample_reservation "vente" None "en_attente"),
     mkDatabase (cars cancelled_sale_db)
       (<[1 := sample_reservation "vente" None "en_attente"]>
          (reservations cancelled_sale_db)) 2)
  /\ run_request (update_reservation_status sample_env 1 "en_attente" "vendeur")
       cancelled_sale_db
     = (Raise (invalid_transition "annulee" "en_attente"), cancelled_sale_db).
Proof.
  destruct (update_sets_any_status sample_env cancelled_sale_db 1
              (sample_reservation "vente" None "annulee") "en_attente" 99 "vendeur"
              eq_refl (conj (or_introl eq_refl) (or_introl eq_refl)) eq_refl)
    as [Hupdate Hstatus].
  split; [exact Hupdate |]. apply Hstatus.
  intros [(Hs & _) | (Hs & _)]; discriminate.
Defined.

(** ** The routes *)

Lemma route_delete_reservation_run env db rid current_user :
  run_request (route_delete_reservation env rid current_user) db =
    if negb (u_is_active current_user) then (Raise inactive_user, db)
    else if negb (String.eqb (u_role current_user) "vendeur")
    then (Raise vendeur_required, db)
    else match reservations db !! rid with
         | None => (Raise reservation_not_found, db)
         | Some r =>
           if negb (String.eqb (statut r) "annulee") then (Raise delete_not_cancelled, db)
           else if commit_ok env
           then (Return "Réservation supprimée avec succès",
                 mkDatabase (cars db) (delete rid (reservations db))
                            (next_reservation_id db))
           else (Raise delete_failed, db)
         end.
Proof.
  unfold run_request, route_delete_reservation, require_vendeur, require_role,
    get_current_active_user, get_reservation_by_id, delete_reservation_row.
  unfold_monad. simpl.
  destruct (u_is_active current_user); simpl; [| reflexivity].
  destruct (String.eqb (u_role current_user) "vendeur"); simpl; [| reflexivity].
  destruct (reservations db !! rid) as [r |]; [| reflexivity].
  destruct (String.eqb (statut r) "annulee"); simpl; [| reflexivity].
  destruct (commit_ok env); reflexivity.
Qed.

(** X8: the deletion route removes a reservation only for an active seller
    and only when the reservation is 'annulee'; it then removes exactly
    that row and touches nothing else.  A user who is not a seller gets
    403, a missing reservation 404, and a reservation in any other status
    400; in these cases nothing is stored. *)
Theorem delete_only_cancelled env db rid current_user :
  let result := run_request (route_delete_reservation env rid current_user) db in
  (forall msg db', result = (Return msg, db') ->
     u_role current_user = "vendeur"
     /\ (exists r, reservations db !! rid = Some r /\ statut r = "annulee")
     /\ db' = mkDatabase (cars db) (delete rid (reservations db)) (next_reservation_id db)
     /\ reservations db' !! rid = None)
  /\ (u_is_active current_user = true -> u_role current_user <> "vendeur" ->
      result = (Raise vendeur_required, db))
  /\ (u_is_active current_user = true -> u_role current_user = "vendeur" ->
      (reservations db !! rid = None -> result = (Raise reservation_not_found, db))
      /\ (forall r, reservations db !! rid = Some r -> statut r <> "annulee" ->
          result = (Raise delete_not_cancelled, db))
      /\ (forall r, reservations db !! rid = Some r -> statut r = "annulee" ->
          commit_ok env = true ->
          result = (Return "Réservation supprimée avec succès",
                    mkDatabase (cars db) (delete rid (reservations db))
                               (next_reservation_id db)))).
Proof.
  simpl. rewrite route_delete_reservation_run. split; [| split].
  - intros msg db'. destruct (negb (u_is_active current_user)); [discriminate |].
    destruct (String.eqb_spec (u_role current_user) "vendeur") as [Hrole | Hrole];
      simpl; [| discriminate].
    destruct (reservations db !! rid) as [r |]; [| discriminate].
    destruct (String.eqb_spec (statut r) "annulee") as [Hs | Hs]; simpl; [| discriminate].
    destruct (commit_ok env); [| discriminate].
    intros [= _ <-]. repeat split; eauto. simpl. apply lookup_delete_eq.
  - intros -> Hrole. apply String.eqb_neq in Hrole. rewrite Hrole. reflexivity.
  - intros -> ->. simpl. split; [| split].
    + intros ->. reflexivity.
    + intros r -> Hs. apply String.eqb_neq in Hs. rewrite Hs. reflexivity.
    + intros r -> -> ->. reflexivity.
Qed.

Lemma delete_only_cancelled_witness :
  run_request (route_delete_reservation sample_env 1 seller) cancelled_sale_db
    = (Return "Réservation supprimée avec succès",
       mkDatabase (cars cancelled_sale_db) (delete 1 (reservations cancelled_sale_db)) 2)
  /\ run_request (route_delete_reservation sample_env 1 client7) cancelled_sale_db
     = (Raise vendeur_required, cancelled_sale_db).
Proof.
  destruct (delete_only_cancelled sample_env cancelled_sale_db 1 seller)
    as (_ & _ & Hseller).
  destruct (delete_only_cancelled sample_env cancelled_sale_db 1 client7)
    as (_ & Hclient & _).
  split.
  - destruct (Hseller eq_refl eq_refl) as (_ & _ & Hok).
    apply (Hok (sample_reservation "vente" None "annulee")); reflexivity.
  - apply Hclient; [reflexivity | discriminate].
Defined.

(** X9: the whole life of a reservation that is given up.  While the
    reservation created by a request is still there as created, a seller
    cannot delete it (400); once it has been cancelled, by its owner or by
    a seller, the seller's deletion goes through, and the database is then
    the one from before the creation, except that the key counter has
    moved on by one and that the time stamp [updated_at] of the car, which
    the rows here do not carry, has been rewritten. *)
Theorem create_cancel_delete_round_trip env db reservation_data uid id r db1
    env1 actor user_role env2 current_user :
  run_request (create_reservation env reservation_data uid) db = (Return (id, r), db1) ->
  reservations db !! next_reservation_id db = None ->
  user_role = "vendeur" \/ actor = uid ->
  commit_ok env1 = true ->
  u_is_active current_user = true -> u_role current_user = "vendeur" ->
  commit_ok env2 = true ->
  run_request (route_delete_reservation env2 id current_user) db1
    = (Raise delete_not_cancelled, db1)
  /\ exists db2,
       run_request (cancel_reservation env1 id actor user_role) db1 = (Return true, db2)
       /\ run_request (route_delete_reservation env2 id current_user) db2
          = (Return "Réservation supprimée avec succès",
             mkDatabase (cars db) (reservations db) (next_reservation_id db + 1)).
Proof.
  intros Hrun Hnone Hwho Hc1 Hua Hur Hc2.
  destruct (create_then_cancel_run _ _ _ _ _ _ _ env1 actor user_role
              Hrun Hwho Hc1) as (db2 & Hcancel & Hcars & Hrow).
  destruct (create_success_inv _ _ _ _ _ _ Hrun) as (car & Hcar & Hact & Hav & Hresp & Hdb1).
  injection Hresp as -> ->. split.
  - rewrite route_delete_reservation_run, Hua, Hur, Hdb1. simpl.
    rewrite lookup_insert_eq. reflexivity.
  - exists db2. split; [assumption |].
    rewrite route_delete_reservation_run, Hua, Hur, Hrow. simpl. rewrite Hc2.
    f_equal.
    assert (Hrun2 := Hcancel).
    rewrite Hdb1 in Hrun2.
    rewrite (cancel_reservation_run env1 _ (next_reservation_id db)
               (new_reservation reservation_data uid) actor user_role) in Hrun2
      by (simpl; apply lookup_insert_eq).
    rewrite permission_check_passes in Hrun2
      by (destruct Hwho as [-> | ->]; [now left | now right]).
    rewrite Hc1 in Hrun2. simpl in Hrun2. injection Hrun2 as Hdb2.
    rewrite <- Hdb2 in Hcars |- *. simpl in *. rewrite Hcars. f_equal.
    apply map_eq. intros k. destruct (decide (next_reservation_id db = k)) as [<- | Hne].
    + rewrite lookup_delete_eq. now rewrite Hnone.
    + rewrite lookup_delete_ne, lookup_alter_ne, lookup_insert_ne by assumption.
      reflexivity.
Qed.

Lemma create_cancel_delete_round_trip_witness :
  exists db1 db2,
    run_request (create_reservation sample_env sale_request 7) fresh_db
      = (Return (1, new_reservation sale_request 7), db1)
    /\ run_request (route_delete_reservation sample_env 1 seller) db1
       = (Raise delete_not_cancelled, db1)
    /\ run_request (cancel_reservation sample_env 1 7 "client") db1 = (Return true, db2)
    /\ run_request (route_delete_reservation sample_env 1 seller) db2
       = (Return "Réservation supprimée avec succès",
          mkDatabase (cars fresh_db) (reservations fresh_db) 2).
Proof.
  eexists.
  destruct (create_cancel_delete_round_trip sample_env fresh_db sale_request 7 1
              (new_reservation sale_request 7) _ sample_env 7 "client" sample_env seller
              eq_refl eq_refl (or_intror eq_refl) eq_refl eq_refl eq_refl eq_refl)
    as (Hearly & db2 & Hcancel & Hdelete).
  exists db2. split; [reflexivity |]. repeat split; assumption.
Defined.

Lemma coordinated_delete db rid r :
  coordinated db ->
  reservations db !! rid = Some r ->
  ~ occupying r ->
  coordinated (mkDatabase (cars db) (delete rid (reservations db))
                          (next_reservation_id db)).
Proof.
  intros Hco Hr Hno.
  assert (Hold : forall id r0, delete rid (reservations db) !! id = Some r0 ->
                               reservations db !! id = Some r0).
  { intros id r0 Hl. apply lookup_delete_Some in Hl. tauto. }
  constructor; simpl.
  - intros id r0 Hl. eapply ids_below_next; eauto.
  - intros id r0 Hl. eapply rows_known; eauto.
  - apply (availability_known db Hco).
  - intros cid car id r0 Hcar Hl. eapply holder_marks; eauto.
  - intros cid car Hcar Hd.
    destruct (holder_exists db Hco cid car Hcar Hd) as (id & r0 & Hr0 & Hc0 & Ho0).
    exists id, r0. split; [| auto].
    rewrite lookup_delete_ne; [assumption |].
    intros <-. apply Hno. congruence.
  - intros cid id1 r1 id2 r2 Hcar Hl1 Hl2. eapply holder_unique; eauto.
Qed.

(** X10: the deletion route keeps a coordinated database coordinated, so
    that the availability of every car goes on agreeing with its
    reservations after a deletion. *)
Theorem delete_keeps_coordinated env db rid current_user :
  coordinated db ->
  coordinated (snd (run_request (route_delete_reservation env rid current_user) db))
  /\ availability_settled
       (snd (run_request (route_delete_reservation env rid current_user) db)).
Proof.
  intros Hco.
  assert (H : coordinated
                (snd (run_request (route_delete_reservation env rid current_user) db))).
  { rewrite route_delete_reservation_run.
    destruct (negb (u_is_active current_user)); [assumption |].
    destruct (negb (String.eqb (u_role current_user) "vendeur")); [assumption |].
    destruct (reservations db !! rid) as [r |] eqn:Hr; [| assumption].
    destruct (String.eqb_spec (statut r) "annulee") as [Hs | Hs]; simpl; [| assumption].
    destruct (commit_ok env); [| assumption]. simpl.
    apply (coordinated_delete db rid r); auto.
    intros [[Ha | Ha] | (Ha & _)]; rewrite Hs in Ha; discriminate. }
  split; [assumption | now apply coordinated_settled].
Qed.

Lemma cancelled_sale_db_coordinated : coordinated cancelled_sale_db.
Proof.
  assert (Hrow : forall id r, reservations cancelled_sale_db !! id = Some r ->
                              r = sample_reservation "vente" None "annulee").
  { intros id r Hr. simpl in Hr. apply lookup_singleton_Some in Hr. now destruct Hr. }
  assert (Hnot : forall id r, reservations cancelled_sale_db !! id = Some r ->
                              ~ occupying r).
  { intros id r Hr Ho. rewrite (Hrow id r Hr) in Ho.
    destruct Ho as [[Ha | Ha] | (Ha & _)]; discriminate. }
  constructor.
  - intros id r Hr. simpl in *. apply lookup_singleton_Some in Hr. destruct Hr as [<- _]. lia.
  - intros id r Hr. rewrite (Hrow id r Hr). split; [right; right; now left | now left].
  - intros cid car Hcar. simpl in Hcar. apply lookup_singleton_Some in Hcar.
    destruct Hcar as [_ <-]. now left.
  - intros cid car id r _ Hr _ Ho. exfalso. eapply Hnot; eassumption.
  - intros cid car Hcar Hd. simpl in Hcar. apply lookup_singleton_Some in Hcar.
    destruct Hcar as [_ <-]. now elim Hd.
  - intros cid id1 r1 id2 r2 _ Hr1 _ _ _ Ho. exfalso. eapply Hnot; eassumption.
Qed.

Lemma delete_keeps_coordinated_witness :
  availability_settled
    (snd (run_request (route_delete_reservation sample_env 1 seller) cancelled_sale_db)).
Proof.
  apply (delete_keeps_coordinated sample_env cancelled_sale_db 1 seller).
  exact cancelled_sale_db_coordinated.
Defined.

(** ** Pagination *)

Lemma ceil_div_bounds (total size : Z) :
  0 < size ->
  (ceil_div total size - 1) * size < total <= ceil_div total size * size.
Proof.
  intros Hs. unfold ceil_div.
  pose proof (Z.div_mod (- total) size ltac:(lia)) as Hdm.
  pose proof (Z.mod_pos_bound (- total) size Hs) as Hmod.
  nia.
Qed.

Lemma paginate_query_some {A} (query : list A) (page size max_size : Z) :
  1 <= max_size ->
  paginate_query query page size max_size =
    let page' := Z.max 1 page in
    let size' := Z.min (Z.max 1 size) max_size in
    let total := Z.of_nat (length query) in
    let pages := if 0 <? total then ceil_div total size' else 0 in
    Some (mkPagination
            (take (Z.to_nat size') (drop (Z.to_nat ((page' - 1) * size')) query))
            total page' size' pages (page' <? pages) (1 <? page')).
Proof.
  intros Hmax. unfold paginate_query. simpl.
  assert (Hsz : 1 <= Z.min (Z.max 1 size) max_size) by lia.
  destruct (Z.ltb_spec (Z.min (Z.max 1 size) max_size) 0); [lia |].
  destruct (Z.eqb_spec (Z.min (Z.max 1 size) max_size) 0); [lia |].
  rewrite andb_false_r. reflexivity.
Qed.

(** X11: with a positive [max_size] (every caller uses 100), the paginated
    query raises when the offset of the page asked for is beyond what the
    database takes, and answers otherwise; the page it then reports is at
    least 1 and the size between 1 and [max_size], whatever was asked for;
    it never returns more rows than the size; the total is the number of
    rows of the query; and asking again with the reported page and size
    gives the same answer. *)
Theorem paginate_query_clamps {A} (max_offset : Z) (query : list A)
    (page size max_size : Z) :
  1 <= max_size ->
  (max_offset < (Z.max 1 page - 1) * Z.min (Z.max 1 size) max_size ->
   paginate_query_db max_offset query page size max_size = None)
  /\ ((Z.max 1 page - 1) * Z.min (Z.max 1 size) max_size <= max_offset ->
      exists p,
        paginate_query_db max_offset query page size max_size = Some p
        /\ 1 <= pg_page p
        /\ 1 <= pg_size p <= max_size
        /\ (1 <= page -> pg_page p = page)
        /\ (1 <= size <= max_size -> pg_size p = size)
        /\ Z.of_nat (length (pg_items p)) <= pg_size p
        /\ pg_total p = Z.of_nat (length query)
        /\ paginate_query_db max_offset query (pg_page p) (pg_size p) max_size = Some p).
Proof.
  intros Hmax. unfold paginate_query_db. split.
  - intros Hover. apply Z.ltb_lt in Hover. now rewrite Hover.
  - intros Hfits. pose proof Hfits as Hfits'. apply Z.ltb_ge in Hfits'. rewrite Hfits'.
    rewrite (paginate_query_some query page size max_size Hmax).
    eexists. split; [reflexivity |]. simpl.
    repeat split; try lia.
    + rewrite length_take. lia.
    + replace (Z.max 1 (Z.max 1 page)) with (Z.max 1 page) by lia.
      replace (Z.min (Z.max 1 (Z.min (Z.max 1 size) max_size)) max_size)
        with (Z.min (Z.max 1 size) max_size) by lia.
      rewrite Hfits'.
      rewrite (paginate_query_some _ _ _ _ Hmax). simpl.
      replace (Z.max 1 (Z.max 1 page)) with (Z.max 1 page) by lia.
      replace (Z.min (Z.max 1 (Z.min (Z.max 1 size) max_size)) max_size)
        with (Z.min (Z.max 1 size) max_size) by lia.
      reflexivity.
Qed.

Lemma paginate_query_clamps_witness :
  (exists p,
     paginate_query_db (2 ^ 63 - 1) [10; 20; 30; 40; 50] (-3) 1000 2 = Some p
     /\ pg_page p = 1 /\ pg_size p = 2 /\ pg_items p = [10; 20] /\ pg_total p = 5)
  /\ paginate_query_db (2 ^ 63 - 1) [10; 20; 30; 40; 50] (2 ^ 63) 100 100 = None.
Proof.
  split.
  - destruct (paginate_query_clamps (2 ^ 63 - 1) [10; 20; 30; 40; 50] (-3) 1000 2)
      as (_ & Hfits); [lia |].
    destruct Hfits as (p & Hp & _); [vm_compute; discriminate |].
    exists p. split; [exact Hp |].
    vm_compute in Hp. injection Hp as <-. repeat split; reflexivity.
  - destruct (paginate_query_clamps (2 ^ 63 - 1) [10; 20; 30; 40; 50] (2 ^ 63) 100 100)
      as (Hover & _); [lia |].
    apply Hover. vm_compute. reflexivity.
Defined.

Lemma pages_bounds {A} (query : list A) (page size max_size : Z) p :
  1 <= max_size ->
  paginate_query query page size max_size = Some p ->
  (query = [] -> pg_pages p = 0)
  /\ (query <> [] ->
      (pg_pages p - 1) * pg_size p < Z.of_nat (length query) <= pg_pages p * pg_size p).
Proof.
  intros Hmax. rewrite (paginate_query_some query page size max_size Hmax).
  intros [= <-]. simpl. split.
  - intros ->. reflexivity.
  - intros Hne. destruct query as [| x rest]; [contradiction |].
    destruct (Z.ltb_spec 0 (Z.of_nat (length (x :: rest)))) as [_ | Hle];
      [| simpl in Hle; lia].
    apply ceil_div_bounds. lia.
Qed.

(** X12: the number of pages is the least number of pages of the reported
    size that hold all rows: it is 0 for an empty query, and otherwise
    pages - 1 pages are too few and pages are enough. *)
Theorem paginate_query_pages {A} (query : list A) (page size max_size : Z) p :
  1 <= max_size ->
  paginate_query query page size max_size = Some p ->
  (query = [] -> pg_pages p = 0)
  /\ (query <> [] ->
      (pg_pages p - 1) * pg_size p < Z.of_nat (length query) <= pg_pages p * pg_size p).
Proof. apply pages_bounds. Qed.

Lemma paginate_query_pages_witness :
  exists p,
    paginate_query [10; 20; 30; 40; 50] 1 2 100 = Some p
    /\ (pg_pages p - 1) * pg_size p < 5 <= pg_pages p * pg_size p.
Proof.
  eexists. split; [reflexivity |].
  apply (paginate_query_pages [10; 20; 30; 40; 50] 1 2 100 _ ltac:(lia) eq_refl).
  discriminate.
Defined.

Lemma page_items_eq {A} (query : list A) (size max_size : Z) (k : nat) :
  1 <= max_size ->
  page_items query size max_size (Z.of_nat (S k)) =
    take (Z.to_nat (Z.min (Z.max 1 size) max_size))
         (drop (k * Z.to_nat (Z.min (Z.max 1 size) max_size)) query).
Proof.
  intros Hmax. unfold page_items.
  rewrite (paginate_query_some _ _ _ _ Hmax). cbv zeta. cbn [pg_items].
  assert (Hoff : Z.to_nat ((Z.max 1 (Z.of_nat (S k)) - 1)
                           * Z.min (Z.max 1 size) max_size)
                 = (k * Z.to_nat (Z.min (Z.max 1 size) max_size))%nat).
  { apply Nat2Z.inj. rewrite Nat2Z.inj_mul, !Z2Nat.id by lia. lia. }
  rewrite Hoff. reflexivity.
Qed.

Lemma pages_concat {A} (query : list A) (n m : nat) :
  flat_map (fun k => take n (drop (k * n) query)) (seq 0 m) = take (m * n) query.
Proof.
  induction m as [| m IH].
  - reflexivity.
  - rewrite seq_S, flat_map_app, IH. simpl. rewrite app_nil_r.
    rewrite take_take_drop. f_equal. lia.
Qed.

(** X13: the pages partition the query: the rows of the pages
    1, ..., [pages], one after the other, are exactly the rows of the
    query, in its order. *)
Theorem pages_cover_query {A} (query : list A) (page size max_size : Z) p :
  1 <= max_size ->
  paginate_query query page size max_size = Some p ->
  flat_map (page_items query size max_size) (page_numbers (pg_pages p)) = query.
Proof.
  intros Hmax Hp.
  destruct (pages_bounds query page size max_size p Hmax Hp) as [Hnil Hcover].
  rewrite (paginate_query_some _ _ _ _ Hmax) in Hp. injection Hp as <-.
  simpl in *. unfold page_numbers.
  set (sz := Z.min (Z.max 1 size) max_size) in *.
  set (pages := if 0 <? Z.of_nat (length query) then ceil_div (Z.of_nat (length query)) sz
                else 0) in *.
  rewrite flat_map_concat_map, map_map, <- flat_map_concat_map.
  rewrite <- seq_shift, flat_map_concat_map, map_map, <- flat_map_concat_map.
  erewrite flat_map_ext; [| intros k; apply (page_items_eq query size max_size k Hmax)].
  fold sz. rewrite pages_concat.
  apply take_ge.
  destruct query as [| x rest]; [simpl; lia |].
  specialize (Hcover ltac:(discriminate)).
  assert (0 <= pages) by nia.
  assert (1 <= sz) by (unfold sz; lia).
  apply Nat2Z.inj_le. rewrite Nat2Z.inj_mul, !Z2Nat.id by lia. lia.
Qed.

Lemma pages_cover_query_witness :
  flat_map (page_items [10; 20; 30; 40; 50] 2 100) (page_numbers 3)
    = [10; 20; 30; 40; 50].
Proof.
  apply (pages_cover_query [10; 20; 30; 40; 50] 1 2 100
           (mkPagination [10; 20] 5 1 2 3 true false)); [lia | reflexivity].
Defined.

(** X14: [has_next] is set exactly when the next page has a row, and a
    page after the last one is empty. *)
Theorem has_next_iff_more {A} (query : list A) (page size max_size : Z) p :
  1 <= max_size ->
  paginate_query query page size max_size = Some p ->
  (pg_has_next p = true <-> page_items query size max_size (pg_page p + 1) <> [])
  /\ (pg_pages p < pg_page p -> pg_items p = []).
Proof.
  intros Hmax Hp.
  destruct (pages_bounds query page size max_size p Hmax Hp) as [Hnil Hcover].
  rewrite (paginate_query_some _ _ _ _ Hmax) in Hp. injection Hp as <-.
  simpl in *.
  set (sz := Z.min (Z.max 1 size) max_size) in *.
  set (pg := Z.max 1 page) in *.
  set (pages := if 0 <? Z.of_nat (length query) then ceil_div (Z.of_nat (length query)) sz
                else 0) in *.
  assert (Hsz : 1 <= sz) by (unfold sz; lia).
  assert (Hpg : 1 <= pg) by (unfold pg; lia).
  assert (Hnext : page_items query size max_size (pg + 1)
                  = take (Z.to_nat sz) (drop (Z.to_nat pg * Z.to_nat sz) query)).
  { replace (pg + 1) with (Z.of_nat (S (Z.to_nat pg))) by lia.
    apply page_items_eq. assumption. }
  assert (Hlen : forall l : list A, l <> [] <-> (0 < length l)%nat).
  { intros [| ? ?]; simpl; split; (congruence || lia). }
  split.
  - rewrite Hnext, Hlen, length_take, length_drop, Z.ltb_lt.
    destruct query as [| x rest].
    + subst pages. simpl. lia.
    + specialize (Hcover ltac:(discriminate)).
      assert (Hiff : pg < pages <-> pg * sz < Z.of_nat (length (x :: rest))) by nia.
      rewrite Hiff. split; intros H.
      * assert (Z.to_nat pg * Z.to_nat sz < length (x :: rest))%nat; [| lia].
        apply Nat2Z.inj_lt. rewrite Nat2Z.inj_mul, !Z2Nat.id by lia. assumption.
      * assert (Z.to_nat pg * Z.to_nat sz < length (x :: rest))%nat by lia.
        apply Nat2Z.inj_lt in H0. rewrite Nat2Z.inj_mul, !Z2Nat.id in H0 by lia.
        assumption.
  - intros Hbeyond. rewrite drop_ge; [apply take_nil |].
    destruct query as [| x rest]; [simpl; lia |].
    specialize (Hcover ltac:(discriminate)).
    apply Nat2Z.inj_le. rewrite Z2Nat.id by nia. nia.
Qed.

Lemma has_next_iff_more_witness :
  page_items [10; 20; 30; 40; 50] 2 100 (2 + 1) <> [].
Proof.
  apply (has_next_iff_more [10; 20; 30; 40; 50] 2 2 100
           (mkPagination [30; 40] 5 2 2 3 true true) ltac:(lia) eq_refl).
  reflexivity.
Defined.

(** ** Listing and reading reservations *)

Lemma filter_filter {A} (p q : A -> bool) (l : list A) :
  List.filter q (List.filter p l) = List.filter (fun x => p x && q x) l.
Proof.
  induction l as [| x l IH]; [reflexivity |]. simpl.
  destruct (p x); simpl; [destruct (q x) |]; now rewrite ?IH.
Qed.

Lemma filter_true {A} (l : list A) : List.filter (fun _ => true) l = l.
Proof. induction l as [| x l IH]; [reflexivity |]. simpl. now rewrite IH. Qed.

Lemma filter_if_filter {A} (v : option string) (column : A -> string)
    (query : list (Z * A)) :
  filter_if v column query
  = List.filter (fun row => match v with
                            | Some s => if negb (String.eqb s "")
                                        then String.eqb (column (snd row)) s else true
                            | None => true
                            end) query.
Proof.
  unfold filter_if. destruct v as [s |]; [destruct (negb (String.eqb s "")) |];
    first [reflexivity | symmetry; apply filter_true].
Qed.

Lemma own_rows_filter user_role user_id' (query : list (Z * Reservation)) :
  own_rows user_role user_id' query
  = List.filter (fun row => match user_id' with
                            | Some uid =>
                                if String.eqb user_role "client" && negb (uid =? 0)
                                then user_id (snd row) =? uid else true
                            | None => true
                            end) query.
Proof.
  unfold own_rows. destruct user_id' as [uid |];
    [destruct (String.eqb user_role "client" && negb (uid =? 0)) |];
    first [reflexivity | symmetry; apply filter_true].
Qed.

Lemma visible_rows user_role user_id' status_filter type_filter
    (query : list (Z * Reservation)) :
  filter_if type_filter type_transaction
    (filter_if status_filter statut (own_rows user_role user_id' query))
  = List.filter (fun row => visible user_role user_id' status_filter type_filter (snd row))
                query.
Proof.
  rewrite !filter_if_filter, own_rows_filter, !filter_filter.
  apply List.filter_ext. intros row. unfold visible. now rewrite andb_assoc.
Qed.

Lemma get_reservations_run order max_offset db user_id' user_role page size
    status_filter type_filter :
  run_request (get_reservations order max_offset user_id' user_role page size
                 status_filter type_filter) db
  = (match paginate_query_db max_offset
             (order (List.filter
                       (fun row => visible user_role user_id' status_filter
                                     type_filter (snd row))
                       (all_reservations db)))
             page size 100 with
     | Some p => Return p
     | None => Raise DBAPIError
     end, db).
Proof.
  unfold run_request, get_reservations. unfold_monad. simpl.
  rewrite visible_rows. now destruct (paginate_query_db _ _ _ _ _).
Qed.

Lemma in_take_drop {A} (x : A) (n k : nat) (l : list A) :
  In x (take n (drop k l)) -> In x l.
Proof.
  intros Hin. apply list_elem_of_In in Hin. apply list_elem_of_In.
  apply elem_of_take in Hin. destruct Hin as (i & Hi & _).
  rewrite lookup_drop in Hi. eapply list_elem_of_lookup_2. eassumption.
Qed.

(** X15: whatever the order by creation date is, [get_reservations] stores
    nothing; it raises when the offset of the page asked for is beyond what
    the database takes, and answers otherwise; every row it then returns is
    a stored reservation that passes the filters given, and for a client
    with a non-zero id it is a reservation of that client; the total it
    reports is the number of such stored reservations. *)
Theorem get_reservations_visible order max_offset db user_id' user_role page size
    status_filter type_filter :
  (forall l, Permutation (order l) l) ->
  (max_offset < (Z.max 1 page - 1) * Z.min (Z.max 1 size) 100 ->
   run_request (get_reservations order max_offset user_id' user_role page size
                  status_filter type_filter) db = (Raise DBAPIError, db))
  /\ ((Z.max 1 page - 1) * Z.min (Z.max 1 size) 100 <= max_offset ->
      exists p,
        run_request (get_reservations order max_offset user_id' user_role page size
                       status_filter type_filter) db = (Return p, db)
        /\ (forall id r, In (id, r) (pg_items p) ->
              reservations db !! id = Some r
              /\ (forall uid, user_role = "client" -> user_id' = Some uid -> uid <> 0 ->
                    user_id r = uid)
              /\ (forall s, status_filter = Some s -> s <> "" -> statut r = s)
              /\ (forall t, type_filter = Some t -> t <> "" -> type_transaction r = t))
        /\ pg_total p
           = Z.of_nat (length (List.filter
                                 (fun row => visible user_role user_id' status_filter
                                               type_filter (snd row))
                                 (all_reservations db)))).
Proof.
  intros Hperm. rewrite get_reservations_run. unfold paginate_query_db. split.
  - intros Hover. apply Z.ltb_lt in Hover. now rewrite Hover.
  - intros Hfits. apply Z.ltb_ge in Hfits. rewrite Hfits.
    rewrite (paginate_query_some _ page size 100) by lia. cbv zeta.
    eexists. split; [reflexivity |]. cbn [pg_items pg_total]. split.
    + intros id r Hin. apply in_take_drop in Hin.
      apply (Permutation_in _ (Hperm _)) in Hin.
      apply filter_In in Hin. destruct Hin as [Hin Hvis]. simpl in Hvis.
      split.
      { apply list_elem_of_In in Hin. now apply elem_of_map_to_list in Hin. }
      unfold visible in Hvis. apply andb_true_iff in Hvis. destruct Hvis as [Hvis Ht].
      apply andb_true_iff in Hvis. destruct Hvis as [Hu Hs].
      split; [| split].
      * intros uid -> -> Hnz. simpl in Hu. apply Z.eqb_neq in Hnz. rewrite Hnz in Hu.
        simpl in Hu. now apply Z.eqb_eq.
      * intros s -> Hne. apply String.eqb_neq in Hne. rewrite Hne in Hs. simpl in Hs.
        now apply String.eqb_eq.
      * intros t -> Hne. apply String.eqb_neq in Hne. rewrite Hne in Ht. simpl in Ht.
        now apply String.eqb_eq.
    + f_equal. apply Permutation_length, Hperm.
Qed.

Lemma get_reservations_visible_witness :
  (exists p,
     run_request (get_reservations (fun l => l) (2 ^ 63 - 1) (Some 8) "client" 1 20
                    None None)
                 two_rentals_db = (Return p, two_rentals_db)
     /\ pg_total p = 1)
  /\ run_request (get_reservations (fun l => l) (2 ^ 63 - 1) (Some 8) "client" (2 ^ 63) 20
                    None None)
                 two_rentals_db = (Raise DBAPIError, two_rentals_db).
Proof.
  destruct (get_reservations_visible (fun l => l) (2 ^ 63 - 1) two_rentals_db (Some 8)
              "client" 1 20 None None) as (_ & Hfits).
  { intros l. apply Permutation_refl. }
  destruct (get_reservations_visible (fun l => l) (2 ^ 63 - 1) two_rentals_db (Some 8)
              "client" (2 ^ 63) 20 None None) as (Hover & _).
  { intros l. apply Permutation_refl. }
  split.
  - destruct Hfits as (p & Hrun & _ & Htotal); [vm_compute; discriminate |].
    exists p. split; [exact Hrun |]. rewrite Htotal. vm_compute. reflexivity.
  - apply Hover. vm_compute. reflexivity.
Defined.

Lemma route_get_reservation_spec db rid current_user :
  u_is_active current_user = true ->
  let result := run_request (route_get_reservation rid current_user) db in
  snd result = db
  /\ (reservations db !! rid = None -> fst result = Raise reservation_not_found)
  /\ (forall r, reservations db !! rid = Some r ->
      (u_role current_user = "client" -> user_id r <> u_id current_user ->
       fst result = Raise view_forbidden)
      /\ (u_role current_user <> "client" \/ user_id r = u_id current_user ->
          fst result = Return (rid, r))).
Proof.
  intros Hactive. unfold run_request, route_get_reservation, get_current_active_user,
    get_reservation_by_id. unfold_monad. simpl. rewrite Hactive. simpl.
  destruct (reservations db !! rid) as [r |].
  - split; [| split; [discriminate |]].
    + destruct (String.eqb (u_role current_user) "client" && _); reflexivity.
    + intros r' [= <-]. split.
      * intros -> Hne. simpl. apply Z.eqb_neq in Hne. now rewrite Hne.
      * intros [Hrole | Hown].
        -- apply String.eqb_neq in Hrole. now rewrite Hrole.
        -- rewrite Hown, Z.eqb_refl, andb_false_r. reflexivity.
  - split; [reflexivity |]. split; [reflexivity | discriminate].
Qed.

(** X16: reading a reservation by its key never stores anything; an active
    user gets 404 when the reservation does not exist, a client gets 403
    for a reservation of somebody else, and in every other case the
    reservation is returned as stored. *)
Theorem get_reservation_access db rid current_user :
  u_is_active current_user = true ->
  let result := run_request (route_get_reservation rid current_user) db in
  snd result = db
  /\ (reservations db !! rid = None -> fst result = Raise reservation_not_found)
  /\ (forall r, reservations db !! rid = Some r ->
      (u_role current_user = "client" -> user_id r <> u_id current_user ->
       fst result = Raise view_forbidden)
      /\ (u_role current_user <> "client" \/ user_id r = u_id current_user ->
          fst result = Return (rid, r))).
Proof. apply route_get_reservation_spec. Qed.

Lemma get_reservation_access_witness :
  fst (run_request (route_get_reservation 1 client8) two_rentals_db) = Raise view_forbidden
  /\ fst (run_request (route_get_reservation 2 client8) two_rentals_db)
     = Return (2, mkReservation 1 8 "location" 20 (Some 30) (500 # 1) "en_attente" None).
Proof.
  destruct (get_reservation_access two_rentals_db 1 client8 eq_refl) as (_ & _ & H1).
  destruct (get_reservation_access two_rentals_db 2 client8 eq_refl) as (_ & _ & H2).
  split.
  - apply (H1 (mkReservation 1 7 "location" 1 (Some 10) (500 # 1) "confirmee" None));
      [reflexivity | reflexivity | discriminate].
  - apply (H2 (mkReservation 1 8 "location" 20 (Some 30) (500 # 1) "en_attente" None));
      [reflexivity | right; reflexivity].
Defined.

(** ** The dashboard and the upcoming reservations *)

Lemma filter_two_le {A} (p q : A -> bool) (l : list A) :
  (forall x, p x = true -> q x = true -> False) ->
  (length (List.filter p l) + length (List.filter q l) <= length l)%nat.
Proof.
  intros Hdisj. induction l as [| x l IH]; simpl; [lia |].
  specialize (Hdisj x).
  destruct (p x), (q x); simpl; first [lia | exfalso; now apply Hdisj].
Qed.

Lemma filter_three {A} (p1 p2 p3 q : A -> bool) (l : list A) :
  (forall x, p1 x = true -> q x = true /\ p2 x = false /\ p3 x = false) ->
  (forall x, p2 x = true -> q x = true /\ p3 x = false) ->
  (forall x, p3 x = true -> q x = true) ->
  (length (List.filter p1 l) + length (List.filter p2 l) + length (List.filter p3 l)
   <= length (List.filter q l))%nat
  /\ ((forall x, In x l -> q x = true -> p1 x = true \/ p2 x = true \/ p3 x = true) ->
      (length (List.filter p1 l) + length (List.filter p2 l) + length (List.filter p3 l)
       = length (List.filter q l))%nat).
Proof.
  intros H1 H2 H3. induction l as [| x l [IHle IHeq]]; simpl; [split; lia |].
  specialize (H1 x). specialize (H2 x). specialize (H3 x).
  split.
  - destruct (p1 x) eqn:E1; [destruct H1 as (-> & -> & ->); [reflexivity | simpl; lia] |].
    destruct (p2 x) eqn:E2; [destruct H2 as (-> & ->); [reflexivity | simpl; lia] |].
    destruct (p3 x) eqn:E3; [rewrite H3 by reflexivity; simpl; lia |].
    destruct (q x); simpl; lia.
  - intros Hall.
    assert (Hrest : (length (List.filter p1 l) + length (List.filter p2 l)
                     + length (List.filter p3 l) = length (List.filter q l))%nat).
    { apply IHeq. intros y Hy. apply Hall. now right. }
    specialize (Hall x (or_introl eq_refl)).
    destruct (p1 x) eqn:E1; [destruct H1 as (-> & -> & ->); [reflexivity | simpl; lia] |].
    destruct (p2 x) eqn:E2; [destruct H2 as (-> & ->); [reflexivity | simpl; lia] |].
    destruct (p3 x) eqn:E3; [rewrite H3 by reflexivity; simpl; lia |].
    destruct (q x); simpl; [| lia].
    destruct (Hall eq_refl) as [? | [? | ?]]; discriminate.
Qed.

(** X17: the dashboard stores nothing and its figures add up: the
    available, sold and rented cars together are never more than the
    active cars, and exactly as many when every active car is 'disponible',
    'vendu' or 'loue'; the pending and confirmed reservations together are
    never more than the reservations counted. *)
Theorem dashboard_adds_up db user_role user_id' :
  exists stats,
    run_request (get_dashboard_stats user_role user_id') db = (Return stats, db)
    /\ available_cars stats + sold_cars stats + rented_cars stats <= total_cars stats
    /\ ((forall cid car, cars db !! cid = Some car -> is_active car = true ->
           disponibilite car = "disponible" \/ disponibilite car = "loue"
           \/ disponibilite car = "vendu") ->
        available_cars stats + sold_cars stats + rented_cars stats = total_cars stats)
    /\ pending_reservations stats + confirmed_reservations stats
       <= total_reservations stats.
Proof.
  unfold run_request, get_dashboard_stats. unfold_monad. simpl.
  eexists. split; [reflexivity |]. simpl. unfold count, cars_with.
  destruct (filter_three
              (fun row : Z * Car => is_active (snd row)
                                    && String.eqb (disponibilite (snd row)) "disponible")
              (fun row : Z * Car => is_active (snd row)
                                    && String.eqb (disponibilite (snd row)) "vendu")
              (fun row : Z * Car => is_active (snd row)
                                    && String.eqb (disponibilite (snd row)) "loue")
              (fun row : Z * Car => is_active (snd row))
              (all_cars db)) as [Hle Heq].
  - intros [cid car]. simpl. intros H. apply andb_true_iff in H. destruct H as [-> H].
    apply String.eqb_eq in H. rewrite H. auto.
  - intros [cid car]. simpl. intros H. apply andb_true_iff in H. destruct H as [-> H].
    apply String.eqb_eq in H. rewrite H. auto.
  - intros [cid car]. simpl. intros H. apply andb_true_iff in H. now destruct H.
  - split; [lia |]. split.
    + intros Hknown.
      assert (Hall : forall x : Z * Car, In x (all_cars db) -> is_active (snd x) = true ->
                is_active (snd x) && String.eqb (disponibilite (snd x)) "disponible" = true
                \/ is_active (snd x) && String.eqb (disponibilite (snd x)) "vendu" = true
                \/ is_active (snd x) && String.eqb (disponibilite (snd x)) "loue" = true).
      { intros [cid car] Hin Hact. simpl in *.
        apply list_elem_of_In, elem_of_map_to_list in Hin.
        rewrite Hact. destruct (Hknown cid car Hin Hact) as [-> | [-> | ->]]; auto. }
      specialize (Heq Hall). lia.
    + pose proof (filter_two_le
                    (fun row : Z * Reservation => String.eqb (statut (snd row)) "en_attente")
                    (fun row : Z * Reservation => String.eqb (statut (snd row)) "confirmee")
                    (own_rows user_role user_id' (all_reservations db))) as Hres.
      assert ((length (List.filter
                 (fun row : Z * Reservation => String.eqb (statut (snd row)) "en_attente")
                 (own_rows user_role user_id' (all_reservations db)))
               + length (List.filter
                 (fun row : Z * Reservation => String.eqb (statut (snd row)) "confirmee")
                 (own_rows user_role user_id' (all_reservations db)))
               <= length (own_rows user_role user_id' (all_reservations db)))%nat);
        [| lia].
      apply Hres. intros [id r]. simpl. intros Ha Hb.
      apply String.eqb_eq in Ha. rewrite Ha in Hb. discriminate.
Qed.

Lemma dashboard_adds_up_witness :
  exists stats,
    run_request (get_dashboard_stats "vendeur" None) two_rentals_db
      = (Return stats, two_rentals_db)
    /\ available_cars stats + sold_cars stats + rented_cars stats = total_cars stats.
Proof.
  destruct (dashboard_adds_up two_rentals_db "vendeur" None)
    as (stats & Hrun & _ & Heq & _).
  exists stats. split; [exact Hrun |]. apply Heq.
  intros cid car Hcar _. simpl in Hcar. apply lookup_singleton_Some in Hcar.
  destruct Hcar as [_ <-]. right. left. reflexivity.
Defined.

Lemma insert_by_date_perm row sorted :
  Permutation (insert_by_date row sorted) (row :: sorted).
Proof.
  induction sorted as [| first rest IH]; simpl; [reflexivity |].
  destruct (date_debut (snd row) <=? date_debut (snd first)); [reflexivity |].
  rewrite IH. apply perm_swap.
Qed.

Lemma order_by_date_debut_perm query :
  Permutation (order_by_date_debut query) query.
Proof.
  induction query as [| row rest IH]; simpl; [reflexivity |].
  rewrite insert_by_date_perm. now apply perm_skip.
Qed.

Lemma insert_by_date_sorted row sorted :
  Sorted by_date_debut sorted -> Sorted by_date_debut (insert_by_date row sorted).
Proof.
  induction 1 as [| first rest Hs IH Hhd]; simpl.
  - repeat constructor.
  - destruct (Z.leb_spec (date_debut (snd row)) (date_debut (snd first))) as [Hle | Hgt].
    + constructor; [now constructor | constructor; exact Hle].
    + constructor; [assumption |].
      destruct rest as [| second rest']; simpl.
      * constructor. unfold by_date_debut. lia.
      * destruct (Z.leb_spec (date_debut (snd row)) (date_debut (snd second))).
        -- constructor. unfold by_date_debut. lia.
        -- constructor. now inversion Hhd.
Qed.

Lemma order_by_date_debut_sorted query :
  Sorted by_date_debut (order_by_date_debut query).
Proof.
  induction query as [| row rest IH]; simpl; [constructor |].
  now apply insert_by_date_sorted.
Qed.

(** X18: [get_upcoming_reservations] stores nothing and returns, in
    ascending order of their start, exactly the confirmed reservations that
    start between now and [days_ahead] days from now, both ends
    included. *)
Theorem upcoming_reservations env day days_ahead db :
  exists rows,
    run_request (get_upcoming_reservations env day days_ahead) db = (Return rows, db)
    /\ Sorted by_date_debut rows
    /\ (forall id r, In (id, r) rows <->
          reservations db !! id = Some r
          /\ statut r = "confirmee"
          /\ now env <= date_debut r <= now env + days_ahead * day).
Proof.
  unfold run_request, get_upcoming_reservations. unfold_monad. simpl.
  eexists. split; [reflexivity |]. split; [apply order_by_date_debut_sorted |].
  intros id r. split.
  - intros Hin. apply (Permutation_in _ (order_by_date_debut_perm _)) in Hin.
    apply filter_In in Hin. destruct Hin as [Hin Hp]. simpl in Hp.
    apply list_elem_of_In, elem_of_map_to_list in Hin.
    rewrite !andb_true_iff, !Z.leb_le, String.eqb_eq in Hp.
    split; [assumption |]. split; [tauto | lia].
  - intros (Hr & Hs & Hd).
    apply (Permutation_in _ (Permutation_sym (order_by_date_debut_perm _))).
    apply filter_In. split.
    + now apply list_elem_of_In, elem_of_map_to_list.
    + simpl. rewrite !andb_true_iff, !Z.leb_le, String.eqb_eq. repeat split; (lia || auto).
Qed.

(** ** The car service *)

Lemma delete_car_run env db cid :
  run_request (delete_car env cid) db =
    match cars db !! cid with
    | None => (Raise car_not_found, db)
    | Some c =>
      if 0 <? Z.of_nat (length (List.filter (active_on cid)
                                  (map snd (map_to_list (reservations db)))))
      then (Raise car_has_reservations, db)
      else if commit_ok env
      then (Return true,
            mkDatabase (alter (set_is_active false) cid (cars db)) (reservations db)
                       (next_reservation_id db))
      else (Raise car_delete_failed, db)
    end.
Proof.
  unfold run_request, delete_car. unfold_monad. simpl.
  destruct (cars db !! cid); [| reflexivity].
  destruct (0 <? _); simpl; [reflexivity |].
  destruct (commit_ok env); reflexivity.
Qed.

Lemma active_on_spec cid r :
  active_on cid r = true <-> car_id r = cid /\ active r.
Proof.
  unfold active_on, active. rewrite andb_true_iff, Z.eqb_eq, str_in_spec. simpl.
  intuition.
Qed.

(** X19: deleting a car is a soft delete.  When [delete_car] succeeds, the
    car had no pending or confirmed reservation, its row is still stored
    with [is_active] false and every other column apart from the time
    stamp [updated_at] as before, and no other row has changed; from then
    on the car cannot be read by its key
    ([get_car_by_id] finds nothing) and every creation request for it is
    refused with 404. *)
Theorem delete_car_soft env db cid done db' :
  run_request (delete_car env cid) db = (Return done, db') ->
  exists c,
    cars db !! cid = Some c
    /\ db' = mkDatabase (<[cid := set_is_active false c]> (cars db)) (reservations db)
               (next_reservation_id db)
    /\ (forall id r, reservations db !! id = Some r -> car_id r = cid -> ~ active r)
    /\ run_request (get_car_by_id cid) db' = (Return None, db')
    /\ (forall env' reservation_data uid,
          rc_car_id reservation_data = cid ->
          run_request (create_reservation env' reservation_data uid) db'
            = (Raise car_not_found, db')).
Proof.
  rewrite delete_car_run.
  destruct (cars db !! cid) as [c |] eqn:Hcar; [| discriminate].
  destruct (0 <? _) eqn:Hcount; [discriminate |].
  destruct (commit_ok env); [| discriminate].
  intros [= _ <-]. exists c. rewrite (alter_as_insert _ cid _ c Hcar).
  split; [reflexivity |]. split; [reflexivity |]. split; [| split].
  - intros id r Hr Hc Hact.
    assert (Hpos : (0 <? Z.of_nat (length (List.filter (active_on cid)
                      (map snd (map_to_list (reservations db)))))) = true).
    { apply count_positive. exists id, r. split; [assumption |].
      now apply active_on_spec. }
    congruence.
  - unfold run_request, get_car_by_id. unfold_monad. simpl.
    rewrite lookup_insert_eq. reflexivity.
  - intros env' data uid <-. rewrite create_reservation_run. simpl.
    rewrite lookup_insert_eq. reflexivity.
Qed.

(** One car that was sold, its sale completed. *)
Lemma delete_car_soft_witness :
  exists db',
    run_request (delete_car sample_env 1) (perform_all completed_sale fresh_db)
      = (Return true, db')
    /\ cars db' !! 1 = Some (set_is_active false (sample_car "vendu"))
    /\ run_request (create_reservation sample_env sale_request 7) db'
       = (Raise car_not_found, db').
Proof.
  eexists. split; [reflexivity |].
  destruct (delete_car_soft sample_env (perform_all completed_sale fresh_db) 1 true _
              eq_refl) as (c & Hc & Hdb & _ & _ & Hcreate).
  split; [reflexivity |]. apply Hcreate. reflexivity.
Defined.

(** X20: [delete_car] refuses an existing car (400) exactly when the car
    has a pending or confirmed reservation, and then stores nothing; in a
    coordinated database this holds for every rented car, so that a rented
    car cannot be deleted. *)
Theorem delete_car_refused env db cid car :
  cars db !! cid = Some car ->
  (run_request (delete_car env cid) db = (Raise car_has_reservations, db)
   <-> exists id r, reservations db !! id = Some r /\ car_id r = cid /\ active r)
  /\ (coordinated db -> disponibilite car = "loue" ->
      run_request (delete_car env cid) db = (Raise car_has_reservations, db)).
Proof.
  intros Hcar.
  assert (Hiff : run_request (delete_car env cid) db = (Raise car_has_reservations, db)
                 <-> exists id r, reservations db !! id = Some r /\ car_id r = cid
                                  /\ active r).
  { rewrite delete_car_run, Hcar.
    destruct (0 <? _) eqn:Hcount.
    - split; [intros _ | reflexivity].
      apply count_positive in Hcount. destruct Hcount as (id & r & Hr & Ha).
      apply active_on_spec in Ha. exists id, r. tauto.
    - split.
      + destruct (commit_ok env); discriminate.
      + intros (id & r & Hr & Hc & Ha). exfalso.
        assert (Hpos : (0 <? Z.of_nat (length (List.filter (active_on cid)
                          (map snd (map_to_list (reservations db)))))) = true).
        { apply count_positive. exists id, r. split; [assumption |].
          now apply active_on_spec. }
        congruence. }
  split; [exact Hiff |].
  intros Hco Hloue. apply Hiff.
  destruct (coordinated_settled db Hco cid car Hcar) as (_ & Hrented & _).
  destruct Hrented as [Hrented _].
  destruct (Hrented Hloue) as (id & r & Hr & Hc & Ha & _). eauto.
Qed.

Lemma delete_car_refused_witness :
  run_request (delete_car sample_env 1) rented_db
    = (Raise car_has_reservations, rented_db).
Proof.
  destruct (delete_car_refused sample_env rented_db 1 (sample_car "loue") eq_refl)
    as [Hiff _].
  apply Hiff.
  exists 1, (sample_reservation "location" (Some 300) "confirmee").
  split; [reflexivity |]. split; [reflexivity | right; reflexivity].
Defined.

Lemma update_car_availability_run env db cid availability :
  run_request (update_car_availability env cid availability) db =
    match cars db !! cid with
    | None => (Raise car_not_found, db)
    | Some c =>
      if negb (is_active c) then (Raise car_not_found, db)
      else if negb (str_in availability ["disponible"; "loue"; "vendu"])
      then (Raise invalid_availability, db)
      else if commit_ok env
      then (Return (cid, set_disponibilite availability c),
            mkDatabase (<[cid := set_disponibilite availability c]> (cars db))
                       (reservations db) (next_reservation_id db))
      else (Raise availability_failed, db)
    end.
Proof.
  unfold run_request, update_car_availability. unfold_monad. simpl.
  destruct (cars db !! cid) as [c |] eqn:Hcar; [| reflexivity].
  destruct (is_active c); simpl; [| reflexivity].
  destruct (str_in availability _); simpl; [| reflexivity].
  destruct (commit_ok env); simpl; [| reflexivity].
  rewrite lookup_alter_eq, Hcar. simpl.
  now rewrite (alter_as_insert _ cid _ c Hcar).
Qed.

(** X21: [update_car_availability] stores an availability only for an
    active car and only if it is 'disponible', 'loue' or 'vendu' (404 and
    400 otherwise, nothing stored); when it succeeds, what has changed in
    the database is the availability of that car and, with it, the time
    stamp [updated_at] of its row, which the rows here do not carry; no
    other column and no other row has changed. *)
Theorem update_car_availability_effect env db cid availability :
  let result := run_request (update_car_availability env cid availability) db in
  (forall resp db', result = (Return resp, db') ->
     exists c, cars db !! cid = Some c /\ is_active c = true
       /\ (availability = "disponible" \/ availability = "loue" \/ availability = "vendu")
       /\ resp = (cid, set_disponibilite availability c)
       /\ db' = mkDatabase (<[cid := set_disponibilite availability c]> (cars db))
                  (reservations db) (next_reservation_id db))
  /\ (forall c, cars db !! cid = Some c -> is_active c = true ->
      availability <> "disponible" -> availability <> "loue" -> availability <> "vendu" ->
      result = (Raise invalid_availability, db))
  /\ ((cars db !! cid = None \/ exists c, cars db !! cid = Some c /\ is_active c = false) ->
      result = (Raise car_not_found, db)).
Proof.
  simpl. rewrite update_car_availability_run. split; [| split].
  - intros resp db'. destruct (cars db !! cid) as [c |]; [| discriminate].
    destruct (is_active c) eqn:Hact; simpl; [| discriminate].
    destruct (str_in availability _) eqn:Hin; simpl; [| discriminate].
    destruct (commit_ok env); [| discriminate].
    intros [= <- <-]. exists c. repeat split; auto.
    apply str_in_spec in Hin. simpl in Hin.
    destruct Hin as [<- | [<- | [<- | []]]]; auto.
  - intros c -> -> H1 H2 H3. simpl.
    assert (Hin : str_in availability ["disponible"; "loue"; "vendu"] = false).
    { destruct (str_in availability _) eqn:Hin; [| reflexivity].
      apply str_in_spec in Hin. simpl in Hin.
      destruct Hin as [<- | [<- | [<- | []]]]; contradiction. }
    rewrite Hin. reflexivity.
  - intros [-> | (c & -> & ->)]; reflexivity.
Qed.

Lemma update_car_availability_effect_witness :
  run_request (update_car_availability sample_env 1 "reserve") fresh_db
    = (Raise invalid_availability, fresh_db)
  /\ run_request (update_car_availability sample_env 2 "vendu") fresh_db
     = (Raise car_not_found, fresh_db)
  /\ exists resp db',
       run_request (update_car_availability sample_env 1 "vendu") fresh_db
         = (Return resp, db')
       /\ resp = (1, sample_car "vendu")
       /\ db' = mkDatabase (<[1 := sample_car "vendu"]> (cars fresh_db))
                  (reservations fresh_db) (next_reservation_id fresh_db).
Proof.
  destruct (update_car_availability_effect sample_env fresh_db 1 "reserve")
    as (_ & Hbad & _).
  destruct (update_car_availability_effect sample_env fresh_db 2 "vendu")
    as (_ & _ & Hmissing).
  destruct (update_car_availability_effect sample_env fresh_db 1 "vendu")
    as (Hdone & _ & _).
  split; [| split].
  - apply (Hbad (sample_car "disponible")); (reflexivity || discriminate).
  - apply Hmissing. left. reflexivity.
  - eexists. eexists. split; [reflexivity |].
    edestruct Hdone as (c & Hc & _ & _ & Hresp & Hdb); [reflexivity |].
    injection Hc as <-. split; assumption.
Defined.

(** X22: [update_car_availability] does not look at the reservations: for
    an active car with a pending or confirmed sale or rental it still sets
    'disponible' (the commit going through), and the stored database then
    has an available car with a reservation holding it, so that the
    availability no longer agrees with the reservations. *)
Theorem update_car_availability_unchecked env db cid car id r :
  cars db !! cid = Some car -> is_active car = true ->
  reservations db !! id = Some r -> car_id r = cid ->
  active r -> known_type r ->
  commit_ok env = true ->
  exists db',
    run_request (update_car_availability env cid "disponible") db
      = (Return (cid, set_disponibilite "disponible" car), db')
    /\ reservations db' = reservations db
    /\ cars db' !! cid = Some (set_disponibilite "disponible" car)
    /\ ~ availability_settled db'.
Proof.
  intros Hcar Hact Hr Hc Ha Hkt Hcommit.
  rewrite update_car_availability_run, Hcar, Hact, Hcommit. simpl.
  eexists. split; [reflexivity |]. simpl. split; [reflexivity |].
  split; [apply lookup_insert_eq |].
  intros Hset.
  destruct (Hset cid (set_disponibilite "disponible" car)) as (_ & Hrented & Hsold).
  { simpl. apply lookup_insert_eq. }
  simpl in *. destruct Hkt as [Hv | Hl].
  - destruct Hsold as [_ Hsold].
    assert (Hx : "disponible" = "vendu"); [| discriminate].
    apply Hsold. exists id, r. repeat split; auto. now left.
  - destruct Hrented as [_ Hrented].
    assert (Hx : "disponible" = "loue"); [| discriminate].
    apply Hrented. exists id, r. repeat split; auto.
Qed.

Lemma update_car_availability_unchecked_witness :
  exists db',
    run_request (update_car_availability sample_env 1 "disponible") rented_db
      = (Return (1, sample_car "disponible"), db')
    /\ ~ availability_settled db'.
Proof.
  destruct (update_car_availability_unchecked sample_env rented_db 1 (sample_car "loue")
              1 (sample_reservation "location" (Some 300) "confirmee")
              eq_refl eq_refl eq_refl eq_refl (or_intror eq_refl) (or_intror eq_refl)
              eq_refl) as (db' & Hrun & _ & _ & Hbroken).
  exists db'. split; assumption.
Defined.

(** ** [sanitize_string] *)

Lemma slice_to_in {A} (x : A) (l : list A) (n : Z) : In x (slice_to l n) -> In x l.
Proof.
  unfold slice_to. destruct (0 <=? n); intros Hin;
    apply list_elem_of_In in Hin; apply list_elem_of_In;
    apply elem_of_take in Hin; destruct Hin as (i & Hi & _);
    eapply list_elem_of_lookup_2; eassumption.
Qed.

(** X23: [sanitize_string] never lets through one of the four characters
    [<], [>], the double quote and the apostrophe; with a [max_length] that
    is not negative its result has at most [max_length] characters; the
    empty string stays empty; and a string that has none of the four
    characters, no white space at its ends and at most [max_length]
    characters is returned as it is. *)
Theorem sanitize_string_safe (text : list Z) (max_length : Z) :
  (forall c, In c (sanitize_string text max_length) -> dangerous c = false)
  /\ (0 <= max_length -> Z.of_nat (length (sanitize_string text max_length)) <= max_length)
  /\ sanitize_string [] max_length = []
  /\ (strip text = text ->
      (forall c, In c text -> dangerous c = false) ->
      Z.of_nat (length text) <= max_length ->
      sanitize_string text max_length = text).
Proof.
  split; [| split; [| split]].
  - intros c Hin. destruct text as [| c0 rest]; [destruct Hin |].
    unfold sanitize_string in Hin. apply slice_to_in in Hin.
    apply filter_In in Hin. destruct Hin as [_ Hc]. now apply negb_true_iff in Hc.
  - intros Hn. destruct text as [| c0 rest]; [simpl; lia |].
    unfold sanitize_string, slice_to.
    destruct (Z.leb_spec 0 max_length); [| lia].
    rewrite length_take. lia.
  - reflexivity.
  - intros Hstrip Hclean Hlen. destruct text as [| c0 rest]; [reflexivity |].
    unfold sanitize_string. rewrite Hstrip.
    assert (Hf : List.filter (fun c => negb (dangerous c)) (c0 :: rest) = c0 :: rest).
    { apply forallb_filter_id. apply forallb_forall. intros c Hc.
      now rewrite (Hclean c Hc). }
    rewrite Hf. unfold slice_to.
    destruct (Z.leb_spec 0 max_length); [| simpl in Hlen; lia].
    apply take_ge. lia.
Qed.

(** The text [ <b>l'Espace</b> ] between two spaces, as code points. *)
Lemma sanitize_string_safe_witness :
  sanitize_string [98; 108; 101; 117] 255 = [98; 108; 101; 117]
  /\ sanitize_string [32; 60; 98; 62; 108; 39; 69; 60; 47; 98; 62; 32] 5
     = [98; 108; 69; 47; 98].
Proof.
  split; [| reflexivity].
  apply (sanitize_string_safe [98; 108; 101; 117] 255).
  - reflexivity.
  - intros c [<- | [<- | [<- | [<- | []]]]]; reflexivity.
  - simpl. lia.
Defined.

(** ** The reservations of a car, and who may do what through the routes *)

(** X24: whatever the order by creation date is, [get_reservations_by_car]
    returns exactly the stored reservations of the car; in a coordinated
    database at most one of them holds the car (is pending, confirmed or a
    completed sale), and none does when the car is 'disponible'. *)
Theorem reservations_by_car order db cid :
  (forall l, Permutation (order l) l) ->
  exists rows,
    run_request (get_reservations_by_car order cid) db = (Return rows, db)
    /\ (forall id r, In (id, r) rows <-> reservations db !! id = Some r /\ car_id r = cid)
    /\ (coordinated db -> forall car, cars db !! cid = Some car ->
        (forall id1 r1 id2 r2, In (id1, r1) rows -> In (id2, r2) rows ->
           occupying r1 -> occupying r2 -> id1 = id2)
        /\ (disponibilite car = "disponible" ->
            forall id r, In (id, r) rows -> ~ occupying r)).
Proof.
  intros Hperm. unfold run_request, get_reservations_by_car. unfold_monad. simpl.
  eexists. split; [reflexivity |].
  assert (Hin : forall id r,
            In (id, r) (order (List.filter (fun row => car_id (snd row) =? cid)
                                           (all_reservations db)))
            <-> reservations db !! id = Some r /\ car_id r = cid).
  { intros id r. split.
    - intros H. apply (Permutation_in _ (Hperm _)) in H.
      apply filter_In in H. destruct H as [H Hc]. simpl in Hc.
      apply list_elem_of_In, elem_of_map_to_list in H. split; [assumption | lia].
    - intros [Hr Hc]. apply (Permutation_in _ (Permutation_sym (Hperm _))).
      apply filter_In. split; [now apply list_elem_of_In, elem_of_map_to_list |].
      simpl. lia. }
  split; [exact Hin |].
  intros Hco car Hcar. split.
  - intros id1 r1 id2 r2 H1 H2 Ho1 Ho2.
    apply Hin in H1, H2. destruct H1 as [Hr1 Hc1], H2 as [Hr2 Hc2].
    apply (holder_unique db Hco cid id1 r1 id2 r2); eauto.
  - intros Hav id r H Ho. apply Hin in H. destruct H as [Hr Hc].
    pose proof (holder_marks db Hco cid car id r Hcar Hr Hc Ho) as Hm.
    rewrite Hav in Hm. destruct Hm as [(Hx & _) | (Hx & _)]; discriminate.
Qed.

Lemma reservations_by_car_witness :
  exists rows,
    run_request (get_reservations_by_car (fun l => l) 1) cancelled_sale_db
      = (Return rows, cancelled_sale_db)
    /\ forall id r, In (id, r) rows -> ~ occupying r.
Proof.
  destruct (reservations_by_car (fun l => l) cancelled_sale_db 1)
    as (rows & Hrun & _ & Hco).
  - intros l. apply Permutation_refl.
  - exists rows. split; [exact Hrun |].
    apply (Hco cancelled_sale_db_coordinated (sample_car "disponible")); reflexivity.
Defined.

Lemma route_create_reservation_run env db reservation_data current_user :
  run_request (route_create_reservation env reservation_data current_user) db =
    if negb (u_is_active current_user) then (Raise inactive_user, db)
    else run_request (create_reservation env reservation_data (u_id current_user)) db.
Proof.
  unfold run_request, route_create_reservation, get_current_active_user.
  unfold_monad. destruct (u_is_active current_user); reflexivity.
Qed.

Lemma route_cancel_reservation_run env db rid current_user :
  u_is_active current_user = true ->
  run_request (route_cancel_reservation env rid current_user) db =
    match run_request (cancel_reservation env rid (u_id current_user)
                         (u_role current_user)) db with
    | (Return _, db') => (Return "Réservation annulée avec succès", db')
    | (Raise e, db') => (Raise e, db')
    end.
Proof.
  intros Hact.
  unfold run_request, route_cancel_reservation, get_current_active_user.
  unfold bind at 1 2. rewrite Hact. simpl. unfold ret at 1.
  destruct (cancel_reservation env rid (u_id current_user) (u_role current_user)
              (mkSession db db)) as [[done | e] s]; reflexivity.
Qed.

(** X25: a reservation created through the route belongs to the user who
    created it: that user reads it back by its key, while any other client
    gets 403 both when reading it and when trying to cancel it, and the
    refused cancellation stores nothing. *)
Theorem creator_access env db reservation_data creator id r db1 :
  run_request (route_create_reservation env reservation_data creator) db
    = (Return (id, r), db1) ->
  user_id r = u_id creator
  /\ fst (run_request (route_get_reservation id creator) db1) = Return (id, r)
  /\ (forall env' other,
        u_is_active other = true -> u_role other = "client" ->
        u_id other <> u_id creator ->
        fst (run_request (route_get_reservation id other) db1) = Raise view_forbidden
        /\ run_request (route_cancel_reservation env' id other) db1
           = (Raise cancel_forbidden, db1)).
Proof.
  rewrite route_create_reservation_run.
  destruct (u_is_active creator) eqn:Hact; simpl; [| discriminate].
  intros Hrun.
  destruct (create_success_inv _ _ _ _ _ _ Hrun) as (car & _ & _ & _ & Hresp & Hdb1).
  injection Hresp as -> ->.
  assert (Hrow : reservations db1 !! next_reservation_id db
                 = Some (new_reservation reservation_data (u_id creator)))
    by (rewrite Hdb1; simpl; apply lookup_insert_eq).
  split; [reflexivity |]. split.
  - destruct (route_get_reservation_spec db1 (next_reservation_id db) creator Hact)
      as (_ & _ & Hget).
    apply (Hget _ Hrow). right. reflexivity.
  - intros env' other Hoa Hor Hne. split.
    + destruct (route_get_reservation_spec db1 (next_reservation_id db) other Hoa)
        as (_ & _ & Hget).
      apply (Hget _ Hrow); [assumption |]. simpl. congruence.
    + rewrite (route_cancel_reservation_run env' db1 _ other Hoa).
      rewrite (cancel_reservation_run env' db1 _ _ (u_id other) (u_role other) Hrow).
      rewrite Hor. simpl.
      assert (Hneq : (u_id creator =? u_id other) = false) by (apply Z.eqb_neq; congruence).
      rewrite Hneq. reflexivity.
Qed.

Lemma creator_access_witness :
  exists db1,
    run_request (route_create_reservation sample_env sale_request client7) fresh_db
      = (Return (1, new_reservation sale_request 7), db1)
    /\ fst (run_request (route_get_reservation 1 client8) db1) = Raise view_forbidden
    /\ run_request (route_cancel_reservation sample_env 1 client8) db1
       = (Raise cancel_forbidden, db1).
Proof.
  eexists. split; [reflexivity |].
  destruct (creator_access sample_env fresh_db sale_request client7 1
              (new_reservation sale_request 7) _ eq_refl) as (_ & _ & Hother).
  apply (Hother sample_env client8); [reflexivity | reflexivity | discriminate].
Defined.

Lemma route_update_reservation_status_run env db rid new_status current_user :
  run_request (route_update_reservation_status env rid new_status current_user) db =
    if negb (u_is_active current_user) then (Raise inactive_user, db)
    else if negb (String.eqb (u_role current_user) "vendeur")
    then (Raise vendeur_required, db)
    else run_request (update_reservation_status env rid new_status (u_role current_user)) db.
Proof.
  unfold run_request, route_update_reservation_status, require_vendeur, require_role,
    get_current_active_user. unfold bind at 1 2.
  destruct (u_is_active current_user); simpl; [| reflexivity].
  unfold ret at 1. destruct (String.eqb (u_role current_user) "vendeur"); reflexivity.
Qed.

Lemma authenticated_run {A} users email (route : User -> Request A) db :
  run_request (authenticated users email route) db =
    match email with
    | None => (Raise credentials_exception, db)
    | Some email =>
        match List.find (fun u => String.eqb (u_email u) email && u_is_active u) users with
        | None => (Raise credentials_exception, db)
        | Some user => run_request (route user) db
        end
    end.
Proof.
  unfold run_request, authenticated, get_current_user. unfold bind at 1.
  destruct email as [email |]; [| reflexivity].
  destruct (List.find _ users); reflexivity.
Qed.

Lemma get_current_user_found users email user db db' :
  run_request (get_current_user users email) db = (Return user, db') ->
  exists email',
    email = Some email'
    /\ List.find (fun u => String.eqb (u_email u) email' && u_is_active u) users = Some user
    /\ u_email user = email' /\ u_is_active user = true /\ In user users.
Proof.
  unfold run_request, get_current_user. destruct email as [email |]; [| discriminate].
  destruct (List.find _ users) as [found |] eqn:Hfind; [| discriminate].
  intros [= -> _]. exists email. split; [reflexivity |]. split; [assumption |].
  apply find_some in Hfind as [Hin Hcond]. apply andb_true_iff in Hcond as [He Ha].
  apply String.eqb_eq in He. auto.
Qed.

Lemma get_current_user_none (users : list User) (email : option string) :
  (forall u, In u users -> email = Some (u_email u) -> u_is_active u = false) ->
  match email with
  | None => True
  | Some email =>
      List.find (fun u => String.eqb (u_email u) email && u_is_active u) users = None
  end.
Proof.
  intros Hnone. destruct email as [email |]; [| exact I].
  destruct (List.find _ users) as [found |] eqn:Hfind; [| reflexivity].
  apply find_some in Hfind as [Hin Hcond]. apply andb_true_iff in Hcond as [He Ha].
  apply String.eqb_eq in He. rewrite (Hnone found Hin) in Ha by now rewrite He.
  discriminate.
Qed.

(** X26: through the routes only a seller who is known and active changes
    a status or deletes a reservation.  When the token stands for nobody,
    or for no active user of the table, both routes answer 401 'Could not
    validate credentials'; for the user of the request with any role other
    than vendeur they answer 403 'Operation requires vendeur role'; in both
    cases the database stays as it is, whatever the reservation and the
    status asked for.  An inactive user never gets past the first of these
    checks, so that neither route ever answers 400 'Inactive user'. *)
Theorem seller_routes_guarded env db users email rid new_status :
  ((forall u, In u users -> email = Some (u_email u) -> u_is_active u = false) ->
   run_request (authenticated users email
                  (route_update_reservation_status env rid new_status)) db
     = (Raise credentials_exception, db)
   /\ run_request (authenticated users email (route_delete_reservation env rid)) db
      = (Raise credentials_exception, db))
  /\ (forall current_user,
      run_request (get_current_user users email) db = (Return current_user, db) ->
      u_role current_user <> "vendeur" ->
      run_request (authenticated users email
                     (route_update_reservation_status env rid new_status)) db
        = (Raise vendeur_required, db)
      /\ run_request (authenticated users email (route_delete_reservation env rid)) db
         = (Raise vendeur_required, db))
  /\ fst (run_request (authenticated users email
                         (route_update_reservation_status env rid new_status)) db)
     <> Raise inactive_user
  /\ fst (run_request (authenticated users email (route_delete_reservation env rid)) db)
     <> Raise inactive_user.
Proof.
  rewrite !authenticated_run. split; [| split; [| split]].
  - intros Hnone. apply get_current_user_none in Hnone.
    destruct email as [email |]; [rewrite Hnone |]; now split.
  - intros current_user Hfound Hrole.
    apply get_current_user_found in Hfound as (email' & -> & -> & _ & Hact & _).
    apply String.eqb_neq in Hrole.
    rewrite route_update_reservation_status_run, route_delete_reservation_run.
    rewrite Hact, Hrole. now split.
  - destruct email as [email |]; [| discriminate].
    destruct (List.find _ users) as [user |] eqn:Hfind; [| discriminate].
    apply find_some in Hfind as [_ Hcond]. apply andb_true_iff in Hcond as [_ Hact].
    rewrite route_update_reservation_status_run, Hact. simpl.
    destruct (String.eqb_spec (u_role user) "vendeur") as [-> | _]; [| discriminate].
    simpl. destruct (reservations db !! rid) as [r |] eqn:Hr;
      [| rewrite update_reservation_status_missing by assumption; discriminate].
    rewrite (update_reservation_status_run env db rid r new_status Hr).
    destruct (negb _); [discriminate |].
    destruct (String.eqb new_status "annulee" || _).
    + destruct (cars db !! car_id r); [| discriminate].
      destruct (commit_ok env); discriminate.
    + destruct (commit_ok env); discriminate.
  - destruct email as [email |]; [| discriminate].
    destruct (List.find _ users) as [user |] eqn:Hfind; [| discriminate].
    apply find_some in Hfind as [_ Hcond]. apply andb_true_iff in Hcond as [_ Hact].
    rewrite route_delete_reservation_run, Hact. simpl.
    destruct (negb _); [discriminate |].
    destruct (reservations db !! rid) as [r |]; [| discriminate].
    destruct (negb _); [discriminate |].
    destruct (commit_ok env); discriminate.
Qed.

Lemma seller_routes_guarded_witness :
  run_request (authenticated [seller; inactive_client7; client8]
                 (Some (u_email client7))
                 (route_update_reservation_status sample_env 1 "confirmee"))
              pending_sale_db
    = (Raise credentials_exception, pending_sale_db)
  /\ run_request (authenticated [seller; client7; client8] (Some (u_email client7))
                    (route_update_reservation_status sample_env 1 "confirmee"))
                 pending_sale_db
     = (Raise vendeur_required, pending_sale_db).
Proof.
  split.
  - destruct (seller_routes_guarded sample_env pending_sale_db
                [seller; inactive_client7; client8]
                (Some (u_email client7)) 1 "confirmee") as [Hnone _].
    apply Hnone. intros u Hin [= He].
    destruct Hin as [<- | [<- | [<- | []]]]; first [reflexivity | discriminate He].
  - destruct (seller_routes_guarded sample_env pending_sale_db [seller; client7; client8]
                (Some (u_email client7)) 1 "confirmee") as (_ & Hrole & _).
    apply (Hrole client7); [reflexivity | discriminate].
Defined.

Lemma conflict_found_active reservation_data db :
  conflict_found reservation_data db = true ->
  exists id r, reservations db !! id = Some r
               /\ car_id r = rc_car_id reservation_data /\ active r.
Proof.
  unfold conflict_found. destruct (rc_date_fin reservation_data) as [fin |];
    [| discriminate].
  intros H. apply andb_true_iff in H. destruct H as [_ H].
  apply count_positive in H. destruct H as (id & r & Hr & Hc).
  apply conflicts_with_spec in Hc. exists id, r. tauto.
Qed.

(** X27: in a coordinated database the conflict query of
    [create_reservation] never finds anything: a car that passed the
    availability check has no pending or confirmed reservation, so that a
    creation request is never refused with 'La voiture est déjà réservée
    pour cette période'. *)
Theorem conflict_never_in_coordinated env db reservation_data uid :
  coordinated db ->
  fst (run_request (create_reservation env reservation_data uid) db)
    <> Raise rental_conflict.
Proof.
  intros Hco. rewrite create_reservation_run.
  destruct (cars db !! rc_car_id reservation_data) as [car |] eqn:Hcar; [| discriminate].
  destruct (negb (is_active car)); [discriminate |].
  destruct (String.eqb_spec (disponibilite car) "disponible") as [Hav | Hav];
    simpl; [| discriminate].
  destruct (negb (validate_reservation_dates _ _ _ _)); [discriminate |].
  destruct (conflict_found reservation_data db) eqn:Hcf.
  - exfalso. destruct (conflict_found_active _ _ Hcf) as (id & r & Hr & Hc & Ha).
    pose proof (holder_marks db Hco _ car id r Hcar Hr Hc (or_introl Ha)) as Hm.
    rewrite Hav in Hm. destruct Hm as [(Hx & _) | (Hx & _)]; discriminate.
  - destruct (Qle_bool _ 0); [discriminate |].
    destruct (commit_ok env); discriminate.
Qed.

Lemma conflict_never_in_coordinated_witness :
  fst (run_request (create_reservation june_env (june_request 5 12 (400 # 1)) 8)
         cancelled_sale_db)
    <> Raise rental_conflict.
Proof.
  apply conflict_never_in_coordinated. exact cancelled_sale_db_coordinated.
Defined.
